(** * Bee Swarm stats backend: sample store, time windows, control mailbox

    A shallow embedding of [src/Index.js] (the Express server behind the
    Bee Swarm statistics front end) and of the properties its
    specification states about it.

    [src/Index.js] holds three successive versions of the server.  The
    latest one (lines 526-1394: MySQL with in-memory fallback, backpack
    and nectar series, player sessions, control mailbox) is embedded in
    [Module Server]; the version before it (lines 106-525), the only one
    with [/api/leaderboard], is embedded in [Module Ranking].  The files
    under [src/unnamed] hold further versions of the same file; the
    in-memory write of the first of [src/unnamed/part_001] is embedded
    in [Module Earlier].

    Modelling conventions.
    - A JavaScript number is a [num]: a finite value carried as an exact
      rational, or one of the non-finite values.  Rounding to binary64
      is outside the model.
    - A JavaScript object used as a dictionary is a [gmap] of its own
      properties; what [obj[key]] finds is told by [Js.lookup], which
      knows the names every object inherits from [Object.prototype].
      A string is a [string] whose elements stand for code units.
    - The model follows the server while [Object.prototype] and the
      prototypes of the stores are the ones the process started with;
      a request that changes one of them, or that takes an inherited
      member for an entry, ends in [Server.Astray] or [Server.Thrown].
    - A handler is a function from the request, the clock reading
      [nowSec()] and the process state to the response and the new
      state, or, where a request can end otherwise, to a [Server.fate].
      One request observes one clock reading.
    - A statement sent to MySQL either raises or takes effect; which
      ones raise is an arbitrary predicate [raises] on statements. *)

From Stdlib Require Import ZArith QArith Qround Lia Lqa Bool Ascii String List.
From Stdlib Require Import Sorting.Sorted Sorting.Permutation.
From stdpp Require Import gmap strings list fin_maps pretty.

Set Default Proof Using "Type".
Set Warnings "-register-all".
Local Open Scope Z_scope.

(** ** JavaScript numbers *)

Module JsNum.

Inductive num : Type :=
| Fin (q : Q)
| Inf (neg : bool)
| NaN.

Definition of_Z (z : Z) : num := Fin (inject_Z z).

(** [isFinite(x)] for [x] of type number. *)
Definition isFinite (x : num) : bool :=
  match x with Fin _ => true | _ => false end.

(** Truthiness of a number: [0] and [NaN] are falsy. *)
Definition truthy (x : num) : bool :=
  match x with
  | Fin q => negb (Qeq_bool q 0)
  | Inf _ => true
  | NaN => false
  end.

Definition Qneg (q : Q) : bool := (Qnum q <? 0)%Z.
Definition Qltb (a b : Q) : bool := negb (Qle_bool b a).

(** [a < b]; every comparison with [NaN] is false. *)
Definition ltb (a b : num) : bool :=
  match a, b with
  | NaN, _ | _, NaN => false
  | Fin x, Fin y => Qltb x y
  | Fin _, Inf nb => negb nb
  | Inf na, Fin _ => na
  | Inf na, Inf nb => na && negb nb
  end.

(** [a <= b]. *)
Definition leb (a b : num) : bool :=
  match a, b with
  | NaN, _ | _, NaN => false
  | Fin x, Fin y => Qle_bool x y
  | Fin _, Inf nb => negb nb
  | Inf na, Fin _ => na
  | Inf na, Inf nb => na || negb nb
  end.

Definition gtb (a b : num) : bool := ltb b a.
Definition geb (a b : num) : bool := leb b a.

(** Equality of numbers as [Map] keys compare them (SameValueZero). *)
Definition same (a b : num) : bool :=
  match a, b with
  | Fin x, Fin y => Qeq_bool x y
  | Inf na, Inf nb => Bool.eqb na nb
  | NaN, NaN => true
  | _, _ => false
  end.

Definition add (a b : num) : num :=
  match a, b with
  | NaN, _ | _, NaN => NaN
  | Fin x, Fin y => Fin (x + y)
  | Fin _, Inf n | Inf n, Fin _ => Inf n
  | Inf na, Inf nb => if Bool.eqb na nb then Inf na else NaN
  end.

Definition opp (a : num) : num :=
  match a with
  | Fin x => Fin (- x)
  | Inf n => Inf (negb n)
  | NaN => NaN
  end.

Definition sub (a b : num) : num := add a (opp b).

Definition mul (a b : num) : num :=
  match a, b with
  | NaN, _ | _, NaN => NaN
  | Fin x, Fin y => Fin (x * y)
  | Fin x, Inf n | Inf n, Fin x =>
      if Qeq_bool x 0 then NaN else Inf (xorb n (Qneg x))
  | Inf na, Inf nb => Inf (xorb na nb)
  end.

Definition div (a b : num) : num :=
  match a, b with
  | NaN, _ | _, NaN => NaN
  | Fin x, Fin y =>
      if Qeq_bool y 0
      then (if Qeq_bool x 0 then NaN else Inf (Qneg x))
      else Fin (x / y)
  | Fin _, Inf _ => Fin 0
  | Inf n, Fin y => Inf (xorb n (Qneg y))
  | Inf _, Inf _ => NaN
  end.

(** [Math.min(a, b)] and [Math.max(a, b)]. *)
Definition min (a b : num) : num :=
  match a, b with
  | NaN, _ | _, NaN => NaN
  | _, _ => if leb a b then a else b
  end.

Definition max (a b : num) : num :=
  match a, b with
  | NaN, _ | _, NaN => NaN
  | _, _ => if leb a b then b else a
  end.

(** [Math.floor(x)]. *)
Definition floor (x : num) : num :=
  match x with
  | Fin q => of_Z (Qfloor q)
  | _ => x
  end.

(** [x || 0] for a number [x]. *)
Definition or_zero (x : num) : num := if truthy x then x else of_Z 0.

End JsNum.
Export JsNum.

(** ** The time-window resolver *)

Module Period.

Definition is_digit (c : ascii) : bool :=
  ((48 <=? nat_of_ascii c) && (nat_of_ascii c <=? 57))%nat.

Definition digit_value (c : ascii) : Z := Z.of_nat (nat_of_ascii c) - 48.

(** The unit letters of the class [[smhd]] with the factor the
    [switch] multiplies by. *)
Definition unit_seconds (c : ascii) : option Z :=
  match c with
  | "s"%char => Some 1
  | "m"%char => Some 60
  | "h"%char => Some 3600
  | "d"%char => Some 86400
  | _ => None
  end.

(** The longest prefix of digits, and what follows it. *)
Fixpoint span_digits (s : string) : string * string :=
  match s with
  | String c r =>
      if is_digit c
      then let '(ds, rest) := span_digits r in (String c ds, rest)
      else (EmptyString, s)
  | EmptyString => (EmptyString, EmptyString)
  end.

(** [/^(\d+)([smhd])$/.exec(period)]: the two captured groups. *)
Definition exec_period (period : string) : option (string * ascii) :=
  match span_digits period with
  | (String d ds, String u EmptyString) =>
      match unit_seconds u with
      | Some _ => Some (String d ds, u)
      | None => None
      end
  | _ => None
  end.

(** [Number(m[1])] on a string of decimal digits, as the exact integer.
    The double JavaScript computes differs from it only far above
    2592000, where [Math.min] cuts the result. *)
Definition decimal_from (acc : Z) (s : string) : Z :=
  fold_left (fun a c => 10 * a + digit_value c) (list_ascii_of_string s) acc.
Definition decimal (s : string) : Z := decimal_from 0 s.

Definition MAX_WINDOW : Z := 86400 * 30.

(** [toSeconds(period)]; [None] is an absent (undefined) period. *)
Definition toSeconds (period : option string) : Z :=
  match period with
  | None => 86400
  | Some EmptyString => 86400
  | Some p =>
      match exec_period p with
      | None => 86400
      | Some (digits, unit) =>
          let n := decimal digits in
          match unit with
          | "s"%char => Z.min n MAX_WINDOW
          | "m"%char => Z.min (n * 60) MAX_WINDOW
          | "h"%char => Z.min (n * 3600) MAX_WINDOW
          | "d"%char => Z.min (n * 86400) MAX_WINDOW
          | _ => 86400
          end
      end
  end.

(** The period grammar as the specification words it, [<n><unit>]:
    a number [n] written in decimal digits, then one unit letter.  The
    tables below are the specification's, written out without any of
    the definitions above. *)
Inductive digit : ascii -> Z -> Prop :=
| digit_0 : digit "0" 0
| digit_1 : digit "1" 1
| digit_2 : digit "2" 2
| digit_3 : digit "3" 3
| digit_4 : digit "4" 4
| digit_5 : digit "5" 5
| digit_6 : digit "6" 6
| digit_7 : digit "7" 7
| digit_8 : digit "8" 8
| digit_9 : digit "9" 9.

(** The number a run of digits writes: its last digit counts units,
    the digits before it count tens of what they write. *)
Inductive numeral : string -> Z -> Prop :=
| numeral_one (c : ascii) (d : Z) :
    digit c d -> numeral (String c EmptyString) d
| numeral_more (s : string) (n : Z) (c : ascii) (d : Z) :
    numeral s n -> digit c d ->
    numeral (s +:+ String c EmptyString) (10 * n + d).

(** The seconds of a unit: 1, 60, 3600 and 86400 for [s], [m], [h]
    and [d]. *)
Inductive unit_of : ascii -> Z -> Prop :=
| unit_s : unit_of "s" 1
| unit_m : unit_of "m" 60
| unit_h : unit_of "h" 3600
| unit_d : unit_of "d" 86400.

Inductive period_form : string -> Z -> Z -> Prop :=
| period_form_intro (digits : string) (n : Z) (u : ascii) (k : Z) :
    numeral digits n -> unit_of u k ->
    period_form (digits +:+ String u EmptyString) n k.

End Period.

(** ** JavaScript values, as [express.json()] hands them to a handler *)

Module Js.

Inductive jsval : Type :=
| JUndefined
| JNull
| JBool (b : bool)
| JNum (n : num)
| JStr (s : string)
| JArr (items : list jsval)
| JObj (props : list (string * jsval)).

(** [typeof x === "number"]. *)
Definition is_number (x : jsval) : bool :=
  match x with JNum _ => true | _ => false end.

(** [typeof x === "object"]. *)
Definition is_object (x : jsval) : bool :=
  match x with JNull | JArr _ | JObj _ => true | _ => false end.

Definition truthy (x : jsval) : bool :=
  match x with
  | JUndefined | JNull => false
  | JBool b => b
  | JNum n => JsNum.truthy n
  | JStr s => negb (String.eqb s EmptyString)
  | JArr _ | JObj _ => true
  end.

(** [typeof x === "number" && isFinite(x)]: the number, when it is one. *)
Definition finite_number (x : jsval) : option num :=
  match x with
  | JNum n => if isFinite n then Some n else None
  | _ => None
  end.

Fixpoint assoc (key : string) (props : list (string * jsval)) : jsval :=
  match props with
  | [] => JUndefined
  | (k, x) :: rest => if String.eqb k key then x else assoc key rest
  end.

(** [x[key]] for a name [key] that is no array index and no member of
    a prototype. *)
Definition get (x : jsval) (key : string) : jsval :=
  match x with
  | JObj props => assoc key props
  | _ => JUndefined
  end.

(** [s || null] for a string, as an option. *)
Definition nonempty (s : string) : option string :=
  if String.eqb s EmptyString then None else Some s.

(** Truthiness of a header or query value ([undefined] or a string). *)
Definition present (h : option string) : option string :=
  match h with Some s => nonempty s | None => None end.

(** The property names an object created by [{}] inherits from
    [Object.prototype]. *)
Definition inherited_names : list string :=
  ["constructor"; "__defineGetter__"; "__defineSetter__"; "hasOwnProperty";
   "__lookupGetter__"; "__lookupSetter__"; "isPrototypeOf";
   "propertyIsEnumerable"; "toString"; "valueOf"; "__proto__";
   "toLocaleString"].

Definition inherited (key : string) : bool :=
  existsb (String.eqb key) inherited_names.

(** What [obj[key]] finds in an object created by [{}] whose own
    properties are the entries of a map: the entry of that name, an
    inherited member (a built-in function, or under [__proto__] the
    prototype itself; each of them truthy), or [undefined].  An own
    property hides an inherited function; [__proto__] always answers
    with the prototype. *)
Inductive slot (A : Type) : Type :=
| Own (a : A)
| Inherited
| Missing.

Arguments Own {A} a.
Arguments Inherited {A}.
Arguments Missing {A}.

Definition lookup {A : Type} (m : gmap string A) (key : string) : slot A :=
  if String.eqb key "__proto__" then Inherited
  else
    match m !! key with
    | Some a => Own a
    | None => if inherited key then Inherited else Missing
    end.

End Js.
Export Js.

(** ** What the server takes from its platform

    Node's SHA-1 digest and the conversions between strings and numbers
    are used as given. *)

Class Platform : Type := {
  (** [crypto.createHash("sha1").update(s).digest("hex")] *)
  sha1_hex : string -> string;
  (** [String(n)], as a template literal or a property key renders a number *)
  number_to_string : num -> string;
  (** [Number(s)] *)
  string_to_number : string -> num;
  (** [s.trim()] *)
  trim : string -> string
}.

(** [s.slice(0, n)]. *)
Definition slice0 (n : nat) (s : string) : string := String.substring 0 n s.

(** ** The current server (Index.js, lines 526-1394) *)

Module Server.

(** *** Process configuration *)

Record config : Type := {
  env_API_KEY : option string;
  env_CLIENT_KEY : option string;
  USE_DB : bool
}.

(** [process.env.X || fallback]. *)
Definition or_default (e : option string) (fallback : string) : string :=
  match present e with Some s => s | None => fallback end.

Definition CLIENT_KEY_PLACEHOLDER : string := "replace-this-client-key".
Definition API_KEY (cfg : config) : string :=
  or_default (env_API_KEY cfg) "replace-this-api-key".
Definition CLIENT_KEY (cfg : config) : string :=
  or_default (env_CLIENT_KEY cfg) CLIENT_KEY_PLACEHOLDER.

Definition RETENTION : Z := 86400 * 30.

(** *** Stored data *)

Record sample : Type := Sample { s_t : num; s_v : num }.

(** A backpack entry of the in-memory store: [cap] is a number or
    [null], [pct] a number when present. *)
Record bp_entry : Type := BpEntry {
  e_t : num; e_v : num; e_cap : option num; e_pct : option num
}.

(** A backpack point of a response: [{ t, v, pct }]. *)
Record bp_point : Type := BpPoint { p_t : num; p_v : num; p_pct : num }.

Inductive nectar_type : Type :=
| Comforting | Motivating | Satisfying | Refreshing | Invigorating.

#[global] Instance nectar_type_eq_dec : EqDecision nectar_type.
Proof. solve_decision. Defined.

Definition NECTAR_TYPES : list nectar_type :=
  [Comforting; Motivating; Satisfying; Refreshing; Invigorating].

Definition type_name (ty : nectar_type) : string :=
  match ty with
  | Comforting => "Comforting"
  | Motivating => "Motivating"
  | Satisfying => "Satisfying"
  | Refreshing => "Refreshing"
  | Invigorating => "Invigorating"
  end.

Definition type_slug (ty : nectar_type) : string :=
  match ty with
  | Comforting => "comforting"
  | Motivating => "motivating"
  | Satisfying => "satisfying"
  | Refreshing => "refreshing"
  | Invigorating => "invigorating"
  end.

(** An object with one array per nectar type, as
    [createEmptyNectarBucket] builds it. *)
Record nectar_series : Type := {
  of_Comforting : list sample;
  of_Motivating : list sample;
  of_Satisfying : list sample;
  of_Refreshing : list sample;
  of_Invigorating : list sample
}.

Definition nectar_get (ty : nectar_type) (n : nectar_series) : list sample :=
  match ty with
  | Comforting => of_Comforting n
  | Motivating => of_Motivating n
  | Satisfying => of_Satisfying n
  | Refreshing => of_Refreshing n
  | Invigorating => of_Invigorating n
  end.

Definition nectar_set (ty : nectar_type) (l : list sample) (n : nectar_series)
  : nectar_series :=
  match ty with
  | Comforting =>
      {| of_Comforting := l; of_Motivating := of_Motivating n;
         of_Satisfying := of_Satisfying n; of_Refreshing := of_Refreshing n;
         of_Invigorating := of_Invigorating n |}
  | Motivating =>
      {| of_Comforting := of_Comforting n; of_Motivating := l;
         of_Satisfying := of_Satisfying n; of_Refreshing := of_Refreshing n;
         of_Invigorating := of_Invigorating n |}
  | Satisfying =>
      {| of_Comforting := of_Comforting n; of_Motivating := of_Motivating n;
         of_Satisfying := l; of_Refreshing := of_Refreshing n;
         of_Invigorating := of_Invigorating n |}
  | Refreshing =>
      {| of_Comforting := of_Comforting n; of_Motivating := of_Motivating n;
         of_Satisfying := of_Satisfying n; of_Refreshing := l;
         of_Invigorating := of_Invigorating n |}
  | Invigorating =>
      {| of_Comforting := of_Comforting n; of_Motivating := of_Motivating n;
         of_Satisfying := of_Satisfying n; of_Refreshing := of_Refreshing n;
         of_Invigorating := l |}
  end.

(** [NECTAR_TYPES.forEach((type) => { n[type] = f(type, n[type]) })]. *)
Definition nectar_each (f : nectar_type -> list sample -> list sample)
    (n : nectar_series) : nectar_series :=
  fold_left (fun acc ty => nectar_set ty (f ty (nectar_get ty acc)) acc)
    NECTAR_TYPES n.

Definition createEmptyNectarBucket : nectar_series :=
  {| of_Comforting := []; of_Motivating := []; of_Satisfying := [];
     of_Refreshing := []; of_Invigorating := [] |}.

Record bucket : Type := {
  honey : list sample;
  pollen : list sample;
  backpack : list bp_entry;
  nectar : nectar_series;
  currentHoney : num;
  lastCapacity : num;
  username : option string;
  publicId : string;
  lastSeen : num
}.

Record session : Type := {
  playerId : num;
  session_username : string;
  session_lastSeen : num;
  session_currentHoney : num;
  session_publicId : option string
}.

(** The process-wide stores the modelled endpoints touch: [samples],
    [memorySessions], [publicIdToUserKey] and [controlCommands]. *)
Record state : Type := {
  samples : gmap string bucket;
  memorySessions : gmap string (gmap string session);
  publicIdToUserKey : gmap string (string * option string);
  controlCommands : gmap string (list jsval)
}.

Definition initial : state :=
  {| samples := ∅; memorySessions := ∅; publicIdToUserKey := ∅;
     controlCommands := ∅ |}.

Definition with_samples (m : gmap string bucket) (st : state) : state :=
  {| samples := m; memorySessions := memorySessions st;
     publicIdToUserKey := publicIdToUserKey st;
     controlCommands := controlCommands st |}.

Definition with_sessions (m : gmap string (gmap string session)) (st : state)
  : state :=
  {| samples := samples st; memorySessions := m;
     publicIdToUserKey := publicIdToUserKey st;
     controlCommands := controlCommands st |}.

Definition with_publicIds (m : gmap string (string * option string))
    (st : state) : state :=
  {| samples := samples st; memorySessions := memorySessions st;
     publicIdToUserKey := m; controlCommands := controlCommands st |}.

Definition with_commands (m : gmap string (list jsval)) (st : state) : state :=
  {| samples := samples st; memorySessions := memorySessions st;
     publicIdToUserKey := publicIdToUserKey st; controlCommands := m |}.

(** *** Responses *)

Record stats : Type := {
  stats_honey : list sample;
  stats_pollen : list sample;
  stats_backpack : list bp_point;
  stats_nectar : nectar_series;
  stats_currentHoney : num;
  player_username : string;
  player_id : string
}.

(** [ErrorPage] is the page of Express's default error handler, and
    [EmptyBody] the object [{}]. *)
Inductive body : Type :=
| ErrorBody (error : string)
| IngestOk (mode : string)
| StatsBody (data : stats)
| QueuedOk (queued : nat)
| CommandsBody (commands : list jsval)
| EmptyBody
| ErrorPage.

Record response : Type := { status : Z; payload : body }.

(** [res.json(b)] and [res.status(code).json({ error })]. *)
Definition json (b : body) : response := {| status := 200; payload := b |}.
Definition fail (code : Z) (error : string) : response :=
  {| status := code; payload := ErrorBody error |}.

(** What Express answers when a handler throws before its first
    [await]: status 500 with the page of its default error handler. *)
Definition error_page : response := {| status := 500; payload := ErrorPage |}.

(** How serving a request ends.
    - [Sent a]: the handler ran to its end; [a] holds what it sent and
      the stores it left.
    - [Thrown answer]: a [TypeError] on an inherited member that a
      store handed out for an entry.  [answer] is what the client
      gets: [error_page] when the exception leaves the handler itself,
      nothing when it rejects a promise that nobody awaits.  By then
      properties have been set on a built-in object; the stores
      afterwards are outside the model.
    - [Astray]: the request went on with an inherited member in
      place of an entry, or an assignment to [__proto__] gave a store
      another prototype; the model does not follow it. *)
Inductive fate (A : Type) : Type :=
| Sent (a : A)
| Thrown (answer : option response)
| Astray.

Arguments Sent {A} a.
Arguments Thrown {A} answer.
Arguments Astray {A}.

(** *** Authorisation middleware *)

Record headers : Type := {
  x_user_key : option string;
  x_api_key : option string;
  x_client_key : option string
}.

Inductive admission : Type :=
| Reject (r : response)
| Next (userKey : string).

(** [key !== expected] is false. *)
Definition header_is (key : option string) (expected : string) : bool :=
  match key with Some k => String.eqb k expected | None => false end.

Definition requireReadKey (cfg : config) (h : headers) : admission :=
  match present (x_user_key h) with
  | None => Reject (fail 400 "x-user-key required")
  | Some userKey =>
      if String.eqb (CLIENT_KEY cfg) EmptyString
         || String.eqb (CLIENT_KEY cfg) CLIENT_KEY_PLACEHOLDER
      then Next userKey
      else if header_is (x_client_key h) (CLIENT_KEY cfg)
           then Next userKey
           else Reject (fail 401 "unauthorized")
  end.

Definition requireWriteKey (cfg : config) (h : headers) : admission :=
  match present (x_user_key h) with
  | None => Reject (fail 400 "x-user-key required")
  | Some userKey =>
      if header_is (x_api_key h) (API_KEY cfg)
      then Next userKey
      else Reject (fail 401 "unauthorized")
  end.

(** *** Helpers *)

Definition clampPercent (value : num) : num :=
  if negb (isFinite value) then of_Z 0
  else JsNum.max (of_Z 0) (JsNum.min (of_Z 100) value).

(** [p.t >= cutoff], the test of every retention and window filter. *)
Definition since (cutoff : num) (p : sample) : bool := geb (s_t p) cutoff.
Definition entry_since (cutoff : num) (e : bp_entry) : bool :=
  geb (e_t e) cutoff.

Definition shapeBackpackEntries (entries : list bp_entry) : list bp_point :=
  map (fun entry =>
         let pct :=
           match e_pct entry with
           | Some pct => clampPercent pct
           | None =>
               match e_cap entry with
               | Some cap =>
                   if JsNum.truthy cap && gtb cap (of_Z 0)
                   then clampPercent (mul (div (e_v entry) cap) (of_Z 100))
                   else of_Z 0
               | None => of_Z 0
               end
           end in
         BpPoint (e_t entry) (e_v entry) pct)
      entries.

(** [capacityByTime.get(t)] once every capacity row has been [set]:
    the value of the last row with that time. *)
Definition capacity_at (t : num) (capacityEntries : list sample) : option num :=
  fold_left (fun found entry =>
               if same (s_t entry) t then Some (s_v entry) else found)
    capacityEntries None.

(** The [map] callback of [mergeBackpackSeries], threading [lastCap]. *)
Fixpoint merge_from (lastCap : num) (capacityEntries backpackEntries : list sample)
  : list bp_point :=
  match backpackEntries with
  | [] => []
  | entry :: rest =>
      let cap :=
        match capacity_at (s_t entry) capacityEntries with
        | Some c => c
        | None => lastCap
        end in
      let usable := JsNum.truthy cap && gtb cap (of_Z 0) in
      let lastCap' := if usable then cap else lastCap in
      let pct :=
        if usable then clampPercent (mul (div (s_v entry) cap) (of_Z 100))
        else of_Z 0 in
      BpPoint (s_t entry) (s_v entry) pct
        :: merge_from lastCap' capacityEntries rest
  end.

Definition mergeBackpackSeries (backpackEntries capacityEntries : list sample)
  : list bp_point :=
  merge_from (of_Z 0) capacityEntries backpackEntries.

(** The destructured body of [POST /api/ingest]; a field the body
    lacks is [JUndefined]. *)
Record ingest_body : Type := {
  body_honey : jsval;
  body_pollen : jsval;
  body_backpack : jsval;
  body_backpackCapacity : jsval;
  body_nectar : jsval;
  body_at : jsval;
  body_currentHoney : jsval;
  body_username : jsval;
  body_playerId : jsval
}.

Definition hasNectar (b : ingest_body) : bool :=
  Js.truthy (body_nectar b) && is_object (body_nectar b)
  && existsb (fun ty =>
                match finite_number (get (body_nectar b) (type_name ty)) with
                | Some _ => true
                | None => false
                end)
       NECTAR_TYPES.

(** The guard of the 400 answer: no field among honey, pollen,
    backpack and currentHoney is of type number and [hasNectar] is
    false. *)
Definition no_metrics (b : ingest_body) : bool :=
  negb (is_number (body_honey b))
  && negb (is_number (body_pollen b))
  && negb (is_number (body_backpack b))
  && negb (is_number (body_currentHoney b))
  && negb (hasNectar b).

(** [typeof at === "number" ? Math.floor(at) : nowSec()]. *)
Definition event_time (now : Z) (b : ingest_body) : num :=
  match body_at b with
  | JNum n => floor n
  | _ => of_Z now
  end.

Definition push_finite (t : num) (x : jsval) (l : list sample) : list sample :=
  match finite_number x with
  | Some value => l ++ [Sample t value]
  | None => l
  end.

Section WithPlatform.

Context `{Platform}.

Definition sanitizeUsername (name : jsval) : option string :=
  match name with
  | JStr s => nonempty (slice0 32 (trim s))
  | _ => None
  end.

Definition normalizePlayerId (value : jsval) : option num :=
  match value with
  | JNum n =>
      if isFinite n then Some (JsNum.max (of_Z 0) (floor n)) else None
  | JStr s =>
      if String.eqb (trim s) EmptyString then None
      else
        let parsed := string_to_number (trim s) in
        if isFinite parsed then Some (JsNum.max (of_Z 0) (floor parsed))
        else None
  | _ => None
  end.

Definition getPublicId (userKey : string) : string :=
  slice0 12 (sha1_hex userKey).

Definition getSessionPublicId (userKey : string) (playerId : num)
  : option string :=
  if String.eqb userKey EmptyString || negb (JsNum.truthy playerId) then None
  else Some (slice0 16
               (sha1_hex (userKey +:+ ":" +:+ number_to_string playerId))).

(** [cachePublicMapping(publicId, userKey, username)].  Every public
    id the server passes is a slice of a hex digest, a column it filled
    with one, or a name [publicIdToUserKey] was just found not to
    have, so the assignment makes or replaces an own property. *)
Definition cachePublicMapping (publicId : option string) (userKey : string)
    (username : option string) (st : state) : state :=
  match present publicId, nonempty userKey with
  | Some pid, Some _ =>
      with_publicIds
        (<[pid := (userKey, present username)]> (publicIdToUserKey st)) st
  | _, _ => st
  end.

(** [recordMemorySession]: under a name [memorySessions] inherits the
    session is set on the built-in value found there and is never
    listed again; only the cache changes.  ([getBucket] hands out no
    bucket under [__proto__], so [writeMemory] does not get here with
    it.) *)
Definition recordMemorySession (userKey : string) (playerId : num)
    (username : string) (lastSeen currentHoney : num) (st : state) : state :=
  if String.eqb userKey EmptyString || negb (JsNum.truthy playerId) then st
  else
    let publicId := getSessionPublicId userKey playerId in
    let entry :=
      {| playerId := playerId;
         session_username := default "Player" (nonempty username);
         session_lastSeen := lastSeen;
         session_currentHoney := or_zero currentHoney;
         session_publicId := publicId |} in
    let recorded mine :=
      with_sessions
        (<[userKey := <[number_to_string playerId := entry]> mine]>
           (memorySessions st)) st in
    let st :=
      match lookup (memorySessions st) userKey with
      | Own mine => recorded mine
      | Missing => recorded ∅
      | Inherited => st
      end in
    cachePublicMapping publicId userKey (Some username) st.

Definition new_bucket (userKey : string) : bucket :=
  {| honey := []; pollen := []; backpack := [];
     nectar := createEmptyNectarBucket;
     currentHoney := of_Z 0; lastCapacity := of_Z 0;
     username := None; publicId := getPublicId userKey;
     lastSeen := of_Z 0 |}.

Definition with_publicId (pid : string) (b : bucket) : bucket :=
  {| honey := honey b; pollen := pollen b; backpack := backpack b;
     nectar := nectar b; currentHoney := currentHoney b;
     lastCapacity := lastCapacity b; username := username b;
     publicId := pid; lastSeen := lastSeen b |}.

(** What [getBucket(userKey)] does when [samples[userKey]] is the
    user's own bucket or [undefined]: the bucket, created when the key
    is new, and the stores after the call.  A bucket always carries
    its [nectar] object, so that repair has nothing to do. *)
Definition own_bucket (userKey : string) (st : state) : bucket * state :=
  let b := default (new_bucket userKey) (samples st !! userKey) in
  let b :=
    if String.eqb (publicId b) EmptyString
    then with_publicId (getPublicId userKey) b else b in
  let st := with_samples (<[userKey := b]> (samples st)) st in
  (b, cachePublicMapping (Some (publicId b)) userKey (username b) st).

(** [getBucket(userKey)]: [None] when [samples[userKey]] is an
    inherited member.  That value is truthy, so no bucket is made;
    [nectar] and [publicId] are set on it and it is handed out in
    place of a bucket, without [honey], [pollen] and [backpack]. *)
Definition getBucket (userKey : string) (st : state)
  : option (bucket * state) :=
  match lookup (samples st) userKey with
  | Inherited => None
  | Own _ | Missing => Some (own_bucket userKey st)
  end.

(** What [collectMemoryStats(userKey, cutoff)] does with a bucket of
    the user's own. *)
Definition read_own (userKey : string) (cutoff : num) (st : state)
  : stats * state :=
  let '(bucket, st) := own_bucket userKey st in
  let st := cachePublicMapping (Some (publicId bucket)) userKey
              (username bucket) st in
  ({| stats_honey := List.filter (since cutoff) (honey bucket);
      stats_pollen := List.filter (since cutoff) (pollen bucket);
      stats_backpack :=
        shapeBackpackEntries
          (List.filter (entry_since cutoff) (backpack bucket));
      stats_nectar :=
        nectar_each (fun ty _ =>
                       List.filter (since cutoff) (nectar_get ty (nectar bucket)))
          createEmptyNectarBucket;
      stats_currentHoney := or_zero (currentHoney bucket);
      player_username := default "Player" (present (username bucket));
      player_id := publicId bucket |},
   st).

(** [collectMemoryStats(userKey, cutoff)]: [None] when it throws, on
    [bucket.honey.filter] of the inherited member [getBucket] handed
    out. *)
Definition collectMemoryStats (userKey : string) (cutoff : num) (st : state)
  : option (stats * state) :=
  match getBucket userKey st with
  | Some _ => Some (read_own userKey cutoff st)
  | None => None
  end.

(** The entry [writeMemory] pushes for a finite [backpack], with the
    capacity the bucket should remember afterwards. *)
Definition backpack_entry (t backpack : num) (backpackCapacity : jsval)
    (bucket_lastCapacity : num) : bp_entry * num :=
  let capValue := or_zero bucket_lastCapacity in
  let '(capValue, lastCapacity') :=
    match finite_number backpackCapacity with
    | Some c => (c, c)
    | None => (capValue, bucket_lastCapacity)
    end in
  let entry :=
    if gtb capValue (of_Z 0)
    then BpEntry t backpack (Some capValue)
           (Some (clampPercent (mul (div backpack capValue) (of_Z 100))))
    else BpEntry t backpack None (Some (of_Z 0)) in
  (entry, lastCapacity').

(** The bucket as [writeMemory] leaves it: the assignments to its
    fields, in the order of the source, for the body [b] with event
    time [t] at clock reading [now]. *)
Definition written_bucket (now : Z) (b : ingest_body)
    (bucket : Server.bucket) : Server.bucket :=
  let t := event_time now b in
  let cleanedName := sanitizeUsername (body_username b) in
  let username' :=
    match cleanedName with Some n => Some n | None => username bucket end in
  let honey' := push_finite t (body_honey b) (honey bucket) in
  let pollen' := push_finite t (body_pollen b) (pollen bucket) in
  let '(backpack', lastCapacity') :=
    match finite_number (body_backpack b) with
    | Some x =>
        let '(entry, cap) :=
          backpack_entry t x (body_backpackCapacity b) (lastCapacity bucket) in
        (backpack bucket ++ [entry], cap)
    | None => (backpack bucket, lastCapacity bucket)
    end in
  let lastCapacity' :=
    match finite_number (body_backpackCapacity b) with
    | Some c => c
    | None => lastCapacity'
    end in
  let currentHoney' :=
    match body_currentHoney b with
    | JNum n => n
    | _ => currentHoney bucket
    end in
  let nectar' :=
    if hasNectar b
    then nectar_each
           (fun ty l => push_finite t (get (body_nectar b) (type_name ty)) l)
           (nectar bucket)
    else nectar bucket in
  let cutoff := of_Z (now - RETENTION) in
  {| honey := List.filter (since cutoff) honey';
     pollen := List.filter (since cutoff) pollen';
     backpack := List.filter (entry_since cutoff) backpack';
     nectar := nectar_each (fun _ l => List.filter (since cutoff) l) nectar';
     currentHoney := currentHoney';
     lastCapacity := lastCapacity';
     username := username';
     publicId := publicId bucket;
     lastSeen := t |}.

(** What [writeMemory()] of [POST /api/ingest] does with a bucket of
    the user's own, for the request of [userKey] with body [b] at clock
    reading [now]. *)
Definition write_own (now : Z) (userKey : string) (b : ingest_body)
    (st : state) : state :=
  let t := event_time now b in
  let cleanedName := sanitizeUsername (body_username b) in
  let numericPlayerId := normalizePlayerId (body_playerId b) in
  let '(bucket, st) := own_bucket userKey st in
  let bucket' := written_bucket now b bucket in
  let st := cachePublicMapping (Some (publicId bucket)) userKey
              (username bucket') st in
  let sessionHoney :=
    match body_currentHoney b with
    | JNum n => n
    | _ => or_zero (currentHoney bucket')
    end in
  let st := with_samples (<[userKey := bucket']> (samples st)) st in
  match numericPlayerId with
  | Some pid =>
      if JsNum.truthy pid
      then recordMemorySession userKey pid
             (default "Player"
                (match present (username bucket') with
                 | Some n => Some n
                 | None => cleanedName
                 end))
             t sessionHoney st
      else st
  | None => st
  end.

(** [writeMemory()]: [None] when it throws.  On the inherited member
    [getBucket] hands out, the first [push] onto [honey], [pollen] or
    [backpack] throws, and with none of them in the body the pruning
    [bucket.honey.filter] does, before any session is recorded. *)
Definition writeMemory (now : Z) (userKey : string) (b : ingest_body)
    (st : state) : option state :=
  match getBucket userKey st with
  | Some _ => Some (write_own now userKey b st)
  | None => None
  end.

End WithPlatform.

(** *** The durable store

    The tables of [initDb] as lists of rows, oldest first, holding the
    values as the driver hands them to JavaScript.  Keys are compared
    exactly; the coercions of the column types are outside the model. *)

Record user_row : Type := {
  user_key : string;
  public_id : option string;
  current_honey : num;
  last_activity : num;
  user_username : option string
}.

Record sample_row : Type := {
  row_user : string; row_metric : string; row_t : num; row_v : num
}.

Record session_row : Type := {
  session_public_id : string;
  session_user : string;
  session_player_id : num;
  row_username : option string;
  last_seen : num;
  row_current_honey : option num
}.

Record database : Type := {
  users : list user_row;
  samples_table : list sample_row;
  player_sessions : list session_row
}.

Definition empty_database : database :=
  {| users := []; samples_table := []; player_sessions := [] |}.

(** The statements the handlers send, with their parameters. *)
Inductive stmt : Type :=
| InsertUser (userKey publicId : string)
| InsertSamples (rows : list sample_row)
| UpdateUser (currentHoney : option num) (t : num) (username : option string)
    (userKey : string)
| UpsertSession (publicId userKey : string) (playerId : num)
    (username : option string) (lastSeen : num) (currentHoney : option num)
| SelectSamples (userKey : string) (cutoff : num)
| SelectUser (userKey : string).

Definition coalesce {A : Type} (x y : option A) : option A :=
  match x with Some _ => x | None => y end.

Definition has_user (userKey : string) (d : database) : bool :=
  existsb (fun u => String.eqb (user_key u) userKey) (users d).

Definition same_session (publicId userKey : string) (playerId : num)
    (r : session_row) : bool :=
  String.eqb (session_public_id r) publicId
  || (String.eqb (session_user r) userKey && same (session_player_id r) playerId).

(** The effect of a statement that does not raise. *)
Definition run (s : stmt) (d : database) : database :=
  match s with
  | InsertUser userKey publicId =>
      {| users :=
           if has_user userKey d
           then map (fun u =>
                       if String.eqb (user_key u) userKey
                       then {| user_key := user_key u;
                               public_id := coalesce (public_id u) (Some publicId);
                               current_honey := current_honey u;
                               last_activity := last_activity u;
                               user_username := user_username u |}
                       else u) (users d)
           else users d ++
                [{| user_key := userKey; public_id := Some publicId;
                    current_honey := of_Z 0; last_activity := of_Z 0;
                    user_username := None |}];
         samples_table := samples_table d;
         player_sessions := player_sessions d |}
  | InsertSamples rows =>
      {| users := users d;
         samples_table := samples_table d ++ rows;
         player_sessions := player_sessions d |}
  | UpdateUser currentHoney t username userKey =>
      {| users :=
           map (fun u =>
                  if String.eqb (user_key u) userKey
                  then {| user_key := user_key u;
                          public_id := public_id u;
                          current_honey := default (current_honey u) currentHoney;
                          last_activity := t;
                          user_username := coalesce username (user_username u) |}
                  else u) (users d);
         samples_table := samples_table d;
         player_sessions := player_sessions d |}
  | UpsertSession publicId userKey playerId username lastSeen currentHoney =>
      {| users := users d;
         samples_table := samples_table d;
         player_sessions :=
           if existsb (same_session publicId userKey playerId) (player_sessions d)
           then map (fun r =>
                       if same_session publicId userKey playerId r
                       then {| session_public_id := session_public_id r;
                               session_user := session_user r;
                               session_player_id := session_player_id r;
                               row_username := coalesce username (row_username r);
                               last_seen := lastSeen;
                               row_current_honey :=
                                 coalesce currentHoney (row_current_honey r) |}
                       else r) (player_sessions d)
           else player_sessions d ++
                [{| session_public_id := publicId; session_user := userKey;
                    session_player_id := playerId; row_username := username;
                    last_seen := lastSeen; row_current_honey := currentHoney |}] |}
  | SelectSamples _ _ | SelectUser _ => d
  end.

(** [ORDER BY t ASC], keeping rows of equal time in table order. *)
Fixpoint insert_by_t (r : sample_row) (sorted : list sample_row)
  : list sample_row :=
  match sorted with
  | [] => [r]
  | r' :: rest =>
      if ltb (row_t r) (row_t r') then r :: sorted
      else r' :: insert_by_t r rest
  end.

Definition order_by_t (rows : list sample_row) : list sample_row :=
  fold_left (fun sorted r => insert_by_t r sorted) rows [].

(** [SELECT metric, t, v FROM samples WHERE user_key = ? AND t >= ?
    ORDER BY t ASC]. *)
Definition select_samples (userKey : string) (cutoff : num) (d : database)
  : list sample_row :=
  order_by_t
    (List.filter (fun r => String.eqb (row_user r) userKey
                           && geb (row_t r) cutoff)
       (samples_table d)).

(** [SELECT current_honey, username, public_id FROM users WHERE
    user_key = ? LIMIT 1]. *)
Definition select_user (userKey : string) (d : database) : option user_row :=
  List.find (fun u => String.eqb (user_key u) userKey) (users d).

Definition nectarMetricForType (ty : nectar_type) : string :=
  "nectar_" +:+ type_slug ty.

Definition nectarTypeFromMetric (metric : string) : option nectar_type :=
  if String.eqb metric EmptyString || negb (String.prefix "nectar_" metric)
  then None
  else
    let slug := String.substring 7 (String.length metric - 7) metric in
    List.find (fun ty => String.eqb (type_slug ty) slug) NECTAR_TYPES.

(** The row loop of [collectDbStats]. *)
Record row_series : Type := {
  rows_honey : list sample;
  rows_pollen : list sample;
  backpackRaw : list sample;
  capacityEntries : list sample;
  rows_nectar : nectar_series
}.

Definition collect_row (acc : row_series) (row : sample_row) : row_series :=
  let p := Sample (row_t row) (row_v row) in
  if String.eqb (row_metric row) "honey" then
    {| rows_honey := rows_honey acc ++ [p]; rows_pollen := rows_pollen acc;
       backpackRaw := backpackRaw acc; capacityEntries := capacityEntries acc;
       rows_nectar := rows_nectar acc |}
  else if String.eqb (row_metric row) "pollen" then
    {| rows_honey := rows_honey acc; rows_pollen := rows_pollen acc ++ [p];
       backpackRaw := backpackRaw acc; capacityEntries := capacityEntries acc;
       rows_nectar := rows_nectar acc |}
  else if String.eqb (row_metric row) "backpack" then
    {| rows_honey := rows_honey acc; rows_pollen := rows_pollen acc;
       backpackRaw := backpackRaw acc ++ [p];
       capacityEntries := capacityEntries acc;
       rows_nectar := rows_nectar acc |}
  else if String.eqb (row_metric row) "backpack_capacity" then
    {| rows_honey := rows_honey acc; rows_pollen := rows_pollen acc;
       backpackRaw := backpackRaw acc;
       capacityEntries := capacityEntries acc ++ [p];
       rows_nectar := rows_nectar acc |}
  else
    match nectarTypeFromMetric (row_metric row) with
    | Some ty =>
        {| rows_honey := rows_honey acc; rows_pollen := rows_pollen acc;
           backpackRaw := backpackRaw acc;
           capacityEntries := capacityEntries acc;
           rows_nectar :=
             nectar_set ty (nectar_get ty (rows_nectar acc) ++ [p])
               (rows_nectar acc) |}
    | None => acc
    end.

Definition collect_rows (rows : list sample_row) : row_series :=
  fold_left collect_row rows
    {| rows_honey := []; rows_pollen := []; backpackRaw := [];
       capacityEntries := []; rows_nectar := createEmptyNectarBucket |}.

Record overrides : Type := {
  override_username : option string;
  override_publicId : option string
}.

Definition with_player (username id : string) (data : stats) : stats :=
  {| stats_honey := stats_honey data; stats_pollen := stats_pollen data;
     stats_backpack := stats_backpack data; stats_nectar := stats_nectar data;
     stats_currentHoney := stats_currentHoney data;
     player_username := username; player_id := id |}.

Definition apply_overrides (o : option overrides) (data : stats) : stats :=
  match o with
  | None => data
  | Some o =>
      with_player
        (default (player_username data) (present (override_username o)))
        (default (player_id data) (present (override_publicId o)))
        data
  end.

Section Handlers.

Context `{Platform}.

(** Which statements raise while the request is served. *)
Variable raises : stmt -> bool.

(** [collectDbStats(userKey, cutoff)]; [None] when a query raised. *)
Definition collectDbStats (userKey : string) (cutoff : num) (st : state)
    (d : database) : option stats * state :=
  if raises (SelectSamples userKey cutoff) then (None, st)
  else
    let rows := collect_rows (select_samples userKey cutoff d) in
    let backpack := mergeBackpackSeries (backpackRaw rows) (capacityEntries rows) in
    if raises (SelectUser userKey) then (None, st)
    else
      let info := select_user userKey d in
      let info_username := info ≫= user_username in
      let resolvedPublicId :=
        default (getPublicId userKey) (present (info ≫= public_id)) in
      let st := cachePublicMapping (Some resolvedPublicId) userKey
                  info_username st in
      (Some {| stats_honey := rows_honey rows;
               stats_pollen := rows_pollen rows;
               stats_backpack := backpack;
               stats_nectar := rows_nectar rows;
               stats_currentHoney :=
                 match info with
                 | Some u => or_zero (current_honey u)
                 | None => of_Z 0
                 end;
               player_username := default "Player" (present info_username);
               player_id := resolvedPublicId |},
       st).

(** The answer from memory; an exception of [collectMemoryStats]
    rejects the promise of [sendStatsResponse], which no caller awaits
    or catches: nothing is sent. *)
Definition answer_from_memory (userKey : string) (cutoff : num)
    (o : option overrides) (st : state) : fate (response * state) :=
  match collectMemoryStats userKey cutoff st with
  | Some (data, st) => Sent (json (StatsBody (apply_overrides o data)), st)
  | None => Thrown None
  end.

Definition sendStatsResponse (cfg : config) (now : Z) (userKey : string)
    (periodSec : Z) (o : option overrides) (st : state) (d : database)
  : fate (response * state) :=
  let cutoff := of_Z (now - periodSec) in
  if negb (USE_DB cfg) then answer_from_memory userKey cutoff o st
  else
    match collectDbStats userKey cutoff st d with
    | (Some data, st) => Sent (json (StatsBody (apply_overrides o data)), st)
    | (None, st) => answer_from_memory userKey cutoff o st
    end.

(** [GET /api/stats?period=]. *)
Definition get_stats (cfg : config) (now : Z) (h : headers)
    (period : option string) (st : state) (d : database)
  : fate (response * state) :=
  match requireReadKey cfg h with
  | Reject r => Sent (r, st)
  | Next userKey =>
      let periodSec :=
        Period.toSeconds (Some (default "24h" (present period))) in
      sendStatsResponse cfg now userKey periodSec None st d
  end.

Definition sample_rows (userKey metric : string) (t : num) (x : jsval)
  : list sample_row :=
  match finite_number x with
  | Some value =>
      [{| row_user := userKey; row_metric := metric; row_t := t;
          row_v := value |}]
  | None => []
  end.

(** The [inserts] array of the durable path. *)
Definition inserts (userKey : string) (t : num) (b : ingest_body)
  : list sample_row :=
  sample_rows userKey "honey" t (body_honey b)
  ++ sample_rows userKey "pollen" t (body_pollen b)
  ++ sample_rows userKey "backpack" t (body_backpack b)
  ++ sample_rows userKey "backpack_capacity" t (body_backpackCapacity b)
  ++ (if hasNectar b
      then flat_map (fun ty =>
                       sample_rows userKey (nectarMetricForType ty) t
                         (get (body_nectar b) (type_name ty)))
             NECTAR_TYPES
      else []).

Definition number_or_null (x : jsval) : option num :=
  match x with JNum n => Some n | _ => None end.

(** [recordDbSession]: its own [catch] swallows a failure. *)
Definition recordDbSession (userKey : string) (playerId : num)
    (username : option string) (lastSeen : num) (currentHoney : option num)
    (st : state) (d : database) : state * database :=
  match getSessionPublicId userKey playerId with
  | None => (st, d)
  | Some publicId =>
      let s := UpsertSession publicId userKey playerId (username ≫= nonempty)
                 lastSeen currentHoney in
      if raises s then (st, d)
      else (cachePublicMapping (Some publicId) userKey username st, run s d)
  end.

(** The [try] block of [POST /api/ingest]: [true] when it reached
    its end, [false] when a statement raised, with the stores as the
    block left them. *)
Definition ingest_durable (now : Z) (userKey : string) (b : ingest_body)
    (st : state) (d : database) : bool * state * database :=
  let t := event_time now b in
  let cleanedName := sanitizeUsername (body_username b) in
  let numericPlayerId := normalizePlayerId (body_playerId b) in
  let ensure := InsertUser userKey (getPublicId userKey) in
  if raises ensure then (false, st, d)
  else
    let d := run ensure d in
    let st := cachePublicMapping (Some (getPublicId userKey)) userKey
                cleanedName st in
    let rows := inserts userKey t b in
    if negb (Nat.eqb (length rows) 0) && raises (InsertSamples rows)
    then (false, st, d)
    else
      let d := if Nat.eqb (length rows) 0 then d
               else run (InsertSamples rows) d in
      let update := UpdateUser (number_or_null (body_currentHoney b)) t
                      cleanedName userKey in
      if raises update then (false, st, d)
      else
        let d := run update d in
        let '(st, d) :=
          match numericPlayerId with
          | Some pid =>
              if JsNum.truthy pid
              then recordDbSession userKey pid cleanedName t
                     (number_or_null (body_currentHoney b)) st d
              else (st, d)
          | None => (st, d)
          end in
        (true, st, d).

(** The handler of [POST /api/ingest], behind [requireWriteKey]: how
    the request ends in the process, and the tables it leaves.  Without
    a database [writeMemory] runs in the handler itself, and Express
    answers its exception; in the [catch] block it runs inside a
    promise, where its exception leaves the request unanswered. *)
Definition ingest (cfg : config) (now : Z) (userKey : string)
    (b : ingest_body) (st : state) (d : database)
  : fate (response * state) * database :=
  if no_metrics b then (Sent (fail 400 "no metrics provided", st), d)
  else if negb (USE_DB cfg)
  then
    match writeMemory now userKey b st with
    | Some st => (Sent (json (IngestOk "memory"), st), d)
    | None => (Thrown (Some error_page), d)
    end
  else
    match ingest_durable now userKey b st d with
    | (true, st, d) => (Sent (json (IngestOk "mysql"), st), d)
    | (false, st, d) =>
        match writeMemory now userKey b st with
        | Some st => (Sent (json (IngestOk "memory-fallback"), st), d)
        | None => (Thrown None, d)
        end
    end.

Definition post_ingest (cfg : config) (now : Z) (h : headers)
    (b : ingest_body) (st : state) (d : database)
  : fate (response * state) * database :=
  match requireWriteKey cfg h with
  | Reject r => (Sent (r, st), d)
  | Next userKey => ingest cfg now userKey b st d
  end.

End Handlers.

(** *** The control mailbox *)

(** The own enumerable properties an object spread copies. *)
Definition own_props (c : jsval) : list (string * jsval) :=
  match c with
  | JObj props => props
  | JArr items => imap (fun i x => (pretty i, x)) items
  | JStr s =>
      imap (fun i ch => (pretty i, JStr (String ch EmptyString)))
        (list_ascii_of_string s)
  | _ => []
  end.

Fixpoint set_prop (key : string) (x : jsval) (props : list (string * jsval))
  : list (string * jsval) :=
  match props with
  | [] => [(key, x)]
  | (k, y) :: rest =>
      if String.eqb k key then (k, x) :: rest
      else (k, y) :: set_prop key x rest
  end.

(** [{ ...c, at: nowSec() }]. *)
Definition stamp (now : Z) (c : jsval) : jsval :=
  JObj (set_prop "at" (JNum (of_Z now)) (own_props c)).

Definition COMMAND_LIMIT : nat := 100.

(** [queue.slice(-100)]. *)
Definition last_commands (queue : list jsval) : list jsval :=
  skipn (length queue - COMMAND_LIMIT) queue.

(** The queue after [push(...stamped)] and the trimming, and the
    answer of the post. *)
Definition queued (now : Z) (userKey : string) (own : list jsval)
    (cmds : list jsval) (st : state) : response * state :=
  let stamped := map (stamp now) cmds in
  let queue := own ++ stamped in
  let queue :=
    if (COMMAND_LIMIT <? length queue)%nat then last_commands queue
    else queue in
  (json (QueuedOk (length queue)),
   with_commands (<[userKey := queue]> (controlCommands st)) st).

(** [POST /api/controls/commands]; [commands] is
    [req.body && req.body.commands].  An inherited member under the
    key is truthy and has no [push]: the handler throws before it has
    changed anything, and Express answers. *)
Definition post_commands (cfg : config) (now : Z) (h : headers)
    (commands : jsval) (st : state) : response * state :=
  match requireReadKey cfg h with
  | Reject r => (r, st)
  | Next userKey =>
      match commands with
      | JArr (c :: cs) =>
          match lookup (controlCommands st) userKey with
          | Own queue => queued now userKey queue (c :: cs) st
          | Missing => queued now userKey [] (c :: cs) st
          | Inherited => (error_page, st)
          end
      | _ => (fail 400 "commands array required", st)
      end
  end.

(** [GET /api/controls/commands].  An inherited function found under
    the key is sent as [commands], which [JSON.stringify] leaves out,
    and the assignment gives the key an own, empty queue; under
    [__proto__] the assignment makes the array the prototype of
    [controlCommands]. *)
Definition get_commands (cfg : config) (h : headers) (st : state)
  : fate (response * state) :=
  match requireWriteKey cfg h with
  | Reject r => Sent (r, st)
  | Next userKey =>
      let emptied :=
        with_commands (<[userKey := []]> (controlCommands st)) st in
      match lookup (controlCommands st) userKey with
      | Own list => Sent (json (CommandsBody list), emptied)
      | Missing => Sent (json (CommandsBody []), emptied)
      | Inherited =>
          if String.eqb userKey "__proto__" then Astray
          else Sent (json EmptyBody, emptied)
      end
  end.

End Server.

(** ** The in-memory write of an earlier version
    (src/unnamed/part_001, lines 142-156 and 223-270) *)

Module Earlier.
Import Server.

(** A bucket of this version: [backpack] holds plain samples, and
    there is no [lastCapacity], [username], [publicId] or [lastSeen]. *)
Record bucket : Type := {
  honey : list sample;
  pollen : list sample;
  backpack : list sample;
  nectar : nectar_series;
  currentHoney : num
}.

Definition new_bucket : bucket :=
  {| honey := []; pollen := []; backpack := [];
     nectar := createEmptyNectarBucket; currentHoney := of_Z 0 |}.

(** [getBucket(userKey)] (lines 142-156); [None] when an inherited
    member is handed out in place of a bucket. *)
Definition getBucket (userKey : string) (samples : gmap string bucket)
  : option (bucket * gmap string bucket) :=
  match lookup samples userKey with
  | Own bucket => Some (bucket, samples)
  | Missing => Some (new_bucket, <[userKey := new_bucket]> samples)
  | Inherited => None
  end.

(** The bucket as [writeMemory] (lines 241-270) leaves it. *)
Definition written_bucket (now : Z) (b : ingest_body) (bucket : Earlier.bucket)
  : Earlier.bucket :=
  let t := event_time now b in
  let honey' := push_finite t (body_honey b) (honey bucket) in
  let pollen' := push_finite t (body_pollen b) (pollen bucket) in
  let backpack' := push_finite t (body_backpack b) (backpack bucket) in
  let currentHoney' :=
    match body_currentHoney b with
    | JNum n => n
    | _ => currentHoney bucket
    end in
  let nectar' :=
    if hasNectar b
    then nectar_each
           (fun ty l => push_finite t (get (body_nectar b) (type_name ty)) l)
           (nectar bucket)
    else nectar bucket in
  let cutoff := of_Z (now - 86400 * 30) in
  {| honey := List.filter (since cutoff) honey';
     pollen := List.filter (since cutoff) pollen';
     backpack := List.filter (since cutoff) backpack';
     nectar := nectar_each (fun _ l => List.filter (since cutoff) l) nectar';
     currentHoney := currentHoney' |}.

(** [writeMemory()]; [None] when it throws, on the first [push] or
    [filter] of a series the inherited member does not have. *)
Definition writeMemory (now : Z) (userKey : string) (b : ingest_body)
    (samples : gmap string bucket) : option (gmap string bucket) :=
  match getBucket userKey samples with
  | Some (bucket, samples) =>
      Some (<[userKey := written_bucket now b bucket]> samples)
  | None => None
  end.

(** [POST /api/ingest] (lines 223-318) behind [requireWriteKey], in a
    process that runs without a database ([USE_DB] is false). *)
Definition ingest_in_memory (now : Z) (userKey : string) (b : ingest_body)
    (samples : gmap string bucket)
  : fate (response * gmap string bucket) :=
  if no_metrics b then Sent (fail 400 "no metrics provided", samples)
  else
    match writeMemory now userKey b samples with
    | Some samples => Sent (json (IngestOk "memory"), samples)
    | None => Thrown (Some error_page)
    end.

End Earlier.

(** ** The version with the leaderboard (Index.js, lines 106-525) *)

Module Ranking.

Record config : Type := {
  env_CLIENT_KEY : option string;
  USE_DB : bool
}.

Definition CLIENT_KEY_DEFAULT : string := "Xjcxjzx3123Zccxvjfdsfd".

Definition CLIENT_KEY (cfg : config) : string :=
  match present (env_CLIENT_KEY cfg) with
  | Some s => s
  | None => CLIENT_KEY_DEFAULT
  end.

(** What the read endpoints look at in a request. *)
Record request : Type := {
  x_user_key : option string;
  x_client_key : option string;
  query_user_key : option string;
  query_limit : option string
}.

Record entry : Type := {
  entry_user_key : string;
  total_honey : num;
  daily_honey : num;
  hourly_rate : num;
  entry_last_activity : num
}.

Inductive body : Type :=
| ErrorBody (error : string)
| LeaderboardBody (leaderboard : list entry).

Record response : Type := { status : Z; payload : body }.

Definition json (b : body) : response := {| status := 200; payload := b |}.
Definition fail (code : Z) (error : string) : response :=
  {| status := code; payload := ErrorBody error |}.

Inductive admission : Type :=
| Reject (r : response)
| Next (userKey : string).

Definition requireReadKey (cfg : config) (req : request) : admission :=
  let userKey :=
    match present (x_user_key req) with
    | Some k => Some k
    | None => query_user_key req
    end in
  match present userKey with
  | None => Reject (fail 400 "x-user-key required")
  | Some userKey =>
      if Server.header_is (x_client_key req) (CLIENT_KEY cfg)
      then Next userKey
      else Reject (fail 401 "unauthorized: invalid x-client-key")
  end.

(** *** [parseInt(s)] with no radix *)

(** The white space and line terminators [parseInt] skips, among the
    code units a [string] can hold: tab to carriage return, the space
    and the no-break space. *)
Definition is_space (c : ascii) : bool :=
  let n := nat_of_ascii c in
  ((n =? 32) || ((9 <=? n) && (n <=? 13)) || (n =? 160))%nat.

Fixpoint skip_spaces (s : string) : string :=
  match s with
  | String c r => if is_space c then skip_spaces r else s
  | EmptyString => s
  end.

Definition digit_in (radix : Z) (c : ascii) : option Z :=
  let n := Z.of_nat (nat_of_ascii c) in
  let d :=
    if (48 <=? n) && (n <=? 57) then Some (n - 48)
    else if (97 <=? n) && (n <=? 122) then Some (n - 87)
    else if (65 <=? n) && (n <=? 90) then Some (n - 55)
    else None in
  match d with
  | Some d => if d <? radix then Some d else None
  | None => None
  end.

(** The value of the longest prefix of digits, if there is a digit. *)
Fixpoint leading_digits (radix : Z) (acc : option Z) (s : string) : option Z :=
  match s with
  | String c r =>
      match digit_in radix c with
      | Some d => leading_digits radix (Some (radix * default 0 acc + d)) r
      | None => acc
      end
  | EmptyString => acc
  end.

Definition parse_unsigned (s : string) : option Z :=
  match s with
  | String "0" (String "x" r) | String "0" (String "X" r) =>
      leading_digits 16 None r
  | _ => leading_digits 10 None s
  end.

(** [parseInt(x)] for a query value; leading white space is the ASCII
    one. *)
Definition parseInt (x : option string) : num :=
  match x with
  | None => NaN
  | Some s =>
      match skip_spaces s with
      | String "-" r =>
          match parse_unsigned r with
          | Some n => of_Z (- n)
          | None => NaN
          end
      | String "+" r =>
          match parse_unsigned r with Some n => of_Z n | None => NaN end
      | r => match parse_unsigned r with Some n => of_Z n | None => NaN end
      end
  end.

(** [Math.min(parseInt(req.query.limit) || 25, 100)]. *)
Definition requested_limit (limit : option string) : num :=
  let parsed := parseInt limit in
  JsNum.min (if JsNum.truthy parsed then parsed else of_Z 25) (of_Z 100).

(** *** Tables and statements *)

Record user_row : Type := {
  user_key : string; last_activity : num; user_total_honey : num
}.

Record sample_row : Type := {
  row_user : string; row_metric : string; row_t : num; row_v : num
}.

Record database : Type := {
  users : list user_row;
  samples_table : list sample_row
}.

Inductive stmt : Type :=
| SelectRanked (cutoffT : num) (limit : num)
| SumDaily (userKey : string) (since : num).

(** [ORDER BY key DESC], rows of equal key in table order. *)
Fixpoint insert_desc {A : Type} (key : A -> num) (r : A) (sorted : list A)
  : list A :=
  match sorted with
  | [] => [r]
  | r' :: rest =>
      if ltb (key r') (key r) then r :: sorted
      else r' :: insert_desc key r rest
  end.

Definition order_desc {A : Type} (key : A -> num) (rows : list A) : list A :=
  fold_left (fun sorted r => insert_desc key r sorted) rows [].

Definition limit_count (limit : num) : nat :=
  match limit with
  | Fin q => Z.to_nat (Qfloor q)
  | _ => 0%nat
  end.

Definition active_since (cutoffT : num) (u : user_row) : bool :=
  gtb (last_activity u) cutoffT.

(** [SELECT user_key, total_honey, last_activity FROM users WHERE
    last_activity > ? ORDER BY total_honey DESC LIMIT ?].  MySQL
    rejects a negative [LIMIT]. *)
Definition select_ranked (cutoffT limit : num) (d : database)
  : option (list user_row) :=
  if ltb limit (of_Z 0) then None
  else Some (firstn (limit_count limit)
               (order_desc user_total_honey
                  (List.filter (active_since cutoffT) (users d)))).

(** [SELECT SUM(v) AS daily_honey FROM samples WHERE user_key = ? AND
    metric = 'honey' AND t >= ?]: [None] is the [NULL] of an empty sum. *)
Definition sum_daily (userKey : string) (since : num) (d : database)
  : option num :=
  match List.filter (fun r => String.eqb (row_user r) userKey
                              && String.eqb (row_metric r) "honey"
                              && geb (row_t r) since)
          (samples_table d) with
  | [] => None
  | r :: rest => Some (fold_left (fun acc r => add acc (row_v r)) rest (row_v r))
  end.

(** [array.sort(cmp)]: the stable sort; an element goes in front of
    the first one that [cmp] orders after it. *)
Fixpoint sort_insert {A : Type} (cmp : A -> A -> num) (x : A) (sorted : list A)
  : list A :=
  match sorted with
  | [] => [x]
  | y :: rest =>
      if gtb (cmp y x) (of_Z 0) then x :: sorted
      else y :: sort_insert cmp x rest
  end.

Definition js_sort {A : Type} (cmp : A -> A -> num) (l : list A) : list A :=
  fold_left (fun sorted x => sort_insert cmp x sorted) l [].

Definition by_hourly_rate (a b : entry) : num :=
  sub (hourly_rate b) (hourly_rate a).

Section Handlers.

Variable raises : stmt -> bool.

(** The body of the loop over the ranked users. *)
Definition rate_entry (now : Z) (d : database) (user : user_row)
  : option entry :=
  let since := of_Z (now - 86400) in
  if raises (SumDaily (user_key user) since) then None
  else
    let dailyHoney :=
      match sum_daily (user_key user) since d with
      | Some s => or_zero s
      | None => of_Z 0
      end in
    Some {| entry_user_key := user_key user;
            total_honey := user_total_honey user;
            daily_honey := dailyHoney;
            hourly_rate := div dailyHoney (of_Z 24);
            entry_last_activity := last_activity user |}.

Fixpoint rate_entries (now : Z) (d : database) (rows : list user_row)
  : option (list entry) :=
  match rows with
  | [] => Some []
  | user :: rest =>
      match rate_entry now d user with
      | None => None
      | Some e =>
          match rate_entries now d rest with
          | None => None
          | Some es => Some (e :: es)
          end
      end
  end.

(** [GET /api/leaderboard?limit=]. *)
Definition get_leaderboard (cfg : config) (now : Z) (req : request)
    (d : database) : response :=
  match requireReadKey cfg req with
  | Reject r => r
  | Next _ =>
      if negb (USE_DB cfg)
      then fail 501 "Database required for leaderboard."
      else
        let cutoffT := of_Z (now - 86400 * 7) in
        let limit := requested_limit (query_limit req) in
        let failed := fail 500 "Database error fetching leaderboard." in
        if raises (SelectRanked cutoffT limit) then failed
        else
          match select_ranked cutoffT limit d with
          | None => failed
          | Some rows =>
              match rate_entries now d rows with
              | None => failed
              | Some leaderboard =>
                  json (LeaderboardBody (js_sort by_hourly_rate leaderboard))
              end
          end
  end.

End Handlers.

End Ranking.

(** ** What the properties observe *)

Module Observe.
Import Server.

(** The metrics with a sample series of their own. *)
Inductive metric : Type :=
| OfHoney
| OfPollen
| OfBackpack
| OfNectar (ty : nectar_type).

(** The body carries the finite number [x] for the metric. *)
Definition carries (b : ingest_body) (m : metric) (x : num) : Prop :=
  match m with
  | OfHoney => finite_number (body_honey b) = Some x
  | OfPollen => finite_number (body_pollen b) = Some x
  | OfBackpack => finite_number (body_backpack b) = Some x
  | OfNectar ty => finite_number (get (body_nectar b) (type_name ty)) = Some x
  end.

(** The series of the metric in a stats answer holds the pair
    [(t, v)]; a backpack point carries its percentage besides. *)
Definition series_has (data : stats) (m : metric) (t v : num) : Prop :=
  match m with
  | OfHoney => In (Sample t v) (stats_honey data)
  | OfPollen => In (Sample t v) (stats_pollen data)
  | OfBackpack => exists pct, In (BpPoint t v pct) (stats_backpack data)
  | OfNectar ty => In (Sample t v) (nectar_get ty (stats_nectar data))
  end.

(** Some series of the answer holds a point of time [t]. *)
Definition returns_time (data : stats) (t : num) : Prop :=
  exists m v, series_has data m t v.

(** Every point of every series is at or after [cutoff]. *)
Definition all_since (cutoff : num) (data : stats) : Prop :=
  Forall (fun p => geb (s_t p) cutoff = true) (stats_honey data)
  /\ Forall (fun p => geb (s_t p) cutoff = true) (stats_pollen data)
  /\ Forall (fun p => geb (p_t p) cutoff = true) (stats_backpack data)
  /\ (forall ty, Forall (fun p => geb (s_t p) cutoff = true)
                   (nectar_get ty (stats_nectar data))).

Definition rows_since (cutoff : num) (acc : row_series) : Prop :=
  Forall (fun p => geb (s_t p) cutoff = true) (rows_honey acc)
  /\ Forall (fun p => geb (s_t p) cutoff = true) (rows_pollen acc)
  /\ Forall (fun p => geb (s_t p) cutoff = true) (backpackRaw acc)
  /\ Forall (fun p => geb (s_t p) cutoff = true) (capacityEntries acc)
  /\ (forall ty, Forall (fun p => geb (s_t p) cutoff = true)
                   (nectar_get ty (rows_nectar acc))).

(** None of honey, pollen, backpack and currentHoney is a number, and
    [nectar] has no number under a nectar type. *)
Definition no_numeric_field (b : ingest_body) : Prop :=
  is_number (body_honey b) = false
  /\ is_number (body_pollen b) = false
  /\ is_number (body_backpack b) = false
  /\ is_number (body_currentHoney b) = false
  /\ forall ty, is_number (get (body_nectar b) (type_name ty)) = false.

(** At least one recognised metric field is there: one of honey,
    pollen, backpack and currentHoney is a number, or [nectar] holds a
    finite number under a nectar type. *)
Definition has_metric (b : ingest_body) : Prop :=
  is_number (body_honey b) = true
  \/ is_number (body_pollen b) = true
  \/ is_number (body_backpack b) = true
  \/ is_number (body_currentHoney b) = true
  \/ exists ty x, finite_number (get (body_nectar b) (type_name ty)) = Some x.

(** The commands waiting in the queue a key owns; none when it owns
    no queue. *)
Definition queue_of (userKey : string) (st : state) : list jsval :=
  default [] (controlCommands st !! userKey).

(** Requests to the command mailbox, and a run of them: the stores
    after the last request, while every request of the run stays inside
    the model. *)
Inductive mail_event : Type :=
| PostCommands (now : Z) (h : headers) (commands : jsval)
| GetCommands (h : headers).

Definition mail_step (cfg : config) (st : state) (ev : mail_event)
  : fate state :=
  match ev with
  | PostCommands now h commands =>
      Sent (snd (post_commands cfg now h commands st))
  | GetCommands h =>
      match get_commands cfg h st with
      | Sent (_, st) => Sent st
      | Thrown answer => Thrown answer
      | Astray => Astray
      end
  end.

Definition mail_run (cfg : config) (evs : list mail_event) (st : state)
  : fate state :=
  fold_left (fun served ev =>
               match served with
               | Sent st => mail_step cfg st ev
               | lost => lost
               end)
    evs (Sent st).

(** Every queue holds at most 100 commands. *)
Definition bounded (st : state) : Prop :=
  forall userKey, (length (queue_of userKey st) <= COMMAND_LIMIT)%nat.

(** A descending order of the keys. *)
Definition descending {A : Type} (key : A -> num) (a b : A) : Prop :=
  geb (key a) (key b) = true.

(** What a leaderboard entry says of a user, and what the users table
    says. *)
Definition standing (e : Ranking.entry) : string * num * num :=
  (Ranking.entry_user_key e, Ranking.total_honey e,
   Ranking.entry_last_activity e).

Definition user_standing (u : Ranking.user_row) : string * num * num :=
  (Ranking.user_key u, Ranking.user_total_honey u, Ranking.last_activity u).

Section WithPlatform.

Context `{Platform}.

(** The bucket [own_bucket] hands out for a key: the stored one, or a
    new one with empty series. *)
Definition bucket_of (userKey : string) (st : state) : bucket :=
  fst (own_bucket userKey st).

(** A statement of the [try] block of [POST /api/ingest] raises. *)
Definition durable_raises (raises : stmt -> bool) (now : Z)
    (userKey : string) (b : ingest_body) : Prop :=
  let t := event_time now b in
  raises (InsertUser userKey (getPublicId userKey)) = true
  \/ (inserts userKey t b <> []
      /\ raises (InsertSamples (inserts userKey t b)) = true)
  \/ raises (UpdateUser (number_or_null (body_currentHoney b)) t
               (sanitizeUsername (body_username b)) userKey) = true.

End WithPlatform.

End Observe.

(** ** Values to evaluate the handlers on *)

Module Examples.

(** Stand-ins for the platform functions; no property below depends
    on them. *)
Definition plain_platform : Platform :=
  {| sha1_hex := fun s => s;
     number_to_string := fun _ => "n";
     string_to_number := fun _ => NaN;
     trim := fun s => s |}.

Definition never : Server.stmt -> bool := fun _ => false.
Definition always : Server.stmt -> bool := fun _ => true.

Definition memory_cfg : Server.config :=
  {| Server.env_API_KEY := Some "k"; Server.env_CLIENT_KEY := None;
     Server.USE_DB := false |}.

Definition mysql_cfg : Server.config :=
  {| Server.env_API_KEY := Some "k"; Server.env_CLIENT_KEY := None;
     Server.USE_DB := true |}.

Definition writer : Server.headers :=
  {| Server.x_user_key := Some "u"; Server.x_api_key := Some "k";
     Server.x_client_key := None |}.

Definition empty_body : Server.ingest_body :=
  {| Server.body_honey := JUndefined; Server.body_pollen := JUndefined;
     Server.body_backpack := JUndefined;
     Server.body_backpackCapacity := JUndefined;
     Server.body_nectar := JUndefined; Server.body_at := JUndefined;
     Server.body_currentHoney := JUndefined;
     Server.body_username := JUndefined;
     Server.body_playerId := JUndefined |}.

Definition int (z : Z) : jsval := JNum (of_Z z).

(** [{ honey: "12", backpackCapacity: 100 }]: no metric is a number. *)
Definition honey_as_text : Server.ingest_body :=
  {| Server.body_honey := JStr "12"; Server.body_pollen := JUndefined;
     Server.body_backpack := JUndefined;
     Server.body_backpackCapacity := int 100;
     Server.body_nectar := JUndefined; Server.body_at := JUndefined;
     Server.body_currentHoney := JUndefined;
     Server.body_username := JUndefined;
     Server.body_playerId := JUndefined |}.

(** [{ honey, at }]. *)
Definition honey_at (honey at_ : Z) : Server.ingest_body :=
  {| Server.body_honey := int honey; Server.body_pollen := JUndefined;
     Server.body_backpack := JUndefined;
     Server.body_backpackCapacity := JUndefined;
     Server.body_nectar := JUndefined; Server.body_at := int at_;
     Server.body_currentHoney := JUndefined;
     Server.body_username := JUndefined;
     Server.body_playerId := JUndefined |}.

(** [{ honey, at, playerId }]. *)
Definition honey_of_player (honey at_ playerId : Z) : Server.ingest_body :=
  {| Server.body_honey := int honey; Server.body_pollen := JUndefined;
     Server.body_backpack := JUndefined;
     Server.body_backpackCapacity := JUndefined;
     Server.body_nectar := JUndefined; Server.body_at := int at_;
     Server.body_currentHoney := JUndefined;
     Server.body_username := JUndefined;
     Server.body_playerId := int playerId |}.

Definition reader : Server.headers :=
  {| Server.x_user_key := Some "u"; Server.x_api_key := None;
     Server.x_client_key := None |}.

(** [{ honey, backpack, backpackCapacity, at }]. *)
Definition report (honey backpack capacity : jsval) (at_ : Z)
  : Server.ingest_body :=
  {| Server.body_honey := honey; Server.body_pollen := JUndefined;
     Server.body_backpack := backpack;
     Server.body_backpackCapacity := capacity;
     Server.body_nectar := JUndefined; Server.body_at := int at_;
     Server.body_currentHoney := JUndefined;
     Server.body_username := JUndefined;
     Server.body_playerId := JUndefined |}.

(** The stores a request leaves that was served to its end; the
    stores [st] it found, had it not been. *)
Definition left_by (st : Server.state)
    (served : Server.fate (Server.response * Server.state) * Server.database)
  : Server.state * Server.database :=
  match served with
  | (Server.Sent (_, st'), d) => (st', d)
  | (_, d) => (st, d)
  end.

(** The in-memory store after [{ honey: 7, at: 100 }] arrived for "u"
    when the clock read 100. *)
Definition stored_at_100 : Server.state :=
  default Server.initial
    (@Server.writeMemory plain_platform 100 "u" (honey_at 7 100)
       Server.initial).

(** A reader that names itself "v". *)
Definition other_reader : Server.headers :=
  {| Server.x_user_key := Some "v"; Server.x_api_key := None;
     Server.x_client_key := None |}.

(** A writer and a reader that name themselves [constructor]. *)
Definition constructor_writer : Server.headers :=
  {| Server.x_user_key := Some "constructor"; Server.x_api_key := Some "k";
     Server.x_client_key := None |}.

Definition constructor_reader : Server.headers :=
  {| Server.x_user_key := Some "constructor"; Server.x_api_key := None;
     Server.x_client_key := None |}.

(** Two requests of "u": [{ honey: 1, backpackCapacity: 100, at: 5 }]
    and then [{ backpack: 50, at: 10 }], served with the durable store
    (every statement taking effect) and served from memory. *)
Definition capacity_then_backpack (cfg : Server.config)
  : Server.state * Server.database :=
  let '(st, d) :=
    left_by Server.initial
      (@Server.ingest plain_platform never cfg 5 "u"
         (report (int 1) JUndefined (int 100) 5) Server.initial
         Server.empty_database) in
  left_by st
    (@Server.ingest plain_platform never cfg 10 "u"
       (report JUndefined (int 50) JUndefined 10) st d).

(** Two requests of "u": [{ backpack: 40, backpackCapacity: 100, at: 5 }]
    and then [{ backpack: 50, at: 10 }]. *)
Definition backpack_twice (cfg : Server.config)
  : Server.state * Server.database :=
  let '(st, d) :=
    left_by Server.initial
      (@Server.ingest plain_platform never cfg 5 "u"
         (report JUndefined (int 40) (int 100) 5) Server.initial
         Server.empty_database) in
  left_by st
    (@Server.ingest plain_platform never cfg 10 "u"
       (report JUndefined (int 50) JUndefined 10) st d).

(** The backpack series [GET /api/stats?period=1h] answers at clock
    reading [now], as triples [(t, v, pct)] with whole percentages. *)
Definition backpack_read (cfg : Server.config) (now : Z)
    (stores : Server.state * Server.database) : list (num * num * Z) :=
  match
    @Server.get_stats plain_platform never cfg now reader (Some "1h")
      (fst stores) (snd stores)
  with
  | Server.Sent ({| Server.payload := Server.StatsBody data |}, _) =>
      map (fun p =>
             (Server.p_t p, Server.p_v p,
              match Server.p_pct p with Fin q => Qfloor q | _ => -1 end))
        (Server.stats_backpack data)
  | _ => []
  end.

Definition ranking_cfg : Ranking.config :=
  {| Ranking.env_CLIENT_KEY := None; Ranking.USE_DB := true |}.

Definition nobody_raises : Ranking.stmt -> bool := fun _ => false.

(** A request for the leaderboard with the default client key. *)
Definition ranking_request (limit : option string) : Ranking.request :=
  {| Ranking.x_user_key := Some "u";
     Ranking.x_client_key := Some Ranking.CLIENT_KEY_DEFAULT;
     Ranking.query_user_key := None;
     Ranking.query_limit := limit |}.

(** A request of the user "a" with the default client key. *)
Definition request_of_a : Ranking.request :=
  {| Ranking.x_user_key := Some "a";
     Ranking.x_client_key := Some Ranking.CLIENT_KEY_DEFAULT;
     Ranking.query_user_key := None;
     Ranking.query_limit := None |}.

(** Two users active at time 1000: "a" holds more honey in total, "b"
    made more of it in the last day. *)
Definition two_users : Ranking.database :=
  {| Ranking.users :=
       [{| Ranking.user_key := "a"; Ranking.last_activity := of_Z 990;
           Ranking.user_total_honey := of_Z 100 |};
        {| Ranking.user_key := "b"; Ranking.last_activity := of_Z 995;
           Ranking.user_total_honey := of_Z 50 |}];
     Ranking.samples_table :=
       [{| Ranking.row_user := "a"; Ranking.row_metric := "honey";
           Ranking.row_t := of_Z 900; Ranking.row_v := of_Z 24 |};
        {| Ranking.row_user := "b"; Ranking.row_metric := "honey";
           Ranking.row_t := of_Z 950; Ranking.row_v := of_Z 240 |}] |}.

End Examples.

(** ** Control state and shared configurations of the current server
    (Index.js, lines 755-787, 1106-1183 and 1344-1361) *)

(** [JSON.stringify], used as given; [None] is a raised exception. *)
Class Json : Type := {
  stringify : jsval -> option string
}.

Module Sharing.
Import Server.

(** An entry of [controlStates]: [{ state, at }]. *)
Record control_state : Type := { held_state : jsval; held_at : num }.

(** An entry of [configs]: [{ config, owner, at }]. *)
Record config_entry : Type := {
  entry_config : jsval; entry_owner : string; entry_at : num
}.

Record stores : Type := {
  controlStates : gmap string control_state;
  configs : gmap string config_entry
}.

Definition no_stores : stores := {| controlStates := ∅; configs := ∅ |}.

(** A row of the [configs] table, [created_at] as a Unix time.
    [payload] is the text the row was written with; the column is of
    type [JSON]. *)
Record config_row : Type := {
  config_key : string; row_owner : string; payload : string; created_at : num
}.

Inductive stmt : Type :=
| ReplaceConfig (key userKey payload : string) (at_ : num)
| SelectConfig (key : string).

Inductive content : Type :=
| Error (error : string)
| Done
| StateIs (state : jsval) (at_ : num)
| Saved (key mode : string)
| ConfigIs (config : jsval) (owner : option string) (at_ : num).

Record reply : Type := { code : Z; content_of : content }.

(** What a route answers: the middleware's refusal or the handler's
    reply. *)
Inductive outcome : Type :=
| Refused (r : response)
| Replied (r : reply).

Definition ok (c : content) : outcome :=
  Replied {| code := 200; content_of := c |}.
Definition error (status : Z) (message : string) : outcome :=
  Replied {| code := status; content_of := Error message |}.

(** *** The control state *)

(** [POST /api/controls/state]; [state] and [at_] are
    [req.body && req.body.state] and [req.body && req.body.at].  The
    assignment makes or replaces an own property, except under
    [__proto__], where it makes the entry the prototype of
    [controlStates]. *)
Definition post_state (cfg : config) (now : Z) (h : headers)
    (state at_ : jsval) (s : stores) : fate (outcome * stores) :=
  match requireWriteKey cfg h with
  | Reject r => Sent (Refused r, s)
  | Next userKey =>
      if negb (Js.truthy state) then Sent (error 400 "state required", s)
      else if String.eqb userKey "__proto__" then Astray
      else
        let entry :=
          {| held_state := state;
             held_at := match at_ with JNum n => n | _ => of_Z now end |} in
        Sent (ok Done,
              {| controlStates := <[userKey := entry]> (controlStates s);
                 configs := configs s |})
  end.

(** [GET /api/controls/state].  An inherited member is truthy and has
    neither [state] nor [at]. *)
Definition get_state (cfg : config) (now : Z) (h : headers) (s : stores)
  : outcome :=
  match requireReadKey cfg h with
  | Reject r => Refused r
  | Next userKey =>
      match lookup (controlStates s) userKey with
      | Own entry =>
          ok (StateIs (held_state entry)
                (if JsNum.truthy (held_at entry) then held_at entry
                 else of_Z now))
      | Inherited => ok (StateIs JUndefined (of_Z now))
      | Missing => ok (StateIs JNull (of_Z now))
      end
  end.

(** *** Shared configurations *)

Definition requireConfigReadKey (cfg : config) (h : headers) : option response :=
  if String.eqb (CLIENT_KEY cfg) EmptyString
     || String.eqb (CLIENT_KEY cfg) CLIENT_KEY_PLACEHOLDER
  then None
  else
    let key :=
      match present (x_client_key h) with
      | Some k => Some k
      | None => x_api_key h
      end in
    if negb (header_is key (CLIENT_KEY cfg)) && negb (header_is key (API_KEY cfg))
    then Some (fail 401 "unauthorized")
    else None.

Definition CONFIG_JSON_LIMIT : nat := 256 * 1024.

Definition KEY_ALPHABET : string := "ABCDEFGHIJKLMNOPQRSTUVWXYZ0123456789[]".

(** A character of the class [[A-Z0-9\[\]-]]. *)
Definition key_char (c : ascii) : bool :=
  let n := nat_of_ascii c in
  (((65 <=? n) && (n <=? 90)) || ((48 <=? n) && (n <=? 57))
   || (n =? 91) || (n =? 93) || (n =? 45))%nat.

(** [configKeyRegex.test(key)] for [/^[A-Z0-9\[\]-]{10,32}$/]. *)
Definition configKeyRegex_test (key : string) : bool :=
  forallb key_char (list_ascii_of_string key)
  && (10 <=? String.length key)%nat && (String.length key <=? 32)%nat.

(** [KEY_ALPHABET[idx]] as [out +=] appends it. *)
Definition alphabet_at (idx : nat) : string :=
  match String.get idx KEY_ALPHABET with
  | Some c => String c EmptyString
  | None => "undefined"
  end.

(** The loop of [generateConfigKey]; [random i] is what the call of
    [crypto.randomInt(0, KEY_ALPHABET.length)] in round [i] returns. *)
Fixpoint generate_from (random : nat -> nat) (i len : nat) (out : string)
  : string :=
  match len with
  | O => out
  | S len' =>
      generate_from random (S i) len' (out +:+ alphabet_at (random i))
  end.

Definition generateConfigKey (random : nat -> nat) : string :=
  generate_from random 0 20 EmptyString.

(** [Array.isArray(x)]. *)
Definition is_array (x : jsval) : bool :=
  match x with JArr _ => true | _ => false end.

(** [REPLACE INTO configs ...]: the row of the key, if any, gives way to
    the new one. *)
Definition replace_config (key userKey json : string) (at_ : num)
    (table : list config_row) : list config_row :=
  List.filter (fun r => negb (String.eqb (config_key r) key)) table
  ++ [{| config_key := key; row_owner := userKey; payload := json;
         created_at := at_ |}].

(** [SELECT ... FROM configs WHERE config_key = ? LIMIT 1]. *)
Definition select_config (key : string) (table : list config_row)
  : option config_row :=
  List.find (fun r => String.eqb (config_key r) key) table.

(** [respond(record)] of [GET /api/configs/:key]; an inherited member
    is truthy and has none of [config], [owner] and [at]. *)
Definition respond (now : Z) (record : slot config_entry) : outcome :=
  match record with
  | Missing => error 404 "not found"
  | Own r =>
      ok (ConfigIs (entry_config r) (nonempty (entry_owner r))
            (if JsNum.truthy (entry_at r) then entry_at r else of_Z now))
  | Inherited => ok (ConfigIs JUndefined None (of_Z now))
  end.

Section Handlers.

Context `{Json}.

Variable raises : stmt -> bool.

(** [POST /api/configs]; [config] and [key] are [req.body &&
    req.body.config] and [req.body && req.body.key].  The key the
    entry is stored under matches [configKeyRegex] or comes from
    [generateConfigKey]; neither can be [__proto__], so the assignment
    makes or replaces an own property. *)
Definition post_config (cfg : Server.config) (random : nat -> nat) (now : Z)
    (h : headers) (config key : jsval) (s : stores) (table : list config_row)
  : outcome * stores * list config_row :=
  match requireWriteKey cfg h with
  | Reject r => (Refused r, s, table)
  | Next userKey =>
      if negb (Js.truthy config) || negb (is_object config) || is_array config
      then (error 400 "config object required", s, table)
      else
        match stringify config with
        | None => (error 400 "config not serializable", s, table)
        | Some json =>
            if String.eqb json EmptyString
               || (CONFIG_JSON_LIMIT <? String.length json)%nat
            then (error 413 "config too large", s, table)
            else
              let key :=
                match key with
                | JStr k =>
                    if configKeyRegex_test k then k
                    else generateConfigKey random
                | _ => generateConfigKey random
                end in
              let entry :=
                {| entry_config := config; entry_owner := userKey;
                   entry_at := of_Z now |} in
              let s :=
                {| controlStates := controlStates s;
                   configs := <[key := entry]> (configs s) |} in
              if negb (USE_DB cfg) then (ok (Saved key "memory"), s, table)
              else if raises (ReplaceConfig key userKey json (of_Z now))
              then (ok (Saved key "memory-fallback"), s, table)
              else (ok (Saved key "mysql"), s,
                    replace_config key userKey json (of_Z now) table)
        end
  end.

(** [GET /api/configs/:key].  The pool is created without
    [jsonStrings] or a [typeCast], so the driver hands [row.payload]
    over decoded: the object the text of the row writes.  [JSON.parse]
    turns it into the string [[object Object]] and throws on that, and
    [parsed] stays [{}] for every row. *)
Definition get_config (cfg : Server.config) (now : Z) (h : headers)
    (key : string) (s : stores) (table : list config_row) : outcome :=
  match requireConfigReadKey cfg h with
  | Some r => Refused r
  | None =>
      let entry :=
        if String.eqb key EmptyString then Missing
        else lookup (configs s) key in
      if negb (USE_DB cfg) then respond now entry
      else if raises (SelectConfig key) then respond now entry
      else
        match select_config key table with
        | Some row =>
            let parsed := JObj [] in
            respond now
              (Own {| entry_config := parsed; entry_owner := row_owner row;
                      entry_at :=
                        if JsNum.truthy (created_at row) then created_at row
                        else of_Z now |})
        | None => respond now entry
        end
  end.

End Handlers.

End Sharing.

(** ** The day history of the version with the leaderboard
    (Index.js, lines 251-294) *)

Module History.
Import Ranking.

Record point : Type := Point { point_t : num; point_v : num }.

(** [{ honey, pollen, summary: { total_honey, avg_honey_rate } }]. *)
Record day : Type := {
  day_honey : list point;
  day_pollen : list point;
  summary_total_honey : num;
  summary_avg_honey_rate : num
}.

Inductive answer : Type :=
| Refused (r : response)
| Failed (status : Z) (error : string)
| Answered (data : day).

(** [ORDER BY t ASC], rows of equal time in table order. *)
Fixpoint insert_asc (r : sample_row) (sorted : list sample_row)
  : list sample_row :=
  match sorted with
  | [] => [r]
  | r' :: rest =>
      if ltb (row_t r) (row_t r') then r :: sorted
      else r' :: insert_asc r rest
  end.

Definition order_asc (rows : list sample_row) : list sample_row :=
  fold_left (fun sorted r => insert_asc r sorted) rows [].

(** [SELECT metric, t, v FROM samples WHERE user_key = ? AND t >= ? AND
    t < ? ORDER BY t ASC]. *)
Definition select_day (userKey : string) (startT endT : num) (d : database)
  : list sample_row :=
  order_asc
    (List.filter (fun r => String.eqb (row_user r) userKey
                           && geb (row_t r) startT && ltb (row_t r) endT)
       (samples_table d)).

(** The loop over the rows: the two series and the running total. *)
Definition add_row (acc : list point * list point * num) (row : sample_row)
  : list point * list point * num :=
  let '(honey, pollen, totalHoney) := acc in
  if String.eqb (row_metric row) "honey"
  then (honey ++ [Point (row_t row) (row_v row)], pollen,
        add totalHoney (row_v row))
  else if String.eqb (row_metric row) "pollen"
  then (honey, pollen ++ [Point (row_t row) (row_v row)], totalHoney)
  else acc.

Section Handlers.

(** [moment.tz(dateStr, "YYYY-MM-DD", "UTC")]: the Unix time of the
    day's midnight in UTC, [None] when the date is not valid. *)
Variable day_start : option string -> option Z.

(** Whether the query raises. *)
Variable raises : bool.

(** [GET /api/history?date=]; a day of UTC lasts 86400 seconds. *)
Definition get_history (cfg : config) (req : request) (date : option string)
    (d : database) : answer :=
  match requireReadKey cfg req with
  | Reject r => Refused r
  | Next userKey =>
      if negb (USE_DB cfg) then Failed 501 "Database required for history."
      else
        match day_start date with
        | None => Failed 400 "Invalid date format. Use YYYY-MM-DD."
        | Some startT =>
            let endT := startT + 86400 in
            if raises then Failed 500 "Database error fetching history."
            else
              let rows := select_day userKey (of_Z startT) (of_Z endT) d in
              let '(honey, pollen, totalHoney) :=
                fold_left add_row rows ([], [], of_Z 0) in
              let dayDuration := endT - startT in
              let avgRate :=
                mul (div totalHoney (of_Z dayDuration)) (of_Z 3600) in
              Answered {| day_honey := honey; day_pollen := pollen;
                          summary_total_honey := totalHoney;
                          summary_avg_honey_rate := avgRate |}
        end
  end.

End Handlers.

End History.

(** ** What the further properties observe *)

Module Survey.
Import Server.

(** A percentage: a finite number from 0 to 100. *)
Definition percent (x : num) : Prop :=
  exists q, x = Fin q /\ (0 <= q)%Q /\ (q <= 100)%Q.

(** A whole number that is not negative. *)
Definition natural (x : num) : Prop := exists z, x = of_Z z /\ 0 <= z.

(** Ascending order of time, for points and for backpack points. *)
Definition ascending (a b : sample) : Prop := leb (s_t a) (s_t b) = true.
Definition bp_ascending (a b : bp_point) : Prop := leb (p_t a) (p_t b) = true.

(** Every series of the bucket holds only points at or after [cutoff]. *)
Definition bucket_since (cutoff : num) (bk : bucket) : Prop :=
  Forall (fun p => geb (s_t p) cutoff = true) (honey bk)
  /\ Forall (fun p => geb (s_t p) cutoff = true) (pollen bk)
  /\ Forall (fun e => geb (e_t e) cutoff = true) (backpack bk)
  /\ forall ty, Forall (fun p => geb (s_t p) cutoff = true)
                  (nectar_get ty (nectar bk)).

(** Two buckets hold the same series and scalars; their public ids may
    differ. *)
Definition same_content (a b : bucket) : Prop :=
  honey a = honey b /\ pollen a = pollen b /\ backpack a = backpack b
  /\ nectar a = nectar b /\ currentHoney a = currentHoney b
  /\ lastCapacity a = lastCapacity b /\ username a = username b
  /\ lastSeen a = lastSeen b.

(** The sum of the values of a series of the day history. *)
Definition total_of (points : list History.point) : num :=
  fold_left (fun acc p => add acc (History.point_v p)) points (of_Z 0).

(** The pairs [(t, v)] a bucket stores for a metric, oldest first. *)
Definition stored_series (m : Observe.metric) (bk : bucket) : list (num * num) :=
  match m with
  | Observe.OfHoney => map (fun p => (s_t p, s_v p)) (honey bk)
  | Observe.OfPollen => map (fun p => (s_t p, s_v p)) (pollen bk)
  | Observe.OfBackpack => map (fun e => (e_t e, e_v e)) (backpack bk)
  | Observe.OfNectar ty =>
      map (fun p => (s_t p, s_v p)) (nectar_get ty (nectar bk))
  end.

(** The pairs at or after [cutoff]. *)
Definition pairs_since (cutoff : num) (pairs : list (num * num))
  : list (num * num) :=
  List.filter (fun p => geb (fst p) cutoff) pairs.

(** A display name as the store keeps it: not empty, at most 32 code
    units. *)
Definition name_ok (n : string) : Prop :=
  n <> EmptyString /\ (String.length n <= 32)%nat.

(** The name of a metric in the [metric] column of the samples table. *)
Definition metric_name (m : Observe.metric) : string :=
  match m with
  | Observe.OfHoney => "honey"
  | Observe.OfPollen => "pollen"
  | Observe.OfBackpack => "backpack"
  | Observe.OfNectar ty => nectarMetricForType ty
  end.

(** The array the row loop of [collectDbStats] fills for a metric. *)
Definition row_series_of (m : Observe.metric) (acc : row_series)
  : list sample :=
  match m with
  | Observe.OfHoney => rows_honey acc
  | Observe.OfPollen => rows_pollen acc
  | Observe.OfBackpack => backpackRaw acc
  | Observe.OfNectar ty => nectar_get ty (rows_nectar acc)
  end.

(** The row is one of [userKey] for the metric, at or after [cutoff]. *)
Definition row_of (userKey : string) (cutoff : num) (m : Observe.metric)
    (r : sample_row) : Prop :=
  row_user r = userKey /\ geb (row_t r) cutoff = true
  /\ row_metric r = metric_name m.

(** Every row of the samples table has a finite time, as the column
    type has it. *)
Definition timed (d : database) : Prop :=
  Forall (fun r => isFinite (row_t r) = true) (samples_table d).

(** Ascending order of the rows' time. *)
Definition rows_ascending (a b : sample_row) : Prop :=
  leb (row_t a) (row_t b) = true.

(** The key a request to the command mailbox is admitted for, if it
    is admitted. *)
Definition acts_for (cfg : config) (ev : Observe.mail_event) : option string :=
  match ev with
  | Observe.PostCommands _ h _ =>
      match requireReadKey cfg h with Next k => Some k | Reject _ => None end
  | Observe.GetCommands h =>
      match requireWriteKey cfg h with Next k => Some k | Reject _ => None end
  end.

(** The point lies in the day that starts at [startT]. *)
Definition in_day (startT : Z) (p : History.point) : Prop :=
  geb (History.point_t p) (of_Z startT) = true
  /\ ltb (History.point_t p) (of_Z (startT + 86400)) = true.

(** Every series of a stats answer ascends in time. *)
Definition all_ascending (data : stats) : Prop :=
  StronglySorted ascending (stats_honey data)
  /\ StronglySorted ascending (stats_pollen data)
  /\ StronglySorted bp_ascending (stats_backpack data)
  /\ forall ty, StronglySorted ascending (nectar_get ty (stats_nectar data)).

End Survey.

(** ** The viewer's read of a player (Index.js, lines 766-775, 952-992
    and 1094-1104) *)

Module Viewer.
Import Server.

Definition requireViewerKey (cfg : config) (h : headers) : option response :=
  if String.eqb (CLIENT_KEY cfg) EmptyString
     || String.eqb (CLIENT_KEY cfg) CLIENT_KEY_PLACEHOLDER
  then Some (fail 400 "viewer disabled")
  else if header_is (x_client_key h) (CLIENT_KEY cfg) then None
       else Some (fail 401 "unauthorized").

(** [{ userKey, username, publicId }]. *)
Record resolution : Type := {
  resolved_userKey : string;
  resolved_username : option string;
  resolved_publicId : string
}.

(** The two queries of [resolveUserKeyFromPublicId]. *)
Inductive lookup : Type :=
| UserByPublicId (publicId : string)
| SessionByPublicId (publicId : string).

(** The first bucket of the enumeration with the public id. *)
Definition find_bucket (publicId : string) (entries : list (string * bucket))
  : option (string * bucket) :=
  List.find (fun e => String.eqb (Server.publicId (snd e)) publicId) entries.

(** The first session of the nested enumeration with the public id. *)
Definition find_session (publicId : string)
    (sessions : list (string * list session)) : option (string * session) :=
  List.find
    (fun e => match session_publicId (snd e) with
              | Some p => String.eqb p publicId
              | None => false
              end)
    (flat_map (fun e => map (fun x => (fst e, x)) (snd e)) sessions).

(** [SELECT user_key, username FROM users WHERE public_id = ? LIMIT 1]. *)
Definition user_by_public_id (publicId : string) (d : database)
  : option user_row :=
  List.find (fun u => match public_id u with
                      | Some p => String.eqb p publicId
                      | None => false
                      end) (users d).

(** [SELECT user_key, username FROM player_sessions WHERE
    session_public_id = ? LIMIT 1]. *)
Definition session_by_public_id (publicId : string) (d : database)
  : option session_row :=
  List.find (fun r => String.eqb (session_public_id r) publicId)
    (player_sessions d).

Section Handlers.

Context `{Platform}.

(** The order in which [Object.entries] and [Object.values] list an
    object's own properties. *)
Variable entries : forall A : Type, gmap string A -> list (string * A).

Variable raises : stmt -> bool.
Variable lookup_raises : lookup -> bool.

(** [resolveUserKeyFromPublicId(publicId)].  A query that raises
    rejects the promise ([Thrown None]: the handler awaiting it sends
    nothing).  An inherited member of [publicIdToUserKey] is truthy and
    is taken for a cached mapping, whose [userKey] is [undefined]
    ([Astray]). *)
Definition resolveUserKeyFromPublicId (cfg : config) (publicId : string)
    (st : state) (d : database) : fate (option resolution * state) :=
  if String.eqb publicId EmptyString then Sent (None, st)
  else
    match Js.lookup (publicIdToUserKey st) publicId with
    | Own (userKey, username) =>
        Sent (Some {| resolved_userKey := userKey;
                      resolved_username := present username;
                      resolved_publicId := publicId |}, st)
    | Inherited => Astray
    | Missing =>
        if negb (USE_DB cfg) then
          match find_bucket publicId (entries _ (samples st)) with
          | Some (userKey, bucket) =>
              Sent (Some {| resolved_userKey := userKey;
                            resolved_username := present (username bucket);
                            resolved_publicId := publicId |},
                    cachePublicMapping (Some publicId) userKey
                      (username bucket) st)
          | None =>
              match
                find_session publicId
                  (map (fun e => (fst e, map snd (entries _ (snd e))))
                     (entries _ (memorySessions st)))
              with
              | Some (userKey, session) =>
                  Sent (Some {| resolved_userKey := userKey;
                                resolved_username :=
                                  nonempty (session_username session);
                                resolved_publicId := publicId |},
                        cachePublicMapping (Some publicId) userKey
                          (Some (session_username session)) st)
              | None => Sent (None, st)
              end
          end
        else if lookup_raises (UserByPublicId publicId) then Thrown None
        else
          match user_by_public_id publicId d with
          | Some u =>
              Sent (Some {| resolved_userKey := user_key u;
                            resolved_username := present (user_username u);
                            resolved_publicId := publicId |},
                    cachePublicMapping (Some publicId) (user_key u)
                      (user_username u) st)
          | None =>
              if lookup_raises (SessionByPublicId publicId) then Thrown None
              else
                match session_by_public_id publicId d with
                | Some r =>
                    Sent (Some {| resolved_userKey := session_user r;
                                  resolved_username := present (row_username r);
                                  resolved_publicId := publicId |},
                          cachePublicMapping (Some publicId) (session_user r)
                            (row_username r) st)
                | None => Sent (None, st)
                end
          end
    end.

(** [GET /api/player/:publicId/stats?period=]. *)
Definition get_player_stats (cfg : config) (now : Z) (h : headers)
    (publicId : string) (period : option string) (st : state) (d : database)
  : fate (response * state) :=
  match requireViewerKey cfg h with
  | Some r => Sent (r, st)
  | None =>
      match resolveUserKeyFromPublicId cfg publicId st d with
      | Thrown answer => Thrown answer
      | Astray => Astray
      | Sent (None, st) => Sent (fail 404 "not found", st)
      | Sent (Some resolved, st) =>
          let periodSec :=
            Period.toSeconds (Some (default "24h" (present period))) in
          sendStatsResponse raises cfg now (resolved_userKey resolved)
            periodSec
            (Some {| override_username := resolved_username resolved;
                     override_publicId :=
                       Some (default publicId
                               (nonempty (resolved_publicId resolved)))
                  |})
            st d
      end
  end.

End Handlers.

(** Two stats answers with the same series and the same honey total. *)
Definition same_figures (a b : stats) : Prop :=
  stats_honey a = stats_honey b /\ stats_pollen a = stats_pollen b
  /\ stats_backpack a = stats_backpack b /\ stats_nectar a = stats_nectar b
  /\ stats_currentHoney a = stats_currentHoney b.

(** The cache has nothing under the public id, its own or inherited,
    and no bucket and no session of the stores carries it. *)
Definition unknown_id (publicId : string) (st : state) : Prop :=
  Js.lookup (publicIdToUserKey st) publicId = Missing
  /\ (forall k bk, samples st !! k = Some bk ->
                   Server.publicId bk <> publicId)
  /\ (forall k mine p x, memorySessions st !! k = Some mine ->
                         mine !! p = Some x ->
                         session_publicId x <> Some publicId).

End Viewer.

(** ** The list of online players (Index.js, lines 1009-1092) *)

Module Players.
Import Server Viewer.

Definition ONLINE_TIMEOUT : Z := 120.

(** An entry of the [players] array. *)
Record player : Type := {
  shown_id : option string;
  shown_username : string;
  shown_lastSeen : num;
  shown_currentHoney : num
}.

Inductive answer : Type :=
| Refused (r : response)
| Players (players : list player).

(** The two queries of the handler. *)
Inductive query : Type :=
| OnlineSessions (cutoff : num)
| OnlineUsers (cutoff : num).

(** Neither [!lastSeen] nor [now - lastSeen > ONLINE_TIMEOUT]. *)
Definition seen_lately (now : Z) (lastSeen : num) : bool :=
  JsNum.truthy lastSeen
  && negb (gtb (sub (of_Z now) lastSeen) (of_Z ONLINE_TIMEOUT)).

(** The callbacks of the loops over the sessions and the buckets in
    memory, on the list and the set [seenKeys]. *)
Definition list_session (now : Z) (userKey : string)
    (acc : list player * gset string) (x : session)
  : list player * gset string :=
  let '(list, seenKeys) := acc in
  if seen_lately now (session_lastSeen x)
  then (list ++ [{| shown_id := session_publicId x;
                    shown_username :=
                      default "Player" (nonempty (session_username x));
                    shown_lastSeen := session_lastSeen x;
                    shown_currentHoney := or_zero (session_currentHoney x) |}],
        {[ userKey ]} ∪ seenKeys)
  else acc.

Definition list_bucket (now : Z) (acc : list player * gset string)
    (e : string * bucket) : list player * gset string :=
  let '(list, seenKeys) := acc in
  if bool_decide (fst e ∈ seenKeys) then acc
  else if seen_lately now (lastSeen (snd e))
  then (list ++ [{| shown_id := Some (publicId (snd e));
                    shown_username :=
                      default "Player" (present (username (snd e)));
                    shown_lastSeen := lastSeen (snd e);
                    shown_currentHoney := or_zero (currentHoney (snd e)) |}],
        seenKeys)
  else acc.

(** The callbacks of the loops over the rows of the two queries. *)
Definition list_session_row (now : Z)
    (acc : list player * gset string * state) (r : session_row)
  : list player * gset string * state :=
  let '(list, seenKeys, st) := acc in
  (list ++ [{| shown_id := Some (session_public_id r);
               shown_username := default "Player" (present (row_username r));
               shown_lastSeen :=
                 if JsNum.truthy (last_seen r) then last_seen r else of_Z now;
               shown_currentHoney :=
                 match row_current_honey r with
                 | Some c => or_zero c
                 | None => of_Z 0
                 end |}],
   {[ session_user r ]} ∪ seenKeys,
   cachePublicMapping (Some (session_public_id r)) (session_user r)
     (row_username r) st).

Definition list_user_row (now : Z)
    (acc : list player * gset string * state) (u : user_row)
  : list player * gset string * state :=
  let '(list, seenKeys, st) := acc in
  match present (public_id u) with
  | None => acc
  | Some pid =>
      if bool_decide (user_key u ∈ seenKeys) then acc
      else
        (list ++ [{| shown_id := Some pid;
                     shown_username :=
                       default "Player" (present (user_username u));
                     shown_lastSeen :=
                       if JsNum.truthy (last_activity u) then last_activity u
                       else of_Z now;
                     shown_currentHoney := or_zero (current_honey u) |}],
         seenKeys,
         cachePublicMapping (Some pid) (user_key u) (user_username u) st)
  end.

Section Handlers.

(** The order in which [Object.entries] and [Object.values] list an
    object's own properties. *)
Variable entries : forall A : Type, gmap string A -> list (string * A).

(** [list.sort] with the comparison of the lower-cased usernames by
    [localeCompare]. *)
Variable sort_by_name : list player -> list player.

(** [ORDER BY username ASC] under the collation of the column. *)
Variable by_username : list user_row -> list user_row.

Variable raises : query -> bool.

(** [GET /api/players]. *)
Definition get_players (cfg : config) (now : Z) (h : headers) (st : state)
    (d : database) : answer * state :=
  match requireViewerKey cfg h with
  | Some r => (Refused r, st)
  | None =>
      if negb (USE_DB cfg) then
        let acc :=
          fold_left
            (fun acc e =>
               fold_left (list_session now (fst e))
                 (map snd (entries _ (snd e))) acc)
            (entries _ (memorySessions st)) ([], ∅) in
        let '(list, _) :=
          fold_left (list_bucket now) (entries _ (samples st)) acc in
        (Players (sort_by_name list), st)
      else
        let cutoff := of_Z (now - ONLINE_TIMEOUT) in
        if raises (OnlineSessions cutoff) then (Players [], st)
        else
          let sessionRows :=
            List.filter (fun r => geb (last_seen r) cutoff)
              (player_sessions d) in
          let '(list, seenKeys, st) :=
            fold_left (list_session_row now) sessionRows ([], ∅, st) in
          if raises (OnlineUsers cutoff) then (Players [], st)
          else
            let rows :=
              by_username
                (List.filter (fun u => geb (last_activity u) cutoff)
                   (users d)) in
            let '(list, _, st) :=
              fold_left (list_user_row now) rows (list, seenKeys, st) in
            (Players (sort_by_name list), st)
  end.

End Handlers.

(** A listed player was seen in the last 120 seconds and has a name. *)
Definition online (now : Z) (p : player) : Prop :=
  geb (shown_lastSeen p) (of_Z (now - 120)) = true
  /\ shown_username p <> EmptyString.

End Players.

(** ** Further stand-ins *)

Module Fixtures.

(** A stand-in for [JSON.stringify]: every value is written in two
    characters. *)
Definition plain_json : Json :=
  {| stringify := fun _ => Some "{}" |}.

Definition no_failure : Sharing.stmt -> bool := fun _ => false.

(** Two dates with the Unix time of their midnight; every other string
    is no valid date. *)
Definition day_of (date : option string) : option Z :=
  match date with
  | Some "day0" => Some 0
  | Some "day1" => Some 86400
  | _ => None
  end.

End Fixtures.

(** * Properties *)

(** ** The time-window resolver *)

Module PeriodFacts.
Import Period.

Lemma unit_cases (u : ascii) (k : Z) :
  unit_seconds u = Some k ->
  (u = "s"%char /\ k = 1) \/ (u = "m"%char /\ k = 60)
  \/ (u = "h"%char /\ k = 3600) \/ (u = "d"%char /\ k = 86400).
Proof.
  destruct u as [[] [] [] [] [] [] [] []]; simpl; intros E;
    try discriminate; inversion E; auto.
Qed.

Lemma unit_not_digit (u : ascii) (k : Z) :
  unit_seconds u = Some k -> is_digit u = false.
Proof.
  intros E. destruct (unit_cases u k E) as [[-> _]|[[-> _]|[[-> _]|[-> _]]]];
    reflexivity.
Qed.

Lemma span_digits_app (digits : string) (u : ascii) :
  Forall (fun c => is_digit c = true) (list_ascii_of_string digits) ->
  is_digit u = false ->
  span_digits (digits +:+ String u EmptyString) = (digits, String u EmptyString).
Proof.
  intros Hd Hu. induction digits as [|c r IH]; simpl.
  - now rewrite Hu.
  - simpl in Hd. inversion Hd as [|? ? Hc Hr]; subst.
    rewrite Hc, (IH Hr). reflexivity.
Qed.

Lemma span_digits_split (s ds rest : string) :
  span_digits s = (ds, rest) ->
  s = ds +:+ rest
  /\ Forall (fun c => is_digit c = true) (list_ascii_of_string ds).
Proof.
  revert ds rest. induction s as [|c r IH]; simpl; intros ds rest E.
  - inversion E; subst. split; [reflexivity | constructor].
  - destruct (is_digit c) eqn:Hc.
    + destruct (span_digits r) as [ds' rest'] eqn:Er.
      inversion E; subst. destruct (IH _ _ eq_refl) as [-> Hd].
      split; [reflexivity | simpl; constructor; assumption].
    + inversion E; subst. split; [reflexivity | constructor].
Qed.

Lemma exec_period_form (digits : string) (u : ascii) (k : Z) :
  digits <> EmptyString ->
  Forall (fun c => is_digit c = true) (list_ascii_of_string digits) ->
  unit_seconds u = Some k ->
  exec_period (digits +:+ String u EmptyString) = Some (digits, u).
Proof.
  intros Hne Hd Hu. unfold exec_period.
  rewrite (span_digits_app digits u Hd (unit_not_digit u k Hu)).
  destruct digits as [|d ds]; [congruence|]. now rewrite Hu.
Qed.

(** The tables of the grammar against the character tests of the
    code. *)
Lemma digit_is (c : ascii) (d : Z) :
  digit c d -> is_digit c = true /\ digit_value c = d.
Proof. intros []; split; reflexivity. Qed.

Lemma is_digit_digit (c : ascii) :
  is_digit c = true -> digit c (digit_value c).
Proof.
  destruct c as [[] [] [] [] [] [] [] []]; intros E;
    try discriminate E; constructor.
Qed.

Lemma unit_of_seconds (u : ascii) (k : Z) :
  unit_of u k <-> unit_seconds u = Some k.
Proof.
  split.
  - intros []; reflexivity.
  - intros E.
    destruct (unit_cases u k E) as [[-> ->]|[[-> ->]|[[-> ->]|[-> ->]]]];
      constructor.
Qed.

Lemma append_empty (s : string) : s +:+ EmptyString = s.
Proof.
  induction s as [|c r IH]; [reflexivity|].
  change (String c r +:+ EmptyString) with (String c (r +:+ EmptyString)).
  now rewrite IH.
Qed.

Lemma append_snoc (p : string) (c : ascii) (r : string) :
  p +:+ String c r = (p +:+ String c EmptyString) +:+ r.
Proof.
  induction p as [|x p IH]; [reflexivity|].
  change (String x p +:+ String c r) with (String x (p +:+ String c r)).
  now rewrite IH.
Qed.

Lemma decimal_from_snoc (s : string) (c : ascii) (acc : Z) :
  decimal_from acc (s +:+ String c EmptyString)
  = 10 * decimal_from acc s + digit_value c.
Proof.
  revert acc. induction s as [|x s IH]; intros acc; [reflexivity|].
  change (String x s +:+ String c EmptyString)
    with (String x (s +:+ String c EmptyString)).
  unfold decimal_from in *. simpl. apply IH.
Qed.

Lemma digits_snoc (s : string) (c : ascii) :
  Forall (fun c => is_digit c = true) (list_ascii_of_string s) ->
  is_digit c = true ->
  Forall (fun c => is_digit c = true)
    (list_ascii_of_string (s +:+ String c EmptyString)).
Proof.
  intros Hs Hc. induction s as [|x s IH].
  - repeat constructor. exact Hc.
  - change (String x s +:+ String c EmptyString)
      with (String x (s +:+ String c EmptyString)).
    simpl in *. inversion Hs; subst. constructor; auto.
Qed.

(** A numeral is a non-empty run of digits, and [Number] reads the
    number it writes. *)
Lemma numeral_sound (s : string) (n : Z) :
  numeral s n ->
  s <> EmptyString
  /\ Forall (fun c => is_digit c = true) (list_ascii_of_string s)
  /\ decimal s = n.
Proof.
  induction 1 as [c d Hd | s n c d _ [Hne [Hs Hn]] Hd].
  - destruct (digit_is c d Hd) as [Hc Hv]. split; [discriminate|]. split.
    + repeat constructor. exact Hc.
    + unfold decimal, decimal_from. simpl. lia.
  - destruct (digit_is c d Hd) as [Hc Hv]. split; [|split].
    + destruct s; discriminate.
    + now apply digits_snoc.
    + unfold decimal in *. rewrite decimal_from_snoc. lia.
Qed.

Lemma numeral_extend (s : string) :
  forall (p : string) (n : Z),
    numeral p n ->
    Forall (fun c => is_digit c = true) (list_ascii_of_string s) ->
    numeral (p +:+ s) (decimal_from n s).
Proof.
  induction s as [|c r IH]; intros p n Hp Hs.
  - now rewrite append_empty.
  - simpl in Hs. inversion Hs as [|? ? Hc Hr]; subst.
    rewrite append_snoc.
    change (decimal_from n (String c r))
      with (decimal_from (10 * n + digit_value c) r).
    apply IH; [|assumption].
    constructor; [assumption | now apply is_digit_digit].
Qed.

Lemma numeral_complete (s : string) :
  s <> EmptyString ->
  Forall (fun c => is_digit c = true) (list_ascii_of_string s) ->
  numeral s (decimal s).
Proof.
  destruct s as [|c r]; [congruence|]. intros _ Hs.
  simpl in Hs. inversion Hs as [|? ? Hc Hr]; subst.
  change (String c r) with (String c EmptyString +:+ r).
  change (decimal (String c EmptyString +:+ r))
    with (decimal_from (10 * 0 + digit_value c) r).
  replace (10 * 0 + digit_value c) with (digit_value c) by lia.
  apply numeral_extend; [|assumption].
  constructor. now apply is_digit_digit.
Qed.

Lemma exec_period_inv (p digits : string) (u : ascii) :
  exec_period p = Some (digits, u) ->
  exists k, unit_seconds u = Some k /\ period_form p (decimal digits) k.
Proof.
  unfold exec_period. destruct (span_digits p) as [ds rest] eqn:E.
  destruct ds as [|d ds]; [discriminate|].
  destruct rest as [|u' [|? ?]]; try discriminate.
  destruct (unit_seconds u') as [k|] eqn:Hu; [|discriminate].
  intros [= <- <-]. exists k. split; [assumption|].
  destruct (span_digits_split _ _ _ E) as [-> Hd].
  constructor; [|now apply unit_of_seconds].
  apply numeral_complete; [discriminate | assumption].
Qed.

Lemma toSeconds_of_exec (p digits : string) (u : ascii) (k : Z) :
  exec_period p = Some (digits, u) ->
  unit_seconds u = Some k ->
  toSeconds (Some p) = Z.min (decimal digits * k) 2592000.
Proof.
  intros E Hu. unfold toSeconds.
  destruct p as [|c r]; [discriminate|]. rewrite E.
  destruct (unit_cases u k Hu) as [[-> ->]|[[-> ->]|[[-> ->]|[-> ->]]]];
    cbn; unfold MAX_WINDOW; f_equal; lia.
Qed.

(** The resolved window is never longer than the retention window. *)
Lemma toSeconds_le_max (p : option string) : toSeconds p <= 2592000.
Proof.
  destruct p as [s|]; [|cbn; lia].
  destruct (exec_period s) as [[digits u]|] eqn:E.
  - destruct (exec_period_inv _ _ _ E) as [k [Hu _]].
    rewrite (toSeconds_of_exec _ _ _ _ E Hu). lia.
  - unfold toSeconds. destruct s; [lia|]. rewrite E. lia.
Qed.

(** C2.  A period of the form [<n><unit>], [n] a number written in
    decimal digits and [unit] one of [s], [m], [h], [d] with 1, 60,
    3600 and 86400 seconds, resolves to [min (n * unit_seconds)
    2592000]; every other input, the absent and the empty one included,
    resolves to 86400.  [toSeconds] is a total function: it answers on
    every input. *)
Theorem toSeconds_resolves :
  (forall (s : string) (n k : Z),
      period_form s n k -> toSeconds (Some s) = Z.min (n * k) 2592000)
  /\ (forall p : option string,
         (forall (s : string) (n k : Z), p = Some s -> ~ period_form s n k) ->
         toSeconds p = 86400).
Proof.
  split.
  - intros s n k F. destruct F as [digits n u k Hn Hu].
    destruct (numeral_sound digits n Hn) as [Hne [Hd <-]].
    apply unit_of_seconds in Hu.
    apply (toSeconds_of_exec _ digits u k); [|assumption].
    now apply (exec_period_form digits u k).
  - intros [s|] Hno; [|reflexivity].
    destruct (exec_period s) as [[digits u]|] eqn:E.
    + destruct (exec_period_inv _ _ _ E) as [k [_ F]].
      exfalso. exact (Hno s _ _ eq_refl F).
    + unfold toSeconds. destruct s; [reflexivity|]. now rewrite E.
Qed.

Lemma toSeconds_resolves_witness :
  toSeconds (Some "90m") = Z.min (90 * 60) 2592000
  /\ toSeconds (Some "45d") = Z.min (45 * 86400) 2592000
  /\ toSeconds (Some "1.5h") = 86400.
Proof.
  split; [|split].
  - apply (proj1 toSeconds_resolves "90m" 90 60).
    apply (period_form_intro "90" 90 "m" 60 (numeral_more "9" 9 "0" 0
             (numeral_one "9" 9 digit_9) digit_0) unit_m).
  - apply (proj1 toSeconds_resolves "45d" 45 86400).
    apply (period_form_intro "45" 45 "d" 86400 (numeral_more "4" 4 "5" 5
             (numeral_one "4" 4 digit_4) digit_5) unit_d).
  - reflexivity.
Defined.

End PeriodFacts.

(** ** Order on numbers *)

Module NumFacts.

Lemma Qltb_lt (x y : Q) : Qltb x y = true <-> (x < y)%Q.
Proof.
  unfold Qltb. rewrite negb_true_iff. split.
  - intros E. apply Qnot_le_lt. intros L.
    apply Qle_bool_iff in L. congruence.
  - intros L. destruct (Qle_bool y x) eqn:E; [|reflexivity].
    apply Qle_bool_iff in E. exfalso. exact (Qlt_not_le _ _ L E).
Qed.

Lemma leb_of_Z (a b : Z) : leb (of_Z a) (of_Z b) = true <-> a <= b.
Proof.
  simpl. rewrite Qle_bool_iff. now rewrite <- Zle_Qle.
Qed.

Lemma ltb_of_Z (a b : Z) : ltb (of_Z a) (of_Z b) = true <-> a < b.
Proof.
  simpl. rewrite Qltb_lt. now rewrite <- Zlt_Qlt.
Qed.

Lemma leb_trans (a b c : num) :
  leb a b = true -> leb b c = true -> leb a c = true.
Proof.
  destruct a as [x|[]|], b as [y|[]|], c as [z|[]|]; simpl; try congruence.
  rewrite !Qle_bool_iff. apply Qle_trans.
Qed.

(** [a < b] excludes [a >= b]. *)
Lemma ltb_not_geb (a b : num) : ltb a b = true -> geb a b = false.
Proof.
  unfold geb. destruct a as [x|[]|], b as [y|[]|]; simpl; try congruence.
  unfold Qltb. now rewrite negb_true_iff.
Qed.

Lemma ltb_leb_trans (a b c : num) :
  ltb a b = true -> leb b c = true -> ltb a c = true.
Proof.
  destruct a as [x|[]|], b as [y|[]|], c as [z|[]|]; simpl; try congruence.
  rewrite !Qltb_lt, Qle_bool_iff. apply Qlt_le_trans.
Qed.

(** A time before [now - older] is before every cutoff [now - window]
    with [window <= older]. *)
Lemma before_cutoff (t : num) (now older window : Z) :
  window <= older ->
  ltb t (of_Z (now - older)) = true ->
  geb t (of_Z (now - window)) = false.
Proof.
  intros Hw Ht. apply ltb_not_geb.
  apply (ltb_leb_trans _ _ _ Ht). apply leb_of_Z. lia.
Qed.

End NumFacts.

(** ** Property lookup in the stores *)

Module LookupFacts.

(** Under a name that is not inherited a store has its own entry or
    nothing. *)
Lemma lookup_plain {A : Type} (m : gmap string A) (key : string) :
  inherited key = false ->
  lookup m key = match m !! key with Some a => Own a | None => Missing end.
Proof.
  intros E. unfold lookup.
  destruct (String.eqb_spec key "__proto__") as [->|_]; [discriminate E|].
  now rewrite E.
Qed.

Lemma lookup_own {A : Type} (m : gmap string A) (key : string) (a : A) :
  lookup m key = Own a <-> key <> "__proto__" /\ m !! key = Some a.
Proof.
  unfold lookup. destruct (String.eqb_spec key "__proto__") as [->|Hne].
  - split; [discriminate | intros [[] _]; reflexivity].
  - destruct (m !! key) as [x|].
    + split; [intros [= ->]; auto | intros [_ [= ->]]; reflexivity].
    + destruct (inherited key); split; try discriminate; intros [_ [=]].
Qed.

(** An assignment under one name does not change what another name
    finds. *)
Lemma lookup_insert_other {A : Type} (m : gmap string A) (key other : string)
    (a : A) :
  other <> key -> lookup (<[key := a]> m) other = lookup m other.
Proof.
  intros Hne. unfold lookup. now rewrite lookup_insert_ne by congruence.
Qed.

Lemma lookup_same_entries {A : Type} (m m' : gmap string A) (key : string) :
  m' !! key = m !! key -> lookup m' key = lookup m key.
Proof. intros E. unfold lookup. now rewrite E. Qed.

End LookupFacts.

(** ** The in-memory store *)

Module StoreFacts.
Import Server Observe NumFacts LookupFacts.

Lemma nectar_get_set (ty ty' : nectar_type) (l : list sample) (n : nectar_series) :
  nectar_get ty (nectar_set ty' l n)
  = if decide (ty = ty') then l else nectar_get ty n.
Proof. destruct ty, ty'; reflexivity. Qed.

(** [nectar_each f] applies [f] to the array of each type. *)
Lemma nectar_get_each (f : nectar_type -> list sample -> list sample)
    (ty : nectar_type) (n : nectar_series) :
  nectar_get ty (nectar_each f n) = f ty (nectar_get ty n).
Proof. destruct ty; reflexivity. Qed.

Section WithPlatform.

Context `{Platform}.

Lemma samples_cachePublicMapping publicId userKey username st :
  samples (cachePublicMapping publicId userKey username st) = samples st.
Proof.
  unfold cachePublicMapping.
  destruct (present publicId), (nonempty userKey); reflexivity.
Qed.

Lemma samples_recordMemorySession userKey pid name seen honey st :
  samples (recordMemorySession userKey pid name seen honey st) = samples st.
Proof.
  unfold recordMemorySession.
  destruct (String.eqb userKey EmptyString || negb (JsNum.truthy pid));
    [reflexivity|].
  rewrite samples_cachePublicMapping.
  now destruct (lookup (memorySessions st) userKey).
Qed.

Lemma own_bucket_samples userKey st :
  samples (snd (own_bucket userKey st))
  = <[userKey := bucket_of userKey st]> (samples st).
Proof.
  unfold bucket_of, own_bucket. simpl.
  now rewrite samples_cachePublicMapping.
Qed.

Lemma bucket_of_stored userKey st bk :
  samples st !! userKey = Some bk ->
  honey (bucket_of userKey st) = honey bk
  /\ pollen (bucket_of userKey st) = pollen bk
  /\ backpack (bucket_of userKey st) = backpack bk
  /\ nectar (bucket_of userKey st) = nectar bk
  /\ currentHoney (bucket_of userKey st) = currentHoney bk
  /\ lastCapacity (bucket_of userKey st) = lastCapacity bk
  /\ username (bucket_of userKey st) = username bk
  /\ lastSeen (bucket_of userKey st) = lastSeen bk.
Proof.
  intros E. unfold bucket_of, own_bucket. rewrite E. simpl.
  destruct (String.eqb (publicId bk) EmptyString); simpl; repeat split.
Qed.

(** The series of the bucket handed out are those the key owns, and
    empty for a new key. *)
Lemma bucket_of_series userKey st :
  let old := samples st !! userKey in
  honey (bucket_of userKey st) = default [] (honey <$> old)
  /\ pollen (bucket_of userKey st) = default [] (pollen <$> old)
  /\ backpack (bucket_of userKey st) = default [] (backpack <$> old)
  /\ nectar (bucket_of userKey st)
     = default createEmptyNectarBucket (nectar <$> old).
Proof.
  unfold bucket_of, own_bucket.
  destruct (samples st !! userKey) as [bk|]; simpl;
    match goal with |- context [if ?c then _ else _] => destruct c end;
    simpl; repeat split.
Qed.

(** After [write_own] the bucket of the key is [written_bucket] of
    the bucket [own_bucket] handed out. *)
Lemma write_own_bucket now userKey b st :
  samples (write_own now userKey b st) !! userKey
  = Some (written_bucket now b (bucket_of userKey st)).
Proof.
  unfold write_own, bucket_of.
  destruct (own_bucket userKey st) as [bucket st1]. simpl.
  destruct (normalizePlayerId (body_playerId b)) as [pid|];
    [destruct (JsNum.truthy pid)|];
    rewrite ?samples_recordMemorySession; simpl;
    apply lookup_insert_eq.
Qed.

(** [write_own] for one key leaves the bucket of every other key as
    it is. *)
Lemma write_own_other now userKey b st other :
  other <> userKey ->
  samples (write_own now userKey b st) !! other = samples st !! other.
Proof.
  intros Hne. unfold write_own.
  pose proof (own_bucket_samples userKey st) as G.
  destruct (own_bucket userKey st) as [bucket st1]. simpl in G.
  assert (L : forall st2, samples st2 = <[userKey := written_bucket now b bucket]>
                            (samples (cachePublicMapping (Some (publicId bucket))
                               userKey (username (written_bucket now b bucket)) st1)) ->
                           samples st2 !! other = samples st !! other).
  { intros st2 ->. rewrite lookup_insert_ne by congruence.
    rewrite samples_cachePublicMapping, G.
    now rewrite lookup_insert_ne by congruence. }
  destruct (normalizePlayerId (body_playerId b)) as [pid|];
    [destruct (JsNum.truthy pid)|]; apply L;
    rewrite ?samples_recordMemorySession; reflexivity.
Qed.

(** What a memory read returns for a key whose bucket is [bk]. *)
Lemma read_own_stored userKey cutoff st bk :
  samples st !! userKey = Some bk ->
  let data := fst (read_own userKey cutoff st) in
  stats_honey data = List.filter (since cutoff) (honey bk)
  /\ stats_pollen data = List.filter (since cutoff) (pollen bk)
  /\ stats_backpack data
     = shapeBackpackEntries (List.filter (entry_since cutoff) (backpack bk))
  /\ (forall ty, nectar_get ty (stats_nectar data)
                 = List.filter (since cutoff) (nectar_get ty (nectar bk)))
  /\ stats_currentHoney data = or_zero (currentHoney bk).
Proof.
  intros E. unfold read_own.
  destruct (bucket_of_stored userKey st bk E)
    as (Hh & Hp & Hb & Hn & Hc & _).
  unfold bucket_of in *.
  destruct (own_bucket userKey st) as [bucket st1]. simpl in *.
  rewrite Hh, Hp, Hb, Hn, Hc. repeat split.
  intros ty. now rewrite nectar_get_each.
Qed.

(** A memory read returns only points at or after its cutoff. *)
Lemma read_own_since userKey cutoff st :
  let data := fst (read_own userKey cutoff st) in
  Forall (fun p => geb (s_t p) cutoff = true) (stats_honey data)
  /\ Forall (fun p => geb (s_t p) cutoff = true) (stats_pollen data)
  /\ Forall (fun p => geb (p_t p) cutoff = true) (stats_backpack data)
  /\ (forall ty, Forall (fun p => geb (s_t p) cutoff = true)
                   (nectar_get ty (stats_nectar data))).
Proof.
  unfold read_own.
  destruct (own_bucket userKey st) as [bucket st1]. simpl.
  assert (F : forall l, Forall (fun p => geb (s_t p) cutoff = true)
                          (List.filter (since cutoff) l)).
  { intros l. apply List.Forall_forall. intros p Hp.
    apply List.filter_In in Hp. exact (proj2 Hp). }
  repeat split; try apply F.
  - unfold shapeBackpackEntries. apply List.Forall_forall. intros p Hp.
    apply List.in_map_iff in Hp. destruct Hp as (e & <- & He).
    apply List.filter_In in He. exact (proj2 He).
  - intros ty. rewrite nectar_get_each. apply F.
Qed.

(** Where [getBucket] hands out a bucket, the write and the read run
    on it to their end. *)
Lemma getBucket_plain userKey st :
  inherited userKey = false ->
  getBucket userKey st = Some (own_bucket userKey st).
Proof.
  intros E. unfold getBucket. rewrite (lookup_plain _ _ E).
  now destruct (samples st !! userKey).
Qed.

Lemma getBucket_stored userKey st bk :
  userKey <> "__proto__" -> samples st !! userKey = Some bk ->
  getBucket userKey st = Some (own_bucket userKey st).
Proof.
  intros Hne E. unfold getBucket.
  now rewrite (proj2 (lookup_own (samples st) userKey bk) (conj Hne E)).
Qed.

Lemma getBucket_inv userKey st r :
  getBucket userKey st = Some r ->
  r = own_bucket userKey st /\ userKey <> "__proto__".
Proof.
  unfold getBucket, lookup.
  destruct (String.eqb_spec userKey "__proto__") as [->|Hne]; [discriminate|].
  destruct (samples st !! userKey); [|destruct (inherited userKey)];
    intros [= <-]; auto.
Qed.

Lemma writeMemory_plain now userKey b st :
  inherited userKey = false ->
  writeMemory now userKey b st = Some (write_own now userKey b st).
Proof. intros E. unfold writeMemory. now rewrite (getBucket_plain _ _ E). Qed.

Lemma writeMemory_inv now userKey b st st' :
  writeMemory now userKey b st = Some st' ->
  st' = write_own now userKey b st /\ userKey <> "__proto__".
Proof.
  unfold writeMemory. destruct (getBucket userKey st) as [r|] eqn:E;
    [|discriminate].
  intros [= <-]. split; [reflexivity|].
  exact (proj2 (getBucket_inv _ _ _ E)).
Qed.

Lemma collectMemoryStats_plain userKey cutoff st :
  inherited userKey = false ->
  collectMemoryStats userKey cutoff st = Some (read_own userKey cutoff st).
Proof.
  intros E. unfold collectMemoryStats. now rewrite (getBucket_plain _ _ E).
Qed.

Lemma collectMemoryStats_stored userKey cutoff st bk :
  userKey <> "__proto__" -> samples st !! userKey = Some bk ->
  collectMemoryStats userKey cutoff st = Some (read_own userKey cutoff st).
Proof.
  intros Hne E. unfold collectMemoryStats.
  now rewrite (getBucket_stored _ _ _ Hne E).
Qed.

Lemma collectMemoryStats_inv userKey cutoff st r :
  collectMemoryStats userKey cutoff st = Some r ->
  r = read_own userKey cutoff st.
Proof.
  unfold collectMemoryStats. destruct (getBucket userKey st); [|discriminate].
  now intros [= <-].
Qed.

(** [writeMemory] for a key that is no inherited name runs to its end
    and leaves what every other key finds in [samples] as it is. *)
Theorem writeMemory_other now userKey b st :
  inherited userKey = false ->
  exists st',
    writeMemory now userKey b st = Some st'
    /\ forall other, other <> userKey ->
                     lookup (samples st') other = lookup (samples st) other.
Proof.
  intros E. exists (write_own now userKey b st). split.
  - now apply writeMemory_plain.
  - intros other Hne. apply lookup_same_entries.
    now apply write_own_other.
Qed.

End WithPlatform.

Lemma writeMemory_other_witness :
  exists st',
    @writeMemory Examples.plain_platform 200 "w" (Examples.honey_at 1 200)
      Examples.stored_at_100 = Some st'
    /\ lookup (samples st') "u"
       = Own {| honey := [Sample (of_Z 100) (of_Z 7)]; pollen := [];
                backpack := []; nectar := createEmptyNectarBucket;
                currentHoney := of_Z 0; lastCapacity := of_Z 0;
                username := None; publicId := "u"; lastSeen := of_Z 100 |}.
Proof.
  destruct (@writeMemory_other Examples.plain_platform 200 "w"
              (Examples.honey_at 1 200) Examples.stored_at_100 eq_refl)
    as (st' & E & O).
  exists st'. split; [exact E|].
  rewrite (O "u") by discriminate. vm_compute. reflexivity.
Defined.

End StoreFacts.

(** ** Ingestion into the in-memory store *)

Module IngestFacts.
Import Server Observe NumFacts StoreFacts.

Lemma filter_snoc {A : Type} (f : A -> bool) (l : list A) (x : A) :
  List.filter f (l ++ [x])
  = if f x then List.filter f l ++ [x] else List.filter f l.
Proof.
  rewrite List.filter_app. simpl.
  destruct (f x); [reflexivity | apply app_nil_r].
Qed.

Lemma floor_before (n c : num) : ltb n c = true -> ltb (floor n) c = true.
Proof.
  destruct n as [q|[]|], c as [y|[]|]; simpl; try congruence.
  rewrite !Qltb_lt. intros L.
  apply Qle_lt_trans with (y := q); [apply Qfloor_le | exact L].
Qed.

Lemma finite_is_number (x : jsval) (n : num) :
  finite_number x = Some n -> is_number x = true.
Proof. destruct x; simpl; congruence. Qed.

Lemma hasNectar_carries (b : ingest_body) (ty : nectar_type) (x : num) :
  finite_number (get (body_nectar b) (type_name ty)) = Some x ->
  hasNectar b = true.
Proof.
  intros E. unfold hasNectar.
  assert (O : Js.truthy (body_nectar b) && is_object (body_nectar b) = true).
  { destruct (body_nectar b); simpl in *; congruence. }
  rewrite O, andb_true_l. apply List.existsb_exists. exists ty. split.
  - destruct ty; simpl; tauto.
  - now rewrite E.
Qed.

Lemma hasNectar_inv (b : ingest_body) :
  hasNectar b = true ->
  exists ty x, finite_number (get (body_nectar b) (type_name ty)) = Some x.
Proof.
  unfold hasNectar. rewrite !andb_true_iff. intros [_ E].
  apply List.existsb_exists in E. destruct E as (ty & _ & E).
  exists ty.
  destruct (finite_number (get (body_nectar b) (type_name ty))) as [x|];
    [now exists x | discriminate].
Qed.

(** The guard of the 400 answer is the negation of [has_metric]. *)
Lemma no_metrics_false_iff (b : ingest_body) :
  no_metrics b = false <-> has_metric b.
Proof.
  unfold no_metrics, has_metric. split.
  - intros E.
    destruct (is_number (body_honey b)); [tauto|].
    destruct (is_number (body_pollen b)); [tauto|].
    destruct (is_number (body_backpack b)); [tauto|].
    destruct (is_number (body_currentHoney b)); [tauto|].
    simpl in E. apply negb_false_iff in E.
    right; right; right; right. now apply hasNectar_inv.
  - intros [E|[E|[E|[E|(ty & x & E)]]]]; rewrite ?E;
      rewrite ?(hasNectar_carries b ty x E); simpl;
      rewrite ?andb_false_r; reflexivity.
Qed.

Lemma no_numeric_field_no_metrics (b : ingest_body) :
  no_numeric_field b -> no_metrics b = true.
Proof.
  intros (Hh & Hp & Hb & Hc & Hn).
  destruct (no_metrics b) eqn:E; [reflexivity|]. exfalso.
  apply no_metrics_false_iff in E.
  destruct E as [E|[E|[E|[E|(ty & x & E)]]]]; try congruence.
  apply finite_is_number in E. rewrite Hn in E. discriminate.
Qed.

Lemma carries_has_metric (b : ingest_body) (m : metric) (x : num) :
  carries b m x -> has_metric b.
Proof.
  unfold has_metric. destruct m; simpl; intros E.
  - left. eapply finite_is_number, E.
  - right; left. eapply finite_is_number, E.
  - right; right; left. eapply finite_is_number, E.
  - right; right; right; right. eauto.
Qed.

Lemma backpack_entry_point t x cap lastCap :
  e_t (fst (backpack_entry t x cap lastCap)) = t
  /\ e_v (fst (backpack_entry t x cap lastCap)) = x.
Proof.
  unfold backpack_entry.
  destruct (finite_number cap) as [c|]; cbn [fst];
    match goal with |- context [if ?c then _ else _] => destruct c end;
    split; reflexivity.
Qed.

Section WithPlatform.

Context `{Platform}.

(** The series of the bucket [write_own] leaves: what was there
    and what the body adds, cut at the retention window. *)
Lemma written_series now b bk :
  let t := event_time now b in
  let cutoff := of_Z (now - RETENTION) in
  honey (written_bucket now b bk)
  = List.filter (since cutoff) (push_finite t (body_honey b) (honey bk))
  /\ pollen (written_bucket now b bk)
     = List.filter (since cutoff) (push_finite t (body_pollen b) (pollen bk))
  /\ backpack (written_bucket now b bk)
     = List.filter (entry_since cutoff)
         (match finite_number (body_backpack b) with
          | Some x =>
              backpack bk
              ++ [fst (backpack_entry t x (body_backpackCapacity b)
                         (lastCapacity bk))]
          | None => backpack bk
          end)
  /\ (forall ty,
         nectar_get ty (nectar (written_bucket now b bk))
         = List.filter (since cutoff)
             (if hasNectar b
              then push_finite t (get (body_nectar b) (type_name ty))
                     (nectar_get ty (nectar bk))
              else nectar_get ty (nectar bk))).
Proof.
  unfold written_bucket.
  destruct (finite_number (body_backpack b)) as [x|].
  - destruct (backpack_entry (event_time now b) x (body_backpackCapacity b)
                (lastCapacity bk)) as [entry cap].
    simpl. repeat split. intros ty. rewrite nectar_get_each.
    destruct (hasNectar b); [now rewrite nectar_get_each | reflexivity].
  - simpl. repeat split. intros ty. rewrite nectar_get_each.
    destruct (hasNectar b); [now rewrite nectar_get_each | reflexivity].
Qed.

Lemma written_scalars now b bk :
  lastSeen (written_bucket now b bk) = event_time now b
  /\ username (written_bucket now b bk)
     = match sanitizeUsername (body_username b) with
       | Some n => Some n
       | None => username bk
       end
  /\ currentHoney (written_bucket now b bk)
     = match body_currentHoney b with
       | JNum n => n
       | _ => currentHoney bk
       end
  /\ lastCapacity (written_bucket now b bk)
     = match finite_number (body_backpackCapacity b) with
       | Some c => c
       | None => lastCapacity bk
       end
  /\ publicId (written_bucket now b bk) = publicId bk.
Proof.
  unfold written_bucket.
  destruct (finite_number (body_backpack b)) as [x|].
  - unfold backpack_entry.
    destruct (finite_number (body_backpackCapacity b)) as [c|];
      simpl; repeat split.
  - simpl. repeat split.
Qed.

(** In memory mode an ingest with a metric is as good as its
    [writeMemory]: answered 200 where that runs to its end, by the
    error page where it throws. *)
Lemma ingest_memory raises cfg now userKey b st d :
  USE_DB cfg = false -> has_metric b ->
  ingest raises cfg now userKey b st d
  = (match writeMemory now userKey b st with
     | Some st' => Sent (json (IngestOk "memory"), st')
     | None => Thrown (Some error_page)
     end, d).
Proof.
  intros Hdb Hm. unfold ingest.
  apply no_metrics_false_iff in Hm. rewrite Hm, Hdb. simpl.
  now destruct (writeMemory now userKey b st).
Qed.

Lemma ingest_memory_plain raises cfg now userKey b st d :
  USE_DB cfg = false -> has_metric b -> inherited userKey = false ->
  ingest raises cfg now userKey b st d
  = (Sent (json (IngestOk "memory"), write_own now userKey b st), d).
Proof.
  intros Hdb Hm Hk. rewrite (ingest_memory _ _ _ _ _ _ _ Hdb Hm).
  now rewrite (writeMemory_plain _ _ _ _ Hk).
Qed.

End WithPlatform.

End IngestFacts.

(** ** Round trip and retention *)

Module RetentionFacts.
Import Server Observe NumFacts LookupFacts StoreFacts IngestFacts.

Lemma in_filter_snoc {A : Type} (f : A -> bool) (l : list A) (x : A) :
  f x = true -> In x (List.filter f (l ++ [x])).
Proof.
  intros E. apply List.filter_In. split; [|exact E].
  apply List.in_or_app. right. now left.
Qed.

Lemma push_finite_carried t x l v :
  finite_number x = Some v -> push_finite t x l = l ++ [Sample t v].
Proof. intros E. unfold push_finite. now rewrite E. Qed.

(** A stats answer that only holds points at or after [cutoff] holds
    no point of an earlier time. *)
Lemma since_excludes (data : stats) (cutoff : num) :
  Forall (fun p => geb (s_t p) cutoff = true) (stats_honey data) ->
  Forall (fun p => geb (s_t p) cutoff = true) (stats_pollen data) ->
  Forall (fun p => geb (p_t p) cutoff = true) (stats_backpack data) ->
  (forall ty, Forall (fun p => geb (s_t p) cutoff = true)
                (nectar_get ty (stats_nectar data))) ->
  forall m t v, geb t cutoff = false -> ~ series_has data m t v.
Proof.
  intros Hh Hp Hb Hn m t v Hlt Hin.
  rewrite List.Forall_forall in Hh, Hp, Hb.
  destruct m as [| | |ty]; simpl in Hin.
  - apply Hh in Hin. simpl in Hin. congruence.
  - apply Hp in Hin. simpl in Hin. congruence.
  - destruct Hin as [pct Hin]. apply Hb in Hin. simpl in Hin. congruence.
  - specialize (Hn ty). rewrite List.Forall_forall in Hn.
    apply Hn in Hin. simpl in Hin. congruence.
Qed.

Section WithPlatform.

Context `{Platform}.

Lemma memory_read_excludes userKey cutoff st m t v :
  geb t cutoff = false ->
  ~ series_has (fst (read_own userKey cutoff st)) m t v.
Proof.
  destruct (read_own_since userKey cutoff st) as (Hh & Hp & Hb & Hn).
  now apply since_excludes.
Qed.

(** A sample the body carries, at an event time inside the retention
    window, is in the bucket [write_own] leaves and in every read
    whose cutoff is not after it. *)
Lemma written_then_read now userKey b st m v cutoff :
  carries b m v ->
  geb (event_time now b) (of_Z (now - RETENTION)) = true ->
  geb (event_time now b) cutoff = true ->
  series_has
    (fst (read_own userKey cutoff (write_own now userKey b st)))
    m (event_time now b) v.
Proof.
  intros Hc Hret Hcut.
  destruct (read_own_stored userKey cutoff _ _
              (write_own_bucket now userKey b st))
    as (Eh & Ep & Eb & En & _).
  destruct (written_series now b (bucket_of userKey st))
    as (Wh & Wp & Wb & Wn).
  cbv zeta in *.
  destruct m as [| | |ty]; unfold series_has, carries in *.
  - rewrite Eh, Wh. apply List.filter_In. split; [|exact Hcut].
    rewrite (push_finite_carried _ _ _ _ Hc). now apply in_filter_snoc.
  - rewrite Ep, Wp. apply List.filter_In. split; [|exact Hcut].
    rewrite (push_finite_carried _ _ _ _ Hc). now apply in_filter_snoc.
  - rewrite Eb, Wb, Hc.
    pose proof (backpack_entry_point (event_time now b) v
                  (body_backpackCapacity b)
                  (lastCapacity (bucket_of userKey st))) as [Et Ev].
    set (entry := fst (backpack_entry (event_time now b) v
                         (body_backpackCapacity b)
                         (lastCapacity (bucket_of userKey st)))) in *.
    eexists. unfold shapeBackpackEntries. apply List.in_map_iff.
    exists entry. rewrite Et, Ev. split; [reflexivity|].
    apply List.filter_In. split.
    + apply in_filter_snoc. unfold entry_since. now rewrite Et.
    + unfold entry_since. now rewrite Et.
  - rewrite En, Wn, (hasNectar_carries b ty v Hc).
    apply List.filter_In. split; [|exact Hcut].
    rewrite (push_finite_carried _ _ _ _ Hc). now apply in_filter_snoc.
Qed.

(** A read through [GET /api/stats] of a process without database,
    for a key that owns a bucket. *)
Lemma get_stats_stored raises cfg now h period userKey st d bk :
  USE_DB cfg = false ->
  requireReadKey cfg h = Next userKey ->
  userKey <> "__proto__" ->
  samples st !! userKey = Some bk ->
  let cutoff :=
    of_Z (now - Period.toSeconds (Some (default "24h" (present period)))) in
  get_stats raises cfg now h period st d
  = Sent (json (StatsBody (fst (read_own userKey cutoff st))),
          snd (read_own userKey cutoff st)).
Proof.
  intros Hdb Hr Hne E cutoff. unfold get_stats, sendStatsResponse.
  rewrite Hr, Hdb. simpl negb. cbv iota. unfold answer_from_memory.
  fold cutoff. rewrite (collectMemoryStats_stored _ cutoff _ _ Hne E).
  now destruct (read_own userKey cutoff st).
Qed.


Lemma filter_push_stale cutoff t x l :
  geb t cutoff = false ->
  List.filter (since cutoff) (push_finite t x l)
  = List.filter (since cutoff) l.
Proof.
  intros E. unfold push_finite. destruct (finite_number x); [|reflexivity].
  rewrite filter_snoc. unfold since at 1. simpl. now rewrite E.
Qed.

Lemma earlier_getBucket_plain userKey (stored : gmap string Earlier.bucket) :
  inherited userKey = false ->
  Earlier.getBucket userKey stored
  = Some (default Earlier.new_bucket (stored !! userKey),
          <[userKey := default Earlier.new_bucket (stored !! userKey)]> stored).
Proof.
  intros E. unfold Earlier.getBucket. rewrite (lookup_plain _ _ E).
  destruct (stored !! userKey) as [bk|] eqn:L; simpl; [|reflexivity].
  now rewrite insert_id.
Qed.

(** C10, amended.  In a process without database, an ingest with a
    metric, for a key that is no inherited property name, whose
    client-supplied [at] is more than 30 days before the server's
    clock answers 200 with mode memory and keeps none of the samples
    it pushes: every series of the bucket (honey, pollen, backpack,
    each nectar type) is afterwards the series from before the call
    cut at the retention window, so points of the bucket that were
    themselves older than the window go with it.  A numeric
    currentHoney of the body is stored.  In the current server
    [lastSeen] becomes the event time and a username the body
    supplies is stored; the bucket of the earlier version has neither
    field. *)
Theorem stale_ingest_only_prunes raises cfg now userKey b st d at_ :
  USE_DB cfg = false ->
  has_metric b ->
  inherited userKey = false ->
  body_at b = JNum at_ ->
  ltb at_ (of_Z (now - 2592000)) = true ->
  let cutoff := of_Z (now - 2592000) in
  (let old := samples st !! userKey in
   exists st' bk',
     ingest raises cfg now userKey b st d
     = (Sent (json (IngestOk "memory"), st'), d)
     /\ samples st' !! userKey = Some bk'
     /\ honey bk' = List.filter (since cutoff) (default [] (honey <$> old))
     /\ pollen bk' = List.filter (since cutoff) (default [] (pollen <$> old))
     /\ backpack bk'
        = List.filter (entry_since cutoff) (default [] (backpack <$> old))
     /\ (forall ty,
            nectar_get ty (nectar bk')
            = List.filter (since cutoff)
                (nectar_get ty
                   (default createEmptyNectarBucket (nectar <$> old))))
     /\ lastSeen bk' = floor at_
     /\ (forall name, sanitizeUsername (body_username b) = Some name ->
                      username bk' = Some name)
     /\ (forall n, body_currentHoney b = JNum n -> currentHoney bk' = n))
  /\ (forall stored : gmap string Earlier.bucket,
         let old := stored !! userKey in
         exists stored' bk',
           Earlier.ingest_in_memory now userKey b stored
           = Sent (json (IngestOk "memory"), stored')
           /\ stored' !! userKey = Some bk'
           /\ Earlier.honey bk'
              = List.filter (since cutoff) (default [] (Earlier.honey <$> old))
           /\ Earlier.pollen bk'
              = List.filter (since cutoff) (default [] (Earlier.pollen <$> old))
           /\ Earlier.backpack bk'
              = List.filter (since cutoff)
                  (default [] (Earlier.backpack <$> old))
           /\ (forall ty,
                  nectar_get ty (Earlier.nectar bk')
                  = List.filter (since cutoff)
                      (nectar_get ty
                         (default createEmptyNectarBucket
                            (Earlier.nectar <$> old))))
           /\ (forall n, body_currentHoney b = JNum n ->
                         Earlier.currentHoney bk' = n)).
Proof.
  intros Hdb Hm Hk Hat Hold. change 2592000 with RETENTION in *.
  intros cutoff. subst cutoff.
  set (cutoff := of_Z (now - RETENTION)) in *.
  assert (Et : event_time now b = floor at_)
    by (unfold event_time; now rewrite Hat).
  assert (Hstale : geb (event_time now b) cutoff = false)
    by (rewrite Et; apply ltb_not_geb, floor_before, Hold).
  split.
  - intros old. subst old.
    destruct (bucket_of_series userKey st) as (Oh & Op & Ob & On).
    cbv zeta in Oh, Op, Ob, On. rewrite <- Oh, <- Op, <- Ob, <- On.
    set (old := bucket_of userKey st).
    exists (write_own now userKey b st), (written_bucket now b old).
    destruct (written_series now b old) as (Wh & Wp & Wb & Wn).
    destruct (written_scalars now b old) as (Ws & Wu & Wc & _).
    cbv zeta in Wh, Wp, Wb, Wn. fold cutoff in Wh, Wp, Wb, Wn.
    split; [now apply ingest_memory_plain|].
    split; [apply write_own_bucket|].
    split; [now rewrite Wh, filter_push_stale|].
    split; [now rewrite Wp, filter_push_stale|].
    split.
    { rewrite Wb. destruct (finite_number (body_backpack b)) as [x|];
        [|reflexivity].
      assert (Hent : entry_since cutoff
                       (fst (backpack_entry (event_time now b) x
                               (body_backpackCapacity b) (lastCapacity old)))
                     = false).
      { unfold entry_since.
        now rewrite (proj1 (backpack_entry_point _ _ _ _)). }
      now rewrite filter_snoc, Hent. }
    split.
    { intros ty. rewrite Wn. destruct (hasNectar b); [|reflexivity].
      now apply filter_push_stale. }
    split; [now rewrite Ws|].
    split.
    + intros name E. now rewrite Wu, E.
    + intros n E. now rewrite Wc, E.
  - intros stored old. subst old.
    unfold Earlier.ingest_in_memory, Earlier.writeMemory.
    apply no_metrics_false_iff in Hm. rewrite Hm.
    rewrite (earlier_getBucket_plain _ _ Hk).
    set (old := default Earlier.new_bucket (stored !! userKey)).
    assert (Oh : Earlier.honey old
                 = default [] (Earlier.honey <$> stored !! userKey))
      by (unfold old; now destruct (stored !! userKey)).
    assert (Op : Earlier.pollen old
                 = default [] (Earlier.pollen <$> stored !! userKey))
      by (unfold old; now destruct (stored !! userKey)).
    assert (Ob : Earlier.backpack old
                 = default [] (Earlier.backpack <$> stored !! userKey))
      by (unfold old; now destruct (stored !! userKey)).
    assert (On : Earlier.nectar old
                 = default createEmptyNectarBucket
                     (Earlier.nectar <$> stored !! userKey))
      by (unfold old; now destruct (stored !! userKey)).
    rewrite <- Oh, <- Op, <- Ob, <- On.
    eexists _, _. split; [reflexivity|].
    split; [apply lookup_insert_eq|].
    unfold Earlier.written_bucket. cbn [Earlier.honey Earlier.pollen
      Earlier.backpack Earlier.nectar Earlier.currentHoney].
    change (86400 * 30) with RETENTION. fold cutoff.
    split; [now apply filter_push_stale|].
    split; [now apply filter_push_stale|].
    split; [now apply filter_push_stale|].
    split.
    + intros ty. rewrite nectar_get_each.
      destruct (hasNectar b); [|reflexivity].
      rewrite nectar_get_each. now apply filter_push_stale.
    + intros n E. now rewrite E.
Qed.

End WithPlatform.

Import Examples.


Lemma stale_ingest_only_prunes_witness :
  exists st' bk',
    @ingest plain_platform never memory_cfg 2600000 "u" (honey_at 5 50)
      stored_at_100 empty_database
    = (Sent (json (IngestOk "memory"), st'), empty_database)
    /\ samples st' !! "u" = Some bk'
    /\ honey bk' = []
    /\ lastSeen bk' = of_Z 50.
Proof.
  destruct (proj1 (@stale_ingest_only_prunes plain_platform never memory_cfg
                     2600000 "u" (honey_at 5 50) stored_at_100 empty_database
                     (of_Z 50) eq_refl (or_introl eq_refl) eq_refl eq_refl
                     eq_refl))
    as (st' & bk' & E & L & Hh & _ & _ & _ & Hs & _).
  exists st', bk'. split; [exact E|]. split; [exact L|].
  split; [rewrite Hh | rewrite Hs]; reflexivity.
Defined.

(** C10 as stated fails: the bucket of "u" holds the honey point
    (100, 7), written when the clock read 100; at clock reading
    2600000 an ingest arrives with honey 5 and [at] 50, more than 30
    days back.  The honey series is not left as it was: it is empty
    afterwards. *)
Lemma stale_ingest_changes_series :
  let served :=
    @ingest plain_platform never memory_cfg 2600000 "u" (honey_at 5 50)
      stored_at_100 empty_database in
  ltb (of_Z 50) (of_Z (2600000 - 2592000)) = true
  /\ honey <$> samples stored_at_100 !! "u" = Some [Sample (of_Z 100) (of_Z 7)]
  /\ exists st',
      served = (Sent (json (IngestOk "memory"), st'), empty_database)
      /\ honey <$> samples st' !! "u" = Some [].
Proof.
  cbv zeta. split; [reflexivity|]. split; [vm_compute; reflexivity|].
  exists (@write_own plain_platform 2600000 "u" (honey_at 5 50) stored_at_100).
  split; vm_compute; reflexivity.
Qed.

End RetentionFacts.

(** ** Validation and the fallback of [POST /api/ingest] *)

Module IngestAnswers.
Import Server Observe NumFacts LookupFacts StoreFacts IngestFacts.
Import RetentionFacts.

Section WithPlatform.

Context `{Platform}.

Lemma recordDbSession_samples raises userKey pid name seen honey st d :
  samples (fst (recordDbSession raises userKey pid name seen honey st d))
  = samples st.
Proof.
  unfold recordDbSession.
  destruct (getSessionPublicId userKey pid) as [publicId|]; [|reflexivity].
  destruct (raises _); [reflexivity|].
  simpl. apply samples_cachePublicMapping.
Qed.

Lemma rows_empty (rows : list sample_row) :
  Nat.eqb (length rows) 0 = true <-> rows = [].
Proof. destruct rows; simpl; split; congruence. Qed.

(** The [try] block ends without an exception exactly when none of
    its statements raises, and it leaves every bucket as it was. *)
Lemma ingest_durable_outcome raises now userKey b st d :
  let '(ok, st1, _) := ingest_durable raises now userKey b st d in
  (ok = false <-> durable_raises raises now userKey b)
  /\ samples st1 = samples st.
Proof.
  unfold ingest_durable, durable_raises.
  set (t := event_time now b).
  set (rows := inserts userKey t b).
  destruct (raises (InsertUser userKey (getPublicId userKey))) eqn:R1.
  { split; [tauto | reflexivity]. }
  destruct (Nat.eqb (length rows) 0) eqn:R0; simpl negb; cbn [andb].
  - apply rows_empty in R0.
    destruct (raises (UpdateUser _ t _ userKey)) eqn:R3.
    { split; [tauto | apply samples_cachePublicMapping]. }
    destruct (normalizePlayerId (body_playerId b)) as [pid|];
      [destruct (JsNum.truthy pid)|].
    + destruct (recordDbSession _ _ _ _ _ _ _ _) as [st2 d2] eqn:S.
      split.
      * split; [discriminate|].
        intros [?|[[? _]|?]]; congruence.
      * pose proof (recordDbSession_samples raises userKey pid
                      (sanitizeUsername (body_username b)) t
                      (number_or_null (body_currentHoney b))
                      (cachePublicMapping (Some (getPublicId userKey)) userKey
                         (sanitizeUsername (body_username b)) st)
                      (run (UpdateUser (number_or_null (body_currentHoney b)) t
                              (sanitizeUsername (body_username b)) userKey)
                           (run (InsertUser userKey (getPublicId userKey)) d)))
          as E.
        rewrite S in E. simpl in E. rewrite E.
        apply samples_cachePublicMapping.
    + split; [|apply samples_cachePublicMapping].
      split; [discriminate|]. intros [?|[[? _]|?]]; congruence.
    + split; [|apply samples_cachePublicMapping].
      split; [discriminate|]. intros [?|[[? _]|?]]; congruence.
  - assert (Hne : rows <> []).
    { intros E. apply rows_empty in E. congruence. }
    destruct (raises (InsertSamples rows)) eqn:R2.
    { split; [tauto | apply samples_cachePublicMapping]. }
    destruct (raises (UpdateUser _ t _ userKey)) eqn:R3.
    { split; [tauto | apply samples_cachePublicMapping]. }
    destruct (normalizePlayerId (body_playerId b)) as [pid|];
      [destruct (JsNum.truthy pid)|].
    + destruct (recordDbSession _ _ _ _ _ _ _ _) as [st2 d2] eqn:S.
      split.
      * split; [discriminate|].
        intros [?|[[_ ?]|?]]; congruence.
      * pose proof (recordDbSession_samples raises userKey pid
                      (sanitizeUsername (body_username b)) t
                      (number_or_null (body_currentHoney b))
                      (cachePublicMapping (Some (getPublicId userKey)) userKey
                         (sanitizeUsername (body_username b)) st)
                      (run (UpdateUser (number_or_null (body_currentHoney b)) t
                              (sanitizeUsername (body_username b)) userKey)
                           (run (InsertSamples rows)
                              (run (InsertUser userKey (getPublicId userKey)) d))))
          as E.
        rewrite S in E. simpl in E. rewrite E.
        apply samples_cachePublicMapping.
    + split; [|apply samples_cachePublicMapping].
      split; [discriminate|]. intros [?|[[_ ?]|?]]; congruence.
    + split; [|apply samples_cachePublicMapping].
      split; [discriminate|]. intros [?|[[_ ?]|?]]; congruence.
Qed.


(** An ingest request that [requireWriteKey] lets through, that
    carries a recognised metric field and whose key is no inherited
    property name is answered with status 200 and [{ ok: true, mode }]:
    mode memory without the durable store, mysql when no statement of
    the durable write raises, memory-fallback when one does.  In the
    modes memory and memory-fallback the in-memory write is applied: a
    memory read of the key that follows holds every sample the body
    carries whose time is inside the retention window and not before
    the cutoff of the read. *)
Theorem ingest_answers_plain_key raises cfg now h userKey b st d :
  requireWriteKey cfg h = Next userKey ->
  has_metric b ->
  inherited userKey = false ->
  exists mode st' d',
    post_ingest raises cfg now h b st d
    = (Sent ({| status := 200; payload := IngestOk mode |}, st'), d')
    /\ (USE_DB cfg = false -> mode = "memory")
    /\ (USE_DB cfg = true -> durable_raises raises now userKey b ->
        mode = "memory-fallback")
    /\ (USE_DB cfg = true -> ~ durable_raises raises now userKey b ->
        mode = "mysql")
    /\ (mode <> "mysql" ->
        forall m v cutoff,
          carries b m v ->
          geb (event_time now b) (of_Z (now - 2592000)) = true ->
          geb (event_time now b) cutoff = true ->
          exists data st'',
            collectMemoryStats userKey cutoff st' = Some (data, st'')
            /\ series_has data m (event_time now b) v).
Proof.
  intros Hauth Hm Hk.
  assert (R : forall st0 m v cutoff,
             carries b m v ->
             geb (event_time now b) (of_Z (now - 2592000)) = true ->
             geb (event_time now b) cutoff = true ->
             exists data st'',
               collectMemoryStats userKey cutoff (write_own now userKey b st0)
               = Some (data, st'')
               /\ series_has data m (event_time now b) v).
  { intros st0 m v cutoff Hc Hret Hcut.
    rewrite (collectMemoryStats_plain _ _ _ Hk).
    pose proof (written_then_read now userKey b st0 m v cutoff Hc Hret Hcut)
      as G.
    destruct (read_own userKey cutoff (write_own now userKey b st0))
      as [data st''].
    now exists data, st''. }
  apply no_metrics_false_iff in Hm.
  unfold post_ingest. rewrite Hauth. unfold ingest. rewrite Hm.
  destruct (USE_DB cfg) eqn:Hdb; simpl negb; cbv iota.
  - pose proof (ingest_durable_outcome raises now userKey b st d) as O.
    destruct (ingest_durable raises now userKey b st d) as [[ok st1] d1].
    destruct O as [Ok Es]. destruct ok.
    + exists "mysql", st1, d1.
      split; [reflexivity|]. split; [discriminate|].
      split; [intros _ Hr; apply Ok in Hr; discriminate|].
      split; [reflexivity | congruence].
    + rewrite (writeMemory_plain _ _ _ _ Hk).
      exists "memory-fallback", (write_own now userKey b st1), d1.
      split; [reflexivity|]. split; [discriminate|].
      split; [reflexivity|].
      split; [intros _ Hn; exfalso; apply Hn; now apply Ok|].
      intros _. apply R.
  - rewrite (writeMemory_plain _ _ _ _ Hk).
    exists "memory", (write_own now userKey b st), d.
    split; [reflexivity|]. split; [reflexivity|].
    split; [discriminate|]. split; [discriminate|].
    intros _. apply R.
Qed.

End WithPlatform.

Import Examples.


Lemma ingest_answers_plain_key_witness :
  exists st' d' data st'',
    @post_ingest plain_platform always mysql_cfg 1500 writer
      (honey_at 10 1000) initial empty_database
    = (Sent ({| status := 200; payload := IngestOk "memory-fallback" |}, st'),
       d')
    /\ @collectMemoryStats plain_platform "u" (of_Z 900) st'
       = Some (data, st'')
    /\ series_has data OfHoney (of_Z 1000) (of_Z 10).
Proof.
  destruct (@ingest_answers_plain_key plain_platform always mysql_cfg 1500 writer
              "u" (honey_at 10 1000) initial empty_database eq_refl
              (or_introl eq_refl) eq_refl)
    as (mode & st' & d' & E & _ & F & _ & R).
  rewrite (F eq_refl (or_introl eq_refl)) in *.
  destruct (R ltac:(discriminate) OfHoney (of_Z 10) (of_Z 900) eq_refl eq_refl
              eq_refl) as (data & st'' & C & S).
  now exists st', d', data, st''.
Defined.

(** C6 fails for a writer that names itself [constructor], with the
    body [{ honey: 10, at: 1000 }], a request [requireWriteKey] lets
    through and that carries a metric.  Without the durable store the
    in-memory write throws and the request is answered by the error
    page, status 500.  With the durable store and a failing statement
    the in-memory write of the fallback throws as well, and the
    request gets no answer at all. *)
Theorem ingest_of_inherited_key_fails :
  requireWriteKey memory_cfg constructor_writer = Next "constructor"
  /\ has_metric (honey_at 10 1000)
  /\ @post_ingest plain_platform never memory_cfg 1500 constructor_writer
       (honey_at 10 1000) initial empty_database
     = (Thrown (Some {| status := 500; payload := ErrorPage |}),
        empty_database)
  /\ @durable_raises plain_platform always 1500 "constructor" (honey_at 10 1000)
  /\ @post_ingest plain_platform always mysql_cfg 1500 constructor_writer
       (honey_at 10 1000) initial empty_database
     = (Thrown None, empty_database).
Proof.
  split; [reflexivity|]. split; [left; reflexivity|].
  split; [reflexivity|]. split; [left; reflexivity|]. reflexivity.
Qed.

End IngestAnswers.

(** ** Reads of the statistics *)

Module StatsFacts.
Import Server Observe NumFacts LookupFacts StoreFacts RetentionFacts.

Lemma in_insert_by_t (r x : sample_row) (sorted : list sample_row) :
  In r (insert_by_t x sorted) -> r = x \/ In r sorted.
Proof.
  induction sorted as [|y rest IH]; simpl.
  - intros [<-|[]]. now left.
  - destruct (ltb (row_t x) (row_t y)); simpl.
    + intros [<-|[<-|Hin]]; auto.
    + intros [<-|Hin]; auto. destruct (IH Hin); auto.
Qed.

Lemma in_order_by_t (r : sample_row) (rows : list sample_row) :
  In r (order_by_t rows) -> In r rows.
Proof.
  unfold order_by_t.
  assert (G : forall acc, In r (fold_left (fun sorted x => insert_by_t x sorted)
                                  rows acc) -> In r rows \/ In r acc).
  { induction rows as [|x rest IH]; simpl; intros acc Hin; [now right|].
    destruct (IH _ Hin) as [Hr|Hi]; [auto|].
    destruct (in_insert_by_t _ _ _ Hi) as [->|Ha]; auto. }
  intros Hin. destruct (G [] Hin) as [Hr|[]]. exact Hr.
Qed.

Lemma select_samples_since userKey cutoff d :
  Forall (fun r => geb (row_t r) cutoff = true) (select_samples userKey cutoff d).
Proof.
  apply List.Forall_forall. intros r Hin. unfold select_samples in Hin.
  apply in_order_by_t, List.filter_In in Hin.
  destruct Hin as [_ E]. now apply andb_true_iff in E.
Qed.

Lemma Forall_snoc {A : Type} (P : A -> Prop) (l : list A) (x : A) :
  Forall P l -> P x -> Forall P (l ++ [x]).
Proof. intros Hl Hx. apply List.Forall_app. split; [exact Hl | now constructor]. Qed.

Lemma collect_row_since cutoff acc row :
  rows_since cutoff acc -> geb (row_t row) cutoff = true ->
  rows_since cutoff (collect_row acc row).
Proof.
  intros (Hh & Hp & Hb & Hc & Hn) Hrow. unfold collect_row, rows_since.
  destruct (String.eqb (row_metric row) "honey");
    [simpl; repeat split; auto using Forall_snoc|].
  destruct (String.eqb (row_metric row) "pollen");
    [simpl; repeat split; auto using Forall_snoc|].
  destruct (String.eqb (row_metric row) "backpack");
    [simpl; repeat split; auto using Forall_snoc|].
  destruct (String.eqb (row_metric row) "backpack_capacity");
    [simpl; repeat split; auto using Forall_snoc|].
  destruct (nectarTypeFromMetric (row_metric row)) as [ty|];
    [|repeat split; auto].
  simpl. repeat split; auto. intros ty'. rewrite nectar_get_set.
  destruct (decide (ty' = ty)) as [->|_]; auto using Forall_snoc.
Qed.

Lemma collect_rows_since cutoff rows :
  Forall (fun r => geb (row_t r) cutoff = true) rows ->
  rows_since cutoff (collect_rows rows).
Proof.
  unfold collect_rows.
  assert (G : forall acc, rows_since cutoff acc ->
                          Forall (fun r => geb (row_t r) cutoff = true) rows ->
                          rows_since cutoff (fold_left collect_row rows acc)).
  { induction rows as [|r rest IH]; simpl; intros acc Ha Hr; [exact Ha|].
    inversion Hr; subst. apply IH; [now apply collect_row_since | assumption]. }
  apply G. repeat split; try constructor. intros ty. destruct ty; constructor.
Qed.

Lemma merge_from_since cutoff lastCap caps entries :
  Forall (fun p => geb (s_t p) cutoff = true) entries ->
  Forall (fun p => geb (p_t p) cutoff = true) (merge_from lastCap caps entries).
Proof.
  revert lastCap. induction entries as [|e rest IH]; simpl; intros lastCap He.
  - constructor.
  - inversion He; subst. constructor; [assumption | now apply IH].
Qed.

Lemma apply_overrides_since cutoff o data :
  all_since cutoff data -> all_since cutoff (apply_overrides o data).
Proof. destruct o; simpl; auto. Qed.

(** A stats answer holds no point before the cutoff of its points. *)
Lemma all_since_excludes cutoff data t :
  all_since cutoff data -> geb t cutoff = false -> ~ returns_time data t.
Proof.
  intros (Hh & Hp & Hb & Hn) Ht (m & v & Hin).
  exact (since_excludes data cutoff Hh Hp Hb Hn m t v Ht Hin).
Qed.

Section WithPlatform.

Context `{Platform}.

Variable raises : stmt -> bool.

Lemma read_own_all_since userKey cutoff st :
  all_since cutoff (fst (read_own userKey cutoff st)).
Proof. apply read_own_since. Qed.

Lemma collectDbStats_all_since userKey cutoff st d data st' :
  collectDbStats raises userKey cutoff st d = (Some data, st') ->
  all_since cutoff data.
Proof.
  unfold collectDbStats.
  destruct (raises (SelectSamples userKey cutoff)); [discriminate|].
  destruct (raises (SelectUser userKey)); [discriminate|].
  intros [= <- _].
  destruct (collect_rows_since cutoff _ (select_samples_since userKey cutoff d))
    as (Hh & Hp & Hb & _ & Hn).
  repeat split; simpl; auto. unfold mergeBackpackSeries.
  now apply merge_from_since.
Qed.

Lemma answer_from_memory_since userKey cutoff o st r st' :
  answer_from_memory userKey cutoff o st = Sent (r, st') ->
  exists data, r = json (StatsBody data) /\ all_since cutoff data.
Proof.
  unfold answer_from_memory.
  destruct (collectMemoryStats userKey cutoff st) as [[data st1]|] eqn:E;
    [|discriminate].
  intros [= <- <-]. eexists. split; [reflexivity|].
  apply apply_overrides_since.
  apply collectMemoryStats_inv in E.
  pose proof (read_own_all_since userKey cutoff st) as M.
  now rewrite <- E in M.
Qed.

Lemma answer_from_memory_plain userKey cutoff o st :
  inherited userKey = false ->
  exists r st', answer_from_memory userKey cutoff o st = Sent (r, st').
Proof.
  intros Hk. unfold answer_from_memory.
  rewrite (collectMemoryStats_plain _ _ _ Hk).
  destruct (read_own userKey cutoff st). eauto.
Qed.

(** What [sendStatsResponse] sends is an answer 200 with statistics,
    all of them at or after [now - periodSec], from whichever store it
    reads. *)
Lemma sendStatsResponse_since cfg now userKey periodSec o st d r st' :
  sendStatsResponse raises cfg now userKey periodSec o st d = Sent (r, st') ->
  exists data,
    r = json (StatsBody data) /\ all_since (of_Z (now - periodSec)) data.
Proof.
  unfold sendStatsResponse.
  destruct (USE_DB cfg); simpl negb; cbv iota.
  - destruct (collectDbStats raises userKey (of_Z (now - periodSec)) st d)
      as [[data|] st1] eqn:E.
    + intros [= <- <-]. eexists. split; [reflexivity|].
      apply apply_overrides_since. eapply collectDbStats_all_since, E.
    + apply answer_from_memory_since.
  - apply answer_from_memory_since.
Qed.

(** For a key that is no inherited property name it does send. *)
Lemma sendStatsResponse_plain cfg now userKey periodSec o st d :
  inherited userKey = false ->
  exists r st',
    sendStatsResponse raises cfg now userKey periodSec o st d = Sent (r, st').
Proof.
  intros Hk. unfold sendStatsResponse.
  destruct (USE_DB cfg); simpl negb; cbv iota.
  - destruct (collectDbStats raises userKey (of_Z (now - periodSec)) st d)
      as [[data|] st1]; [eauto|].
    now apply answer_from_memory_plain.
  - now apply answer_from_memory_plain.
Qed.

(** C3.  Whatever a read of the statistics at clock reading [now],
    admitted by [requireReadKey], is answered with, for every requested
    period, from the database or from the in-memory store, whoever's
    key is read: the answer has status 200, and no series of it (honey,
    pollen, backpack, any nectar type) holds a point whose time is
    before [now - 2592000].  A read for a key that is no inherited
    property name is answered. *)
Theorem stats_never_return_stale cfg now h period st d userKey :
  requireReadKey cfg h = Next userKey ->
  (forall r st',
      get_stats raises cfg now h period st d = Sent (r, st') ->
      exists data,
        r = {| status := 200; payload := StatsBody data |}
        /\ forall t, ltb t (of_Z (now - 2592000)) = true ->
                     ~ returns_time data t)
  /\ (inherited userKey = false ->
      exists r st', get_stats raises cfg now h period st d = Sent (r, st')).
Proof.
  intros Hauth. unfold get_stats. rewrite Hauth.
  set (periodSec := Period.toSeconds (Some (default "24h" (present period)))).
  split.
  - intros r st' E.
    destruct (sendStatsResponse_since cfg now userKey periodSec None st d _ _ E)
      as (data & -> & Hs).
    exists data. split; [reflexivity|].
    intros t Ht. apply (all_since_excludes _ _ _ Hs).
    apply (before_cutoff t now 2592000 periodSec); [|exact Ht].
    apply PeriodFacts.toSeconds_le_max.
  - apply sendStatsResponse_plain.
Qed.

End WithPlatform.

Import Examples.

Lemma stats_never_return_stale_witness :
  exists data st',
    @get_stats plain_platform never memory_cfg 2692001 reader (Some "30d")
      stored_at_100 empty_database
    = Sent ({| status := 200; payload := StatsBody data |}, st')
    /\ stats_honey data = []
    /\ forall t, ltb t (of_Z (2692001 - 2592000)) = true ->
                 ~ returns_time data t.
Proof.
  destruct (@stats_never_return_stale plain_platform never memory_cfg 2692001
              reader (Some "30d") stored_at_100 empty_database "u" eq_refl)
    as [R S].
  destruct (S eq_refl) as (r & st' & E).
  destruct (R r st' E) as (data & -> & G).
  exists data, st'. split; [exact E|]. split; [|exact G].
  vm_compute in E. now inversion E.
Defined.

End StatsFacts.

(** ** The backpack percentage *)

Module BackpackFacts.
Import Server Observe Examples NumFacts LookupFacts.

(** Capacity rows that share their time with no backpack row count for
    nothing in [mergeBackpackSeries]: every percentage is 0. *)
Lemma merge_without_matching_time (backpackEntries capacityEntries : list sample) :
  Forall (fun e => capacity_at (s_t e) capacityEntries = None) backpackEntries ->
  mergeBackpackSeries backpackEntries capacityEntries
  = map (fun e => BpPoint (s_t e) (s_v e) (of_Z 0)) backpackEntries.
Proof.
  unfold mergeBackpackSeries.
  induction backpackEntries as [|e rest IH]; simpl; intros F; [reflexivity|].
  inversion F as [|? ? He Hr]; subst. rewrite He. simpl.
  now rewrite (IH Hr).
Qed.

Lemma clampPercent_finite (q : Q) :
  clampPercent (Fin q)
  = if leb (of_Z 100) (Fin q) then of_Z 100
    else if leb (of_Z 0) (Fin q) then Fin q else of_Z 0.
Proof.
  unfold clampPercent, JsNum.min, JsNum.max. cbn [isFinite negb].
  destruct (leb (of_Z 100) (Fin q)); reflexivity.
Qed.

Lemma clampPercent_idem (x : num) :
  clampPercent (clampPercent x) = clampPercent x.
Proof.
  destruct x as [q|neg|]; [|reflexivity|reflexivity].
  rewrite (clampPercent_finite q).
  destruct (leb (of_Z 100) (Fin q)) eqn:E1; [reflexivity|].
  destruct (leb (of_Z 0) (Fin q)) eqn:E2; [|reflexivity].
  now rewrite clampPercent_finite, E1, E2.
Qed.

(** A clamped percentage lies between 0 and 100. *)
Lemma clampPercent_bounds (x : num) :
  leb (of_Z 0) (clampPercent x) = true
  /\ leb (clampPercent x) (of_Z 100) = true.
Proof.
  destruct x as [q|neg|]; [|split; reflexivity|split; reflexivity].
  rewrite clampPercent_finite.
  destruct (leb (of_Z 100) (Fin q)) eqn:E1; [split; reflexivity|].
  destruct (leb (of_Z 0) (Fin q)) eqn:E2; [|split; reflexivity].
  split; [exact E2|]. simpl in *.
  apply Qle_bool_iff. apply Qlt_le_weak. apply Qnot_le_lt.
  intros L. apply Qle_bool_iff in L. congruence.
Qed.

(** A backpack value that is not positive fills nothing of a positive
    capacity. *)
Lemma percent_of_nothing (v cap : num) :
  isFinite v = true -> gtb cap (of_Z 0) = true -> leb v (of_Z 0) = true ->
  leb (clampPercent (mul (div v cap) (of_Z 100))) (of_Z 0) = true.
Proof.
  destruct v as [x| |]; [|discriminate|discriminate]. intros _.
  destruct cap as [c|[]|]; try discriminate.
  - unfold gtb. simpl ltb. simpl leb. rewrite Qltb_lt, Qle_bool_iff.
    intros Hc Hx. change (inject_Z 0) with 0%Q in Hc, Hx. unfold div.
    assert (Hz : Qeq_bool c 0 = false).
    { destruct (Qeq_bool c 0) eqn:E; [|reflexivity].
      apply Qeq_bool_iff in E. rewrite E in Hc.
      exfalso. exact (Qlt_irrefl _ Hc). }
    rewrite Hz. cbn [mul of_Z].
    assert (Hq : (x / c * inject_Z 100 <= 0)%Q).
    { unfold Qdiv. pose proof (Qinv_lt_0_compat c Hc) as Hi.
      revert Hi. generalize (/ c)%Q. intros i Hi.
      change (inject_Z 100) with (100 # 1). nra. }
    rewrite clampPercent_finite.
    assert (E1 : leb (of_Z 100) (Fin (x / c * inject_Z 100)) = false).
    { simpl. destruct (Qle_bool _ _) eqn:E; [|reflexivity].
      apply Qle_bool_iff in E. exfalso.
      assert (L : (inject_Z 100 <= 0)%Q) by (eapply Qle_trans; eassumption).
      revert L. change (inject_Z 100) with (100 # 1).
      change 0%Q with (0 # 1). unfold Qle. simpl. lia. }
    rewrite E1.
    destruct (leb (of_Z 0) (Fin (x / c * inject_Z 100))); [|reflexivity].
    simpl. now apply Qle_bool_iff.
  - intros _ _. reflexivity.
Qed.

Section WithPlatform.

Context `{Platform}.

Lemma bucket_of_lastCapacity userKey st :
  lastCapacity (bucket_of userKey st)
  = default (of_Z 0) (lastCapacity <$> samples st !! userKey).
Proof.
  unfold bucket_of, own_bucket.
  destruct (samples st !! userKey) as [bk|]; simpl;
    match goal with |- context [if ?c then _ else _] => destruct c end;
    reflexivity.
Qed.

(** A backpack sample written to memory under a key that is no
    inherited property name is stored with the capacity it is measured
    against: the capacity of the same request when that is a finite
    number, else the last capacity the bucket received; with no
    capacity when that one is not positive.  The point a read returns
    for the sample carries a percentage between 0 and 100, which is 0
    when there is no such capacity, and not above 0 when the backpack
    value is not positive. *)
Theorem memory_backpack_percent now userKey b st v cutoff :
  inherited userKey = false ->
  finite_number (body_backpack b) = Some v ->
  geb (event_time now b) (of_Z (now - 2592000)) = true ->
  geb (event_time now b) cutoff = true ->
  let t := event_time now b in
  let cap :=
    match finite_number (body_backpackCapacity b) with
    | Some c => c
    | None =>
        or_zero (default (of_Z 0) (lastCapacity <$> samples st !! userKey))
    end in
  exists st1 bk entry data st2 pct,
    writeMemory now userKey b st = Some st1
    /\ samples st1 !! userKey = Some bk
    /\ In entry (backpack bk)
    /\ e_t entry = t /\ e_v entry = v
    /\ e_cap entry = (if gtb cap (of_Z 0) then Some cap else None)
    /\ collectMemoryStats userKey cutoff st1 = Some (data, st2)
    /\ In (BpPoint t v pct) (stats_backpack data)
    /\ leb (of_Z 0) pct = true
    /\ leb pct (of_Z 100) = true
    /\ (gtb cap (of_Z 0) = false -> pct = of_Z 0)
    /\ (gtb cap (of_Z 0) = true -> leb v (of_Z 0) = true ->
        leb pct (of_Z 0) = true).
Proof.
  intros Hk Hv Hret Hcut t cap.
  pose proof (StoreFacts.write_own_bucket now userKey b st) as Hb.
  destruct (StoreFacts.read_own_stored userKey cutoff _ _ Hb)
    as (_ & _ & Eb & _).
  destruct (IngestFacts.written_series now b (bucket_of userKey st))
    as (_ & _ & Wb & _).
  cbv zeta in Eb, Wb. rewrite Hv in Wb.
  set (entry := fst (backpack_entry (event_time now b) v
                       (body_backpackCapacity b)
                       (lastCapacity (bucket_of userKey st)))) in *.
  assert (Hentry :
            entry
            = if gtb cap (of_Z 0)
              then BpEntry t v (Some cap)
                     (Some (clampPercent (mul (div v cap) (of_Z 100))))
              else BpEntry t v None (Some (of_Z 0))).
  { unfold entry, backpack_entry, cap, t.
    rewrite bucket_of_lastCapacity.
    destruct (finite_number (body_backpackCapacity b)); cbn [fst];
      match goal with |- context [if ?c then _ else _] => destruct c end;
      reflexivity. }
  assert (Hin : In entry (backpack (written_bucket now b (bucket_of userKey st)))).
  { rewrite Wb. apply RetentionFacts.in_filter_snoc. unfold entry_since, entry.
    now rewrite (proj1 (IngestFacts.backpack_entry_point _ _ _ _)). }
  assert (Hf : isFinite v = true).
  { destruct (body_backpack b); simpl in Hv; try discriminate.
    destruct (isFinite n) eqn:F; [|discriminate]. now inversion Hv; subst. }
  set (pct := if gtb cap (of_Z 0)
              then clampPercent (mul (div v cap) (of_Z 100)) else of_Z 0).
  destruct (read_own userKey cutoff (write_own now userKey b st))
    as [data st2] eqn:R. simpl in Eb.
  exists (write_own now userKey b st),
    (written_bucket now b (bucket_of userKey st)), entry, data, st2, pct.
  split; [now apply StoreFacts.writeMemory_plain|].
  split; [exact Hb|]. split; [exact Hin|].
  split; [rewrite Hentry; now destruct (gtb cap (of_Z 0))|].
  split; [rewrite Hentry; now destruct (gtb cap (of_Z 0))|].
  split; [rewrite Hentry; now destruct (gtb cap (of_Z 0))|].
  split.
  { rewrite (StoreFacts.collectMemoryStats_plain _ _ _ Hk). now rewrite R. }
  split.
  { rewrite Eb. unfold shapeBackpackEntries. apply List.in_map_iff.
    exists entry. split.
    - rewrite Hentry. unfold pct.
      destruct (gtb cap (of_Z 0)); cbn [e_t e_v e_pct];
        [now rewrite clampPercent_idem | reflexivity].
    - apply List.filter_In. split; [exact Hin|].
      unfold entry_since, entry.
      now rewrite (proj1 (IngestFacts.backpack_entry_point _ _ _ _)). }
  unfold pct. destruct (gtb cap (of_Z 0)) eqn:G.
  - split; [apply clampPercent_bounds|]. split; [apply clampPercent_bounds|].
    split; [discriminate|]. intros _ Hle. now apply percent_of_nothing.
  - repeat split; try reflexivity; discriminate.
Qed.

End WithPlatform.

Lemma memory_backpack_percent_witness :
  exists st1 data st2 pct,
    @writeMemory plain_platform 10 "u"
      (report JUndefined (int 50) (int 100) 10) initial = Some st1
    /\ @collectMemoryStats plain_platform "u" (of_Z 0) st1 = Some (data, st2)
    /\ In (BpPoint (of_Z 10) (of_Z 50) pct) (stats_backpack data)
    /\ leb (of_Z 0) pct = true
    /\ leb pct (of_Z 100) = true.
Proof.
  destruct (@memory_backpack_percent plain_platform 10 "u"
              (report JUndefined (int 50) (int 100) 10) initial (of_Z 50)
              (of_Z 0) eq_refl eq_refl eq_refl eq_refl)
    as (st1 & bk & entry & data & st2 & pct & W & _ & _ & _ & _ & _ & C & I
        & L0 & L100 & _).
  now exists st1, data, st2, pct.
Defined.

Lemma merge_without_matching_time_witness :
  mergeBackpackSeries [Sample (of_Z 10) (of_Z 50)] [Sample (of_Z 5) (of_Z 100)]
  = map (fun e => BpPoint (s_t e) (s_v e) (of_Z 0)) [Sample (of_Z 10) (of_Z 50)].
Proof.
  apply (merge_without_matching_time [Sample (of_Z 10) (of_Z 50)]
           [Sample (of_Z 5) (of_Z 100)]).
  repeat constructor.
Defined.

(** C4 on concrete runs, every statement of the durable store taking
    effect.  First run: the key "u" reports its capacity 100 at time 5
    and its backpack 50 at time 10.  Read from the database, the
    backpack point comes back with percentage 0 although a capacity at
    an earlier time is stored; read from memory, the same two requests
    give 50.  Second run: "u" reports backpack 40 with capacity 100 at
    time 5 and backpack 50 at time 10.  Read from the database with a
    window that starts at time 0 the point of time 10 has percentage
    50, with a window that starts at time 7 the same point has
    percentage 0; read from memory it has 50 in both windows. *)
Theorem backpack_percent_misses_earlier_capacity :
  map (fun r => (row_metric r, row_t r, row_v r))
    (samples_table (snd (capacity_then_backpack mysql_cfg)))
  = [("honey", of_Z 5, of_Z 1); ("backpack_capacity", of_Z 5, of_Z 100);
     ("backpack", of_Z 10, of_Z 50)]
  /\ backpack_read mysql_cfg 20 (capacity_then_backpack mysql_cfg)
     = [(of_Z 10, of_Z 50, 0)]
  /\ backpack_read memory_cfg 20 (capacity_then_backpack memory_cfg)
     = [(of_Z 10, of_Z 50, 50)]
  /\ backpack_read mysql_cfg 3600 (backpack_twice mysql_cfg)
     = [(of_Z 5, of_Z 40, 40); (of_Z 10, of_Z 50, 50)]
  /\ backpack_read mysql_cfg 3607 (backpack_twice mysql_cfg)
     = [(of_Z 10, of_Z 50, 0)]
  /\ backpack_read memory_cfg 3600 (backpack_twice memory_cfg)
     = [(of_Z 5, of_Z 40, 40); (of_Z 10, of_Z 50, 50)]
  /\ backpack_read memory_cfg 3607 (backpack_twice memory_cfg)
     = [(of_Z 10, of_Z 50, 50)].
Proof. repeat split; vm_compute; reflexivity. Qed.

End BackpackFacts.

(** ** Who may read *)

Module AuthFacts.
Import Server.

Lemma header_is_iff (key : option string) (expected : string) :
  header_is key expected = true <-> key = Some expected.
Proof.
  destruct key as [k|]; simpl; [|split; discriminate].
  rewrite String.eqb_eq. split; congruence.
Qed.

Lemma nonempty_some (s r : string) : nonempty s = Some r -> r = s /\ s <> EmptyString.
Proof.
  unfold nonempty. destruct (String.eqb s EmptyString) eqn:E; [discriminate|].
  intros [= <-]. split; [reflexivity|]. now apply String.eqb_neq.
Qed.

(** [CLIENT_KEY] is never empty, and it is the placeholder when the
    environment leaves it unset or empty. *)
Lemma CLIENT_KEY_nonempty (cfg : config) : CLIENT_KEY cfg <> EmptyString.
Proof.
  unfold CLIENT_KEY, or_default.
  destruct (present (env_CLIENT_KEY cfg)) as [s|] eqn:E; [|discriminate].
  destruct (env_CLIENT_KEY cfg) as [e|]; [|discriminate]. simpl in E.
  now destruct (nonempty_some _ _ E) as [-> ?].
Qed.

Lemma CLIENT_KEY_unset (cfg : config) :
  present (env_CLIENT_KEY cfg) = None -> CLIENT_KEY cfg = CLIENT_KEY_PLACEHOLDER.
Proof. intros E. unfold CLIENT_KEY, or_default. now rewrite E. Qed.

(** C7, amended.  The current server ([requireReadKey] of lines
    729-742): a read request needs a non-empty x-user-key (400
    otherwise); [CLIENT_KEY] is the placeholder whenever the environment
    leaves it unset, and then the request is admitted whatever
    x-client-key says; once [CLIENT_KEY] differs from the placeholder
    the request is admitted exactly when x-client-key equals it, and
    answered 401 otherwise.  The server with the leaderboard
    ([requireReadKey] of lines 211-226): the user key may come from the
    [user_key] query parameter instead of the header (400 when both are
    missing), a request with a user key is admitted with x-client-key
    equal to [CLIENT_KEY] and only with it, whatever the
    configuration, and answered 401 with another x-client-key. *)
Theorem read_key_policy :
  (forall (cfg : config) (h : headers),
      (present (x_user_key h) = None ->
       requireReadKey cfg h
       = Reject {| status := 400; payload := ErrorBody "x-user-key required" |})
      /\ (present (env_CLIENT_KEY cfg) = None ->
          CLIENT_KEY cfg = CLIENT_KEY_PLACEHOLDER)
      /\ (forall userKey, present (x_user_key h) = Some userKey ->
            (CLIENT_KEY cfg = CLIENT_KEY_PLACEHOLDER ->
             requireReadKey cfg h = Next userKey)
            /\ (CLIENT_KEY cfg <> CLIENT_KEY_PLACEHOLDER ->
                x_client_key h = Some (CLIENT_KEY cfg) ->
                requireReadKey cfg h = Next userKey)
            /\ (CLIENT_KEY cfg <> CLIENT_KEY_PLACEHOLDER ->
                x_client_key h <> Some (CLIENT_KEY cfg) ->
                requireReadKey cfg h
                = Reject {| status := 401; payload := ErrorBody "unauthorized" |})))
  /\ (forall (cfg : Ranking.config) (req : Ranking.request),
        (present (Ranking.x_user_key req) = None ->
         present (Ranking.query_user_key req) = None ->
         Ranking.requireReadKey cfg req
         = Ranking.Reject
             {| Ranking.status := 400;
                Ranking.payload := Ranking.ErrorBody "x-user-key required" |})
        /\ (forall userKey, Ranking.requireReadKey cfg req = Ranking.Next userKey ->
                         Ranking.x_client_key req = Some (Ranking.CLIENT_KEY cfg))
        /\ (forall userKey,
              present (Ranking.x_user_key req) = None ->
              present (Ranking.query_user_key req) = Some userKey ->
              Ranking.x_client_key req = Some (Ranking.CLIENT_KEY cfg) ->
              Ranking.requireReadKey cfg req = Ranking.Next userKey)
        /\ (forall userKey,
              present (Ranking.x_user_key req) = Some userKey ->
              Ranking.x_client_key req <> Some (Ranking.CLIENT_KEY cfg) ->
              Ranking.requireReadKey cfg req
              = Ranking.Reject
                  {| Ranking.status := 401;
                     Ranking.payload :=
                       Ranking.ErrorBody "unauthorized: invalid x-client-key" |})
        /\ (forall userKey,
              present (Ranking.x_user_key req) = None ->
              present (Ranking.query_user_key req) = Some userKey ->
              Ranking.x_client_key req <> Some (Ranking.CLIENT_KEY cfg) ->
              Ranking.requireReadKey cfg req
              = Ranking.Reject
                  {| Ranking.status := 401;
                     Ranking.payload :=
                       Ranking.ErrorBody "unauthorized: invalid x-client-key" |})
        /\ (forall userKey,
              present (Ranking.x_user_key req) = Some userKey ->
              Ranking.x_client_key req = Some (Ranking.CLIENT_KEY cfg) ->
              Ranking.requireReadKey cfg req = Ranking.Next userKey)).
Proof.
  split.
  - intros cfg h. unfold requireReadKey. split; [|split].
    + intros E. now rewrite E.
    + apply CLIENT_KEY_unset.
    + intros userKey E. rewrite E.
      pose proof (CLIENT_KEY_nonempty cfg) as Hne.
      apply String.eqb_neq in Hne. rewrite Hne. simpl orb.
      split; [|split].
      * intros ->. now rewrite String.eqb_refl.
      * intros Hp Hk. apply String.eqb_neq in Hp. rewrite Hp.
        now rewrite (proj2 (header_is_iff _ _) Hk).
      * intros Hp Hk. apply String.eqb_neq in Hp. rewrite Hp.
        destruct (header_is (x_client_key h) (CLIENT_KEY cfg)) eqn:Hh;
          [|reflexivity].
        apply header_is_iff in Hh. contradiction.
  - intros cfg req. unfold Ranking.requireReadKey.
    split; [|split; [|split; [|split; [|split]]]].
    + intros E Eq. now rewrite E, Eq.
    + intros userKey.
      destruct (present _) as [k|]; [|discriminate].
      destruct (header_is (Ranking.x_client_key req) (Ranking.CLIENT_KEY cfg))
        eqn:Hh; [|discriminate].
      intros _. now apply header_is_iff.
    + intros userKey E Eq Hk. rewrite E, Eq.
      now rewrite (proj2 (header_is_iff _ _) Hk).
    + intros userKey E Hk. rewrite E.
      destruct (present (Some userKey)) as [k|] eqn:Ek.
      * destruct (header_is (Ranking.x_client_key req) (Ranking.CLIENT_KEY cfg))
          eqn:Hh; [|reflexivity].
        apply header_is_iff in Hh. contradiction.
      * exfalso. simpl in Ek.
        destruct (Ranking.x_user_key req) as [u|]; [|discriminate].
        simpl in E. apply nonempty_some in E. destruct E as [-> Hne].
        unfold nonempty in Ek. apply String.eqb_neq in Hne.
        now rewrite Hne in Ek.
    + intros userKey E Eq Hk. rewrite E, Eq.
      destruct (header_is (Ranking.x_client_key req) (Ranking.CLIENT_KEY cfg))
        eqn:Hh; [|reflexivity].
      apply header_is_iff in Hh. contradiction.
    + intros userKey E Hk. rewrite E.
      assert (P : present (Some userKey) = Some userKey).
      { destruct (Ranking.x_user_key req) as [u|]; [|discriminate].
        simpl in E. apply nonempty_some in E. destruct E as [-> Hne].
        simpl. unfold nonempty. apply String.eqb_neq in Hne.
        now rewrite Hne. }
      rewrite P. now rewrite (proj2 (header_is_iff _ _) Hk).
Qed.

(** C7 as stated fails on the server with the leaderboard: the
    environment leaves [CLIENT_KEY] unset, a request names its user and
    sends no x-client-key, and it is answered 401 instead of being
    admitted; and a request with no x-user-key header is admitted on
    its [user_key] query parameter. *)
Lemma read_key_checked_when_unset :
  Ranking.env_CLIENT_KEY Examples.ranking_cfg = None
  /\ Ranking.requireReadKey Examples.ranking_cfg
       {| Ranking.x_user_key := Some "u"; Ranking.x_client_key := None;
          Ranking.query_user_key := None; Ranking.query_limit := None |}
     = Ranking.Reject
         {| Ranking.status := 401;
            Ranking.payload :=
              Ranking.ErrorBody "unauthorized: invalid x-client-key" |}
  /\ Ranking.requireReadKey Examples.ranking_cfg
       {| Ranking.x_user_key := None;
          Ranking.x_client_key := Some Ranking.CLIENT_KEY_DEFAULT;
          Ranking.query_user_key := Some "u"; Ranking.query_limit := None |}
     = Ranking.Next "u".
Proof. repeat split. Qed.

End AuthFacts.

(** ** The command mailbox *)

Module MailboxFacts.
Import Server Observe LookupFacts.

Lemma length_last_commands (queue : list jsval) :
  (length (last_commands queue) <= COMMAND_LIMIT)%nat.
Proof. unfold last_commands. rewrite List.length_skipn. lia. Qed.

Lemma last_commands_short (queue : list jsval) :
  (length queue <= COMMAND_LIMIT)%nat -> last_commands queue = queue.
Proof.
  intros L. unfold last_commands.
  replace (length queue - COMMAND_LIMIT)%nat with 0%nat by lia. reflexivity.
Qed.

(** The trimming of [POST /api/controls/commands] keeps the last 100. *)
Lemma trimmed_is_last (queue : list jsval) :
  (if (COMMAND_LIMIT <? length queue)%nat then last_commands queue else queue)
  = last_commands queue.
Proof.
  destruct (COMMAND_LIMIT <? length queue)%nat eqn:E; [reflexivity|].
  apply Nat.ltb_ge in E. symmetry. now apply last_commands_short.
Qed.

(** [slice(-100)] drops from the front, and only what is beyond 100. *)
Lemma last_commands_suffix (queue : list jsval) :
  exists dropped,
    queue = dropped ++ last_commands queue
    /\ length (last_commands queue) = Nat.min 100 (length queue).
Proof.
  exists (firstn (length queue - COMMAND_LIMIT) queue). unfold last_commands.
  split; [symmetry; apply List.firstn_skipn|].
  rewrite List.length_skipn. unfold COMMAND_LIMIT. lia.
Qed.

Lemma queue_of_set (userKey other : string) (queue : list jsval) (st : state) :
  queue_of other (with_commands (<[userKey := queue]> (controlCommands st)) st)
  = if decide (userKey = other) then queue else queue_of other st.
Proof.
  unfold queue_of. simpl. rewrite lookup_insert.
  destruct (decide (userKey = other)); reflexivity.
Qed.

Lemma queued_queue now userKey own cmds st :
  queued now userKey own cmds st
  = (json (QueuedOk (length (last_commands (own ++ map (stamp now) cmds)))),
     with_commands
       (<[userKey := last_commands (own ++ map (stamp now) cmds)]>
          (controlCommands st)) st).
Proof. unfold queued. now rewrite trimmed_is_last. Qed.

(** A post for a key that is no inherited property name appends to the
    queue the key owns, or to a new one. *)
Lemma post_commands_queue cfg now h userKey cmds st :
  requireReadKey cfg h = Next userKey -> cmds <> [] ->
  inherited userKey = false ->
  post_commands cfg now h (JArr cmds) st
  = queued now userKey (queue_of userKey st) cmds st.
Proof.
  intros Hauth Hne Hk. unfold post_commands. rewrite Hauth.
  destruct cmds as [|c cs]; [congruence|].
  rewrite (lookup_plain _ _ Hk). unfold queue_of.
  now destruct (controlCommands st !! userKey).
Qed.

Lemma queued_bounded now userKey own cmds st :
  bounded st -> bounded (snd (queued now userKey own cmds st)).
Proof.
  intros B. rewrite queued_queue. simpl snd. intros other.
  rewrite queue_of_set.
  destruct (decide (userKey = other)); [|apply B].
  apply length_last_commands.
Qed.

Lemma post_commands_bounded cfg now h commands st :
  bounded st -> bounded (snd (post_commands cfg now h commands st)).
Proof.
  intros B. unfold post_commands.
  destruct (requireReadKey cfg h) as [r|userKey]; [exact B|].
  destruct commands as [| | | | |[|c cs]|]; try exact B.
  destruct (lookup (controlCommands st) userKey);
    [now apply queued_bounded | exact B | now apply queued_bounded].
Qed.

Lemma get_commands_bounded cfg h st r st' :
  bounded st -> get_commands cfg h st = Sent (r, st') -> bounded st'.
Proof.
  intros B. unfold get_commands.
  destruct (requireWriteKey cfg h) as [r0|userKey]; [now intros [= _ <-]|].
  assert (E : bounded (with_commands (<[userKey := []]> (controlCommands st))
                         st)).
  { intros other. rewrite queue_of_set.
    destruct (decide (userKey = other)); [simpl; lia | apply B]. }
  destruct (lookup (controlCommands st) userKey);
    [|destruct (String.eqb userKey "__proto__"); [discriminate|] |];
    now intros [= _ <-].
Qed.

(** A read for a key that is no inherited property name. *)
Lemma get_commands_plain cfg h userKey st :
  requireWriteKey cfg h = Next userKey ->
  inherited userKey = false ->
  get_commands cfg h st
  = Sent (json (CommandsBody (queue_of userKey st)),
          with_commands (<[userKey := []]> (controlCommands st)) st).
Proof.
  intros Hauth Hk. unfold get_commands. rewrite Hauth.
  rewrite (lookup_plain _ _ Hk). unfold queue_of.
  now destruct (controlCommands st !! userKey).
Qed.

Lemma mail_step_bounded cfg st ev st' :
  bounded st -> mail_step cfg st ev = Sent st' -> bounded st'.
Proof.
  intros B. destruct ev as [now h commands|h]; simpl.
  - intros [= <-]. now apply post_commands_bounded.
  - destruct (get_commands cfg h st) as [[r st1]|answer|] eqn:E;
      [|discriminate|discriminate].
    intros [= <-]. exact (get_commands_bounded _ _ _ _ _ B E).
Qed.

Lemma mail_run_bounded cfg evs st st' :
  bounded st -> mail_run cfg evs st = Sent st' -> bounded st'.
Proof.
  unfold mail_run.
  assert (G : forall served,
             (forall st0, served = Sent st0 -> bounded st0) ->
             fold_left (fun served ev =>
                          match served with
                          | Sent st0 => mail_step cfg st0 ev
                          | lost => lost
                          end) evs served = Sent st' ->
             bounded st').
  { induction evs as [|ev rest IH]; simpl; intros served B E.
    - now apply B.
    - refine (IH _ _ E). intros st1 E1.
      destruct served as [st0|answer|]; [|discriminate|discriminate].
      exact (mail_step_bounded cfg st0 ev st1 (B st0 eq_refl) E1). }
  intros B. apply G. now intros st0 [= <-].
Qed.

(** Whatever posts and reads of commands the server has served to
    their end since it started, every queue holds at most 100 commands.
    For a key that is no inherited property name: an admitted post of
    a non-empty array leaves as the queue of the key the old queue
    followed by the stamped commands, less what was at its front
    beyond 100 commands, and answers with the length of the queue; an
    admitted read returns the whole queue of its key and leaves it
    empty, so the same read again returns the empty list. *)
Theorem mailbox_bounded_and_drained (cfg : config) :
  (forall evs st',
      mail_run cfg evs initial = Sent st' ->
      forall userKey, (length (queue_of userKey st') <= 100)%nat)
  /\ (forall now h userKey cmds st,
         requireReadKey cfg h = Next userKey -> cmds <> [] ->
         inherited userKey = false ->
         let '(r, st') := post_commands cfg now h (JArr cmds) st in
         exists dropped,
           queue_of userKey st ++ map (stamp now) cmds
           = dropped ++ queue_of userKey st'
           /\ length (queue_of userKey st')
              = Nat.min 100 (length (queue_of userKey st) + length cmds)
           /\ r = {| status := 200;
                     payload := QueuedOk (length (queue_of userKey st')) |})
  /\ (forall h userKey st,
         requireWriteKey cfg h = Next userKey ->
         inherited userKey = false ->
         exists st' st'',
           get_commands cfg h st
           = Sent ({| status := 200;
                      payload := CommandsBody (queue_of userKey st) |}, st')
           /\ queue_of userKey st' = []
           /\ get_commands cfg h st'
              = Sent ({| status := 200; payload := CommandsBody [] |}, st'')).
Proof.
  split; [|split].
  - intros evs st' E. apply (mail_run_bounded cfg evs initial st'); [|exact E].
    intros k. unfold queue_of. simpl. rewrite lookup_empty. simpl. lia.
  - intros now h userKey cmds st Hauth Hne Hk.
    rewrite (post_commands_queue cfg now h userKey cmds st Hauth Hne Hk).
    rewrite queued_queue, queue_of_set.
    destruct (decide (userKey = userKey)); [|congruence].
    destruct (last_commands_suffix (queue_of userKey st ++ map (stamp now) cmds))
      as (dropped & Hd & Hl).
    exists dropped. split; [exact Hd|]. split; [|reflexivity].
    now rewrite Hl, List.length_app, List.length_map.
  - intros h userKey st Hauth Hk.
    assert (Q : queue_of userKey
                  (with_commands (<[userKey := []]> (controlCommands st)) st)
                = []).
    { rewrite queue_of_set. now destruct (decide (userKey = userKey)). }
    eexists _, _. split; [|split].
    + apply (get_commands_plain cfg h userKey st Hauth Hk).
    + exact Q.
    + rewrite (get_commands_plain cfg h userKey _ Hauth Hk). now rewrite Q.
Qed.

Import Examples.

Lemma mailbox_bounded_and_drained_witness :
  let stop := JObj [("command", JStr "stop")] in
  let '(r, st') :=
    post_commands memory_cfg 7 reader (JArr (repeat stop 101)) initial in
  exists dropped,
    queue_of "u" initial ++ map (stamp 7) (repeat stop 101)
    = dropped ++ queue_of "u" st'
    /\ length (queue_of "u" st')
       = Nat.min 100 (length (queue_of "u" initial) + length (repeat stop 101))
    /\ r = {| status := 200; payload := QueuedOk (length (queue_of "u" st')) |}.
Proof.
  apply (proj1 (proj2 (mailbox_bounded_and_drained memory_cfg)) 7 reader "u"
           (repeat (JObj [("command", JStr "stop")]) 101) initial);
    [reflexivity | simpl; discriminate | reflexivity].
Defined.

(** C9 fails for a client that names itself [constructor].  Its post
    of one command, which [requireReadKey] lets through, is answered by
    the error page with status 500 and queues nothing: the handler
    takes the function [controlCommands] inherits under that name for
    the queue and throws on its missing [push].  Its read, which
    [requireWriteKey] lets through, is answered 200 with the object
    [{}], which holds no [commands] at all. *)
Theorem commands_of_inherited_key_fail :
  let stop := JObj [("command", JStr "stop")] in
  requireReadKey memory_cfg constructor_reader = Next "constructor"
  /\ post_commands memory_cfg 7 constructor_reader (JArr [stop]) initial
     = ({| status := 500; payload := ErrorPage |}, initial)
  /\ requireWriteKey memory_cfg constructor_writer = Next "constructor"
  /\ exists st',
      get_commands memory_cfg constructor_writer initial
      = Sent ({| status := 200; payload := EmptyBody |}, st').
Proof.
  cbv zeta. split; [reflexivity|]. split; [reflexivity|].
  split; [reflexivity|]. eexists. reflexivity.
Qed.

End MailboxFacts.

(** ** The leaderboard *)

Module RankingFacts.
Import Ranking NumFacts.
Import Observe (descending, standing, user_standing).

(** *** The requested limit *)

Lemma truthy_of_Z (z : Z) : JsNum.truthy (of_Z z) = negb (z =? 0).
Proof.
  simpl. f_equal. destruct (z =? 0) eqn:E.
  - apply Z.eqb_eq in E. now subst.
  - apply Z.eqb_neq in E. destruct (Qeq_bool (inject_Z z) 0) eqn:Q; [|reflexivity].
    apply Qeq_bool_iff in Q. exfalso. apply E.
    unfold Qeq, inject_Z in Q. simpl in Q. lia.
Qed.

Lemma min_of_Z (a b : Z) : JsNum.min (of_Z a) (of_Z b) = of_Z (Z.min a b).
Proof.
  unfold JsNum.min.
  destruct (leb (of_Z a) (of_Z b)) eqn:E; simpl of_Z.
  - apply leb_of_Z in E. now rewrite Z.min_l.
  - destruct (Z.le_gt_cases a b) as [L|G].
    + apply leb_of_Z in L. congruence.
    + rewrite Z.min_r by lia. reflexivity.
Qed.

(** [parseInt] answers [NaN] or an integer. *)
Lemma parseInt_cases (x : option string) :
  parseInt x = NaN \/ exists z, parseInt x = of_Z z.
Proof.
  destruct x as [s|]; [|now left]. unfold parseInt.
  destruct (skip_spaces s) as [|c r].
  - destruct (parse_unsigned EmptyString); eauto.
  - destruct c as [[] [] [] [] [] [] [] []];
      match goal with
      | |- context [parse_unsigned ?u] => destruct (parse_unsigned u); eauto
      end.
Qed.

(** The limit sent to MySQL is an integer, at most 100 and never 0; it
    is 25 when [parseInt] finds no number or finds 0, and the parsed
    number cut at 100 otherwise. *)
Lemma requested_limit_cases (x : option string) :
  exists z, requested_limit x = of_Z z
            /\ z <= 100 /\ z <> 0
            /\ (parseInt x = NaN \/ parseInt x = of_Z 0 -> z = 25)
            /\ (forall p, parseInt x = of_Z p -> p <> 0 -> z = Z.min p 100).
Proof.
  unfold requested_limit.
  destruct (parseInt_cases x) as [E|[p E]]; rewrite E.
  - exists 25. simpl JsNum.truthy. cbv iota. rewrite min_of_Z.
    repeat split; try lia; try reflexivity. discriminate.
  - rewrite truthy_of_Z. destruct (p =? 0) eqn:P; simpl negb; cbv iota.
    + apply Z.eqb_eq in P. subst p. exists 25. rewrite min_of_Z.
      repeat split; try lia; try reflexivity.
      intros q [= Q] Hq. exfalso. apply Hq.
      unfold inject_Z in Q. congruence.
    + apply Z.eqb_neq in P. exists (Z.min p 100). rewrite min_of_Z.
      repeat split; try lia.
      * intros [N|Z0]; [discriminate|].
        exfalso. apply P. unfold of_Z, inject_Z in Z0. congruence.
      * intros q [= Q] _. unfold inject_Z in Q. congruence.
Qed.

(** *** Statements *)

Lemma select_ranked_some (cutoffT : num) (z : Z) (d : database) :
  0 <= z ->
  select_ranked cutoffT (of_Z z) d
  = Some (firstn (Z.to_nat z)
            (order_desc user_total_honey
               (List.filter (active_since cutoffT) (users d)))).
Proof.
  intros Hz. unfold select_ranked.
  destruct (ltb (of_Z z) (of_Z 0)) eqn:E.
  - apply ltb_of_Z in E. lia.
  - unfold limit_count, of_Z. now rewrite Qfloor_Z.
Qed.

Lemma insert_desc_perm {A : Type} (key : A -> num) (x : A) (sorted : list A) :
  Permutation (insert_desc key x sorted) (x :: sorted).
Proof.
  induction sorted as [|y rest IH]; simpl; [reflexivity|].
  destruct (ltb (key y) (key x)); [reflexivity|].
  rewrite IH. apply perm_swap.
Qed.

Lemma order_desc_perm {A : Type} (key : A -> num) (rows : list A) :
  Permutation (order_desc key rows) rows.
Proof.
  unfold order_desc.
  assert (G : forall acc,
             Permutation (fold_left (fun sorted r => insert_desc key r sorted)
                            rows acc) (acc ++ rows)).
  { induction rows as [|r rest IH]; simpl; intros acc.
    - now rewrite app_nil_r.
    - rewrite IH, insert_desc_perm. apply Permutation_middle. }
  apply (G []).
Qed.

Lemma finite_total (a b : num) :
  isFinite a = true -> isFinite b = true ->
  ltb a b = false -> geb a b = true.
Proof.
  destruct a as [x|[]|], b as [y|[]|]; simpl; try discriminate.
  intros _ _ E. unfold geb. simpl. unfold Qltb in E.
  apply negb_false_iff in E. exact E.
Qed.

Lemma ltb_geb (a b : num) : ltb a b = true -> geb b a = true.
Proof.
  unfold geb. destruct a as [x|[]|], b as [y|[]|]; simpl; try congruence.
  rewrite Qltb_lt, Qle_bool_iff. apply Qlt_le_weak.
Qed.

Lemma insert_desc_sorted {A : Type} (key : A -> num) (x : A) (sorted : list A) :
  isFinite (key x) = true ->
  Forall (fun a => isFinite (key a) = true) sorted ->
  Sorted (descending key) sorted ->
  Sorted (descending key) (insert_desc key x sorted).
Proof.
  intros Fx Fs S. induction sorted as [|y rest IH]; simpl.
  - repeat constructor.
  - inversion Fs as [|? ? Fy Fr]; subst. inversion S as [|? ? Sr Hd]; subst.
    destruct (ltb (key y) (key x)) eqn:E.
    + constructor; [exact S|]. constructor. now apply ltb_geb.
    + constructor; [now apply IH|].
      destruct rest as [|w rest']; simpl.
      * constructor. now apply finite_total.
      * destruct (ltb (key w) (key x)); constructor.
        -- now apply finite_total.
        -- now inversion Hd.
Qed.

Lemma order_desc_sorted {A : Type} (key : A -> num) (rows : list A) :
  Forall (fun a => isFinite (key a) = true) rows ->
  Sorted (descending key) (order_desc key rows).
Proof.
  unfold order_desc.
  assert (G : forall acc,
             Forall (fun a => isFinite (key a) = true) acc ->
             Forall (fun a => isFinite (key a) = true) rows ->
             Sorted (descending key) acc ->
             Sorted (descending key)
               (fold_left (fun sorted r => insert_desc key r sorted) rows acc)).
  { induction rows as [|r rest IH]; simpl; intros acc Fa Fr S; [exact S|].
    inversion Fr; subst. apply IH; [|assumption|now apply insert_desc_sorted].
    eapply Permutation_Forall; [symmetry; apply insert_desc_perm|].
    now constructor. }
  intros F. apply G; [constructor | exact F | constructor].
Qed.

(** On finite rates the comparator of the final sort orders as
    [ORDER BY hourly_rate DESC] does. *)
Lemma by_hourly_rate_desc (x y : entry) :
  isFinite (hourly_rate x) = true -> isFinite (hourly_rate y) = true ->
  gtb (by_hourly_rate y x) (of_Z 0) = ltb (hourly_rate y) (hourly_rate x).
Proof.
  unfold by_hourly_rate, gtb, sub.
  destruct (hourly_rate x) as [a|[]|], (hourly_rate y) as [b|[]|];
    simpl; try discriminate.
  intros _ _. destruct (Qltb b a) eqn:E.
  - apply Qltb_lt in E. apply Qltb_lt. unfold inject_Z. lra.
  - destruct (Qltb (inject_Z 0) (a + - b)) eqn:E'; [|reflexivity].
    apply Qltb_lt in E'. unfold inject_Z in E'.
    assert (L : (b < a)%Q) by lra. apply Qltb_lt in L. congruence.
Qed.

Lemma sort_insert_desc (x : entry) (sorted : list entry) :
  isFinite (hourly_rate x) = true ->
  Forall (fun e => isFinite (hourly_rate e) = true) sorted ->
  sort_insert by_hourly_rate x sorted = insert_desc hourly_rate x sorted.
Proof.
  intros Fx Fs.
  induction sorted as [|y rest IH]; cbn [sort_insert insert_desc];
    [reflexivity|].
  inversion Fs; subst. rewrite by_hourly_rate_desc by assumption.
  now rewrite IH.
Qed.

Lemma js_sort_desc (l : list entry) :
  Forall (fun e => isFinite (hourly_rate e) = true) l ->
  js_sort by_hourly_rate l = order_desc hourly_rate l.
Proof.
  unfold js_sort, order_desc.
  assert (G : forall acc,
             Forall (fun e => isFinite (hourly_rate e) = true) acc ->
             Forall (fun e => isFinite (hourly_rate e) = true) l ->
             fold_left (fun sorted x => sort_insert by_hourly_rate x sorted) l acc
             = fold_left (fun sorted x => insert_desc hourly_rate x sorted) l acc).
  { induction l as [|x rest IH]; simpl; intros acc Fa Fl; [reflexivity|].
    inversion Fl; subst. rewrite sort_insert_desc by assumption.
    apply IH; [|assumption].
    eapply Permutation_Forall; [symmetry; apply insert_desc_perm|].
    now constructor. }
  intros F. apply G; [constructor | exact F].
Qed.

(** *** The entries *)

Lemma sum_finite (rows : list sample_row) (acc : num) :
  isFinite acc = true ->
  Forall (fun r => isFinite (row_v r) = true) rows ->
  isFinite (fold_left (fun acc r => add acc (row_v r)) rows acc) = true.
Proof.
  revert acc. induction rows as [|r rest IH]; simpl; intros acc Fa Fr;
    [exact Fa|].
  inversion Fr as [|? ? Hr Hrest]; subst. apply IH; [|exact Hrest].
  destruct acc, (row_v r); simpl in *; congruence.
Qed.

Lemma sum_daily_finite userKey since d s :
  Forall (fun r => isFinite (row_v r) = true) (samples_table d) ->
  sum_daily userKey since d = Some s -> isFinite s = true.
Proof.
  intros F. unfold sum_daily.
  set (f := fun r => _ && _ && _).
  assert (Ff : Forall (fun r => isFinite (row_v r) = true)
                 (List.filter f (samples_table d))).
  { apply List.Forall_forall. intros r Hin. apply List.filter_In in Hin.
    rewrite List.Forall_forall in F. now apply F. }
  destruct (List.filter f (samples_table d)) as [|r rest]; [discriminate|].
  inversion Ff; subst. intros [= <-]. now apply sum_finite.
Qed.

Lemma or_zero_finite (x : num) : isFinite x = true -> isFinite (or_zero x) = true.
Proof. unfold or_zero. destruct (JsNum.truthy x); [auto | reflexivity]. Qed.

Lemma hourly_finite (x : num) :
  isFinite x = true -> isFinite (div x (of_Z 24)) = true.
Proof. destruct x; simpl; congruence. Qed.

Section Served.

Variable raises : stmt -> bool.

Lemma rate_entry_some now d user e :
  rate_entry raises now d user = Some e ->
  standing e = user_standing user
  /\ (Forall (fun r => isFinite (row_v r) = true) (samples_table d) ->
      isFinite (hourly_rate e) = true).
Proof.
  unfold rate_entry. destruct (raises _); [discriminate|].
  intros [= <-]. split; [reflexivity|]. intros F. simpl.
  apply hourly_finite.
  destruct (sum_daily (user_key user) (of_Z (now - 86400)) d) as [s|] eqn:E;
    [|reflexivity].
  apply or_zero_finite. eapply sum_daily_finite; eauto.
Qed.

Lemma rate_entries_some now d rows es :
  rate_entries raises now d rows = Some es ->
  map standing es = map user_standing rows
  /\ (Forall (fun r => isFinite (row_v r) = true) (samples_table d) ->
      Forall (fun e => isFinite (hourly_rate e) = true) es).
Proof.
  revert es. induction rows as [|u rest IH]; simpl; intros es.
  - intros [= <-]. split; [reflexivity | constructor].
  - destruct (rate_entry raises now d u) as [e|] eqn:E; [|discriminate].
    destruct (rate_entries raises now d rest) as [es'|]; [|discriminate].
    intros [= <-]. destruct (rate_entry_some _ _ _ _ E) as [Hs Hf].
    destruct (IH es' eq_refl) as [Hm Hfs]. split.
    + simpl. now rewrite Hs, Hm.
    + intros F. constructor; auto.
Qed.

Lemma rate_entries_total now d rows :
  (forall s, raises s = false) ->
  exists es, rate_entries raises now d rows = Some es.
Proof.
  intros Hr. induction rows as [|u rest [es IH]]; simpl; [eauto|].
  unfold rate_entry. rewrite Hr, IH. eauto.
Qed.


End Served.

Import Examples.



End RankingFacts.

(** ** Percentages are percentages *)

Module PercentFacts.
Import Server Observe Survey NumFacts.

Lemma percent_zero : percent (of_Z 0).
Proof.
  exists 0%Q. split; [reflexivity|]. split; unfold Qle; simpl; lia.
Qed.

Lemma percent_hundred : percent (of_Z 100).
Proof.
  exists 100%Q. split; [reflexivity|]. split; unfold Qle; simpl; lia.
Qed.

(** [clampPercent] answers a finite number from 0 to 100 on every
    number, the non-finite ones included. *)
Theorem clampPercent_range (x : num) : percent (clampPercent x).
Proof.
  destruct x as [q|neg|]; [|apply percent_zero|apply percent_zero].
  rewrite BackpackFacts.clampPercent_finite.
  destruct (leb (of_Z 100) (Fin q)) eqn:E1; [apply percent_hundred|].
  destruct (leb (of_Z 0) (Fin q)) eqn:E2; [|apply percent_zero].
  exists q. split; [reflexivity|].
  cbn [leb of_Z] in E1, E2. unfold inject_Z in E1, E2. split.
  - apply Qle_bool_iff in E2. exact E2.
  - apply Qlt_le_weak, Qnot_le_lt. intros L.
    apply Qle_bool_iff in L. rewrite L in E1. discriminate.
Qed.

Lemma shapeBackpackEntries_percent (entries : list bp_entry) :
  Forall (fun p => percent (p_pct p)) (shapeBackpackEntries entries).
Proof.
  unfold shapeBackpackEntries. apply List.Forall_forall. intros p Hin.
  apply List.in_map_iff in Hin. destruct Hin as (e & <- & _). cbn [p_pct].
  destruct (e_pct e); [apply clampPercent_range|].
  destruct (e_cap e) as [cap|]; [|apply percent_zero].
  destruct (JsNum.truthy cap && gtb cap (of_Z 0));
    [apply clampPercent_range | apply percent_zero].
Qed.

Lemma merge_from_percent lastCap caps entries :
  Forall (fun p => percent (p_pct p)) (merge_from lastCap caps entries).
Proof.
  revert lastCap. induction entries as [|e rest IH]; intros lastCap;
    cbn [merge_from]; [constructor|].
  constructor; [|apply IH]. cbn [p_pct].
  match goal with |- context [if ?c then _ else _] => destruct c end;
    [apply clampPercent_range | apply percent_zero].
Qed.

Section WithPlatform.

Context `{Platform}.

Variable raises : stmt -> bool.

Lemma answer_from_memory_percent userKey cutoff o st r st' :
  answer_from_memory userKey cutoff o st = Sent (r, st') ->
  exists data,
    r = json (StatsBody data)
    /\ Forall (fun p => percent (p_pct p)) (stats_backpack data).
Proof.
  unfold answer_from_memory.
  destruct (collectMemoryStats userKey cutoff st) as [[data st1]|] eqn:E;
    [|discriminate].
  intros [= <- <-]. eexists. split; [reflexivity|].
  apply StoreFacts.collectMemoryStats_inv in E.
  assert (D : data = fst (read_own userKey cutoff st)) by now rewrite <- E.
  rewrite D. unfold read_own.
  destruct (own_bucket userKey st) as [bucket st2].
  destruct o; cbn [apply_overrides with_player stats_backpack fst];
    apply shapeBackpackEntries_percent.
Qed.

Lemma sendStatsResponse_percent cfg now userKey periodSec o st d r st' :
  sendStatsResponse raises cfg now userKey periodSec o st d = Sent (r, st') ->
  exists data,
    r = json (StatsBody data)
    /\ Forall (fun p => percent (p_pct p)) (stats_backpack data).
Proof.
  unfold sendStatsResponse.
  destruct (USE_DB cfg); simpl negb; cbv iota.
  - destruct (collectDbStats raises userKey (of_Z (now - periodSec)) st d)
      as [[data|] st1] eqn:E.
    + intros [= <- <-]. eexists. split; [reflexivity|].
      unfold collectDbStats in E.
      destruct (raises (SelectSamples _ _)); [discriminate|].
      destruct (raises (SelectUser _)); [discriminate|].
      injection E as <- _.
      destruct o; cbn [apply_overrides with_player stats_backpack];
        apply merge_from_percent.
    + apply answer_from_memory_percent.
  - apply answer_from_memory_percent.
Qed.

(** Every backpack point of an answer of [GET /api/stats], read from
    the database, from memory or after a failed query, carries a
    percentage from 0 to 100.  A read for a key that is no inherited
    property name is answered. *)
Theorem stats_percent_in_range cfg now h period st d userKey :
  requireReadKey cfg h = Next userKey ->
  (forall r st',
      get_stats raises cfg now h period st d = Sent (r, st') ->
      exists data,
        r = {| status := 200; payload := StatsBody data |}
        /\ Forall (fun p => percent (p_pct p)) (stats_backpack data))
  /\ (inherited userKey = false ->
      exists r st', get_stats raises cfg now h period st d = Sent (r, st')).
Proof.
  intros Hauth. unfold get_stats. rewrite Hauth. split.
  - intros r st'. apply sendStatsResponse_percent.
  - apply StatsFacts.sendStatsResponse_plain.
Qed.

End WithPlatform.

Lemma stats_percent_in_range_witness :
  exists data st',
    @get_stats Examples.plain_platform Examples.never Examples.mysql_cfg 20
      Examples.reader (Some "1h")
      (fst (Examples.capacity_then_backpack Examples.mysql_cfg))
      (snd (Examples.capacity_then_backpack Examples.mysql_cfg))
    = Sent ({| status := 200; payload := StatsBody data |}, st')
    /\ length (stats_backpack data) = 1%nat
    /\ Forall (fun p => percent (p_pct p)) (stats_backpack data).
Proof.
  destruct (@stats_percent_in_range Examples.plain_platform Examples.never
              Examples.mysql_cfg 20 Examples.reader (Some "1h")
              (fst (Examples.capacity_then_backpack Examples.mysql_cfg))
              (snd (Examples.capacity_then_backpack Examples.mysql_cfg))
              "u" eq_refl)
    as [R S].
  destruct (S eq_refl) as (r & st' & E).
  destruct (R r st' E) as (data & -> & G).
  exists data, st'. split; [exact E|]. split; [|exact G].
  vm_compute in E. now inversion E.
Defined.

End PercentFacts.

(** ** What a write to the in-memory store leaves *)

Module WriteFacts.
Import Server Observe Survey NumFacts StoreFacts IngestFacts.

Lemma filter_all_since cutoff (l : list sample) :
  Forall (fun p => geb (s_t p) cutoff = true) (List.filter (since cutoff) l).
Proof.
  apply List.Forall_forall. intros p Hin. apply List.filter_In in Hin.
  exact (proj2 Hin).
Qed.

Lemma map_filter_pairs {A : Type} (time : A -> num) (value : A -> num)
    (cutoff : num) (l : list A) :
  map (fun x => (time x, value x)) (List.filter (fun x => geb (time x) cutoff) l)
  = pairs_since cutoff (map (fun x => (time x, value x)) l).
Proof.
  unfold pairs_since. induction l as [|x rest IH]; simpl; [reflexivity|].
  destruct (geb (time x) cutoff); simpl; now rewrite IH.
Qed.

Lemma filter_filter {A : Type} (f : A -> bool) (l : list A) :
  List.filter f (List.filter f l) = List.filter f l.
Proof.
  induction l as [|x rest IH]; simpl; [reflexivity|].
  destruct (f x) eqn:E; simpl; [rewrite E|]; now rewrite ?IH.
Qed.

Lemma substring_length (n : nat) (s : string) :
  (String.length (String.substring 0 n s) <= n)%nat.
Proof.
  revert s. induction n as [|n IH]; intros s.
  - destruct s; simpl; lia.
  - destruct s as [|c r]; simpl; [lia|]. specialize (IH r). lia.
Qed.

Section WithPlatform.

Context `{Platform}.

(** After a write at clock reading [now] for a key that is no
    inherited property name, the bucket of the key holds no point
    older than 30 days: every stored time is at least
    [now - 2592000]. *)
Theorem written_within_window now userKey b st :
  inherited userKey = false ->
  exists st' bk,
    writeMemory now userKey b st = Some st'
    /\ samples st' !! userKey = Some bk
    /\ bucket_since (of_Z (now - 2592000)) bk.
Proof.
  intros Hk.
  exists (write_own now userKey b st),
    (written_bucket now b (bucket_of userKey st)).
  split; [now apply writeMemory_plain|].
  split; [apply write_own_bucket|].
  destruct (written_series now b (bucket_of userKey st)) as (Wh & Wp & Wb & Wn).
  cbv zeta in Wh, Wp, Wb, Wn. change 2592000 with RETENTION.
  unfold bucket_since. rewrite Wh, Wp, Wb.
  split; [apply filter_all_since|]. split; [apply filter_all_since|]. split.
  - apply List.Forall_forall. intros e Hin. apply List.filter_In in Hin.
    exact (proj2 Hin).
  - intros ty. rewrite Wn. apply filter_all_since.
Qed.

(** The pairs a written bucket stores for a metric the body carries, at
    an event time inside the retention window: the pairs from before,
    cut at the window, followed by the new pair. *)
Lemma written_pairs now b bk m v :
  carries b m v ->
  geb (event_time now b) (of_Z (now - RETENTION)) = true ->
  stored_series m (written_bucket now b bk)
  = pairs_since (of_Z (now - RETENTION)) (stored_series m bk)
    ++ [(event_time now b, v)].
Proof.
  intros Hc Hret.
  destruct (written_series now b bk) as (Wh & Wp & Wb & Wn).
  cbv zeta in Wh, Wp, Wb, Wn.
  destruct m as [| | |ty]; unfold stored_series, carries in *.
  - rewrite Wh, (RetentionFacts.push_finite_carried _ _ _ _ Hc), filter_snoc.
    unfold since at 1. cbn [s_t]. rewrite Hret, List.map_app.
    unfold since. now rewrite (map_filter_pairs s_t s_v).
  - rewrite Wp, (RetentionFacts.push_finite_carried _ _ _ _ Hc), filter_snoc.
    unfold since at 1. cbn [s_t]. rewrite Hret, List.map_app.
    unfold since. now rewrite (map_filter_pairs s_t s_v).
  - rewrite Wb, Hc, filter_snoc.
    destruct (backpack_entry_point (event_time now b) v
                (body_backpackCapacity b) (lastCapacity bk)) as [Et Ev].
    unfold entry_since at 1. rewrite Et, Hret, List.map_app.
    cbn [map]. rewrite Et, Ev.
    unfold entry_since. now rewrite (map_filter_pairs e_t e_v).
  - rewrite Wn, (hasNectar_carries b ty v Hc),
      (RetentionFacts.push_finite_carried _ _ _ _ Hc), filter_snoc.
    unfold since at 1. cbn [s_t]. rewrite Hret, List.map_app.
    unfold since. now rewrite (map_filter_pairs s_t s_v).
Qed.

Lemma stored_series_same m a b' :
  same_content a b' -> stored_series m a = stored_series m b'.
Proof.
  intros (Hh & Hp & Hb & Hn & _). destruct m; simpl; congruence.
Qed.

Lemma bucket_of_written now userKey b st :
  same_content (bucket_of userKey (write_own now userKey b st))
    (written_bucket now b (bucket_of userKey st)).
Proof.
  destruct (bucket_of_stored userKey _ _ (write_own_bucket now userKey b st))
    as (? & ? & ? & ? & ? & ? & ? & ?).
  unfold same_content. tauto.
Qed.

Lemma pairs_since_twice cutoff pairs :
  pairs_since cutoff (pairs_since cutoff pairs) = pairs_since cutoff pairs.
Proof. apply filter_filter. Qed.


(** A name [sanitizeUsername] lets through is not empty and has at most
    32 code units, so a bucket whose name was within these bounds keeps
    a name within them through every write. *)
Theorem written_username_bounded now b bk :
  (forall n, username bk = Some n -> name_ok n) ->
  forall n, username (written_bucket now b bk) = Some n -> name_ok n.
Proof.
  intros Hold n.
  destruct (written_scalars now b bk) as (_ & Wu & _). rewrite Wu.
  destruct (sanitizeUsername (body_username b)) as [c|] eqn:E; [|apply Hold].
  intros [= <-]. unfold sanitizeUsername in E.
  destruct (body_username b) as [| | | |s| |]; try discriminate.
  apply AuthFacts.nonempty_some in E. destruct E as [-> Hne].
  split; [exact Hne | apply substring_length].
Qed.

End WithPlatform.

Import Examples.

Lemma written_within_window_witness :
  exists st' bk,
    @writeMemory plain_platform 2600000 "u" (honey_at 5 2599000) stored_at_100
    = Some st'
    /\ samples st' !! "u" = Some bk
    /\ honey bk = [Sample (of_Z 2599000) (of_Z 5)]
    /\ bucket_since (of_Z (2600000 - 2592000)) bk.
Proof.
  destruct (@written_within_window plain_platform 2600000 "u"
              (honey_at 5 2599000) stored_at_100 eq_refl)
    as (st' & bk & W & L & B).
  exists st', bk. split; [exact W|]. split; [exact L|]. split; [|exact B].
  vm_compute in W. injection W as <-. vm_compute in L. now injection L as <-.
Defined.


Lemma written_username_bounded_witness : name_ok "Queen".
Proof.
  apply (@written_username_bounded plain_platform 5
           {| body_honey := int 1; body_pollen := JUndefined;
              body_backpack := JUndefined;
              body_backpackCapacity := JUndefined;
              body_nectar := JUndefined; body_at := JUndefined;
              body_currentHoney := JUndefined;
              body_username := JStr "Queen";
              body_playerId := JUndefined |}
           (@new_bucket plain_platform "u") ltac:(discriminate) "Queen").
  reflexivity.
Defined.

End WriteFacts.

(** ** Reads, public ids and sessions *)

Module ReadFacts.
Import Server Observe Survey NumFacts LookupFacts StoreFacts IngestFacts.

Lemma same_content_refl (bk : bucket) : same_content bk bk.
Proof. unfold same_content. tauto. Qed.

Lemma natural_max_floor (n : num) :
  isFinite n = true -> natural (JsNum.max (of_Z 0) (floor n)).
Proof.
  destruct n as [q| |]; try discriminate. intros _.
  unfold floor, JsNum.max, of_Z.
  destruct (leb (Fin (inject_Z 0)) (Fin (inject_Z (Qfloor q)))) eqn:E.
  - exists (Qfloor q). split; [reflexivity|].
    apply (proj1 (leb_of_Z 0 (Qfloor q))). exact E.
  - exists 0. split; [reflexivity | lia].
Qed.

Section WithPlatform.

Context `{Platform}.

(** A player id, once normalised, is a whole number that is not
    negative: a number is floored, a negative one becomes 0, and a
    string counts through [Number]. *)
Theorem normalizePlayerId_natural (value : jsval) (n : num) :
  normalizePlayerId value = Some n -> natural n.
Proof.
  unfold normalizePlayerId. destruct value as [| | |x|s| |]; try discriminate.
  - destruct (isFinite x) eqn:F; [|discriminate].
    intros [= <-]. now apply natural_max_floor.
  - destruct (String.eqb (trim s) EmptyString); [discriminate|].
    destruct (isFinite (string_to_number (trim s))) eqn:F; [|discriminate].
    intros [= <-]. now apply natural_max_floor.
Qed.

Lemma own_bucket_lookup userKey st k :
  samples (snd (own_bucket userKey st)) !! k
  = if decide (userKey = k) then Some (bucket_of userKey st)
    else samples st !! k.
Proof.
  rewrite own_bucket_samples. rewrite lookup_insert.
  destruct (decide (userKey = k)); reflexivity.
Qed.

Lemma read_own_samples userKey cutoff st :
  samples (snd (read_own userKey cutoff st))
  = samples (snd (own_bucket userKey st)).
Proof.
  unfold read_own.
  destruct (own_bucket userKey st) as [bucket st1]. simpl.
  apply samples_cachePublicMapping.
Qed.

(** A read from memory for a key that is no inherited property name
    runs to its end and changes no series and no scalar of any bucket;
    a key that had no bucket has an empty one afterwards. *)
Theorem memory_read_keeps_buckets userKey cutoff st :
  inherited userKey = false ->
  exists data st',
    collectMemoryStats userKey cutoff st = Some (data, st')
    /\ (forall k bk,
          samples st !! k = Some bk ->
          exists bk', samples st' !! k = Some bk' /\ same_content bk' bk)
    /\ (samples st !! userKey = None ->
        samples st' !! userKey = Some (new_bucket userKey)).
Proof.
  intros Hk. rewrite (collectMemoryStats_plain _ _ _ Hk).
  pose proof (read_own_samples userKey cutoff st) as Es.
  destruct (read_own userKey cutoff st) as [data st']. cbn [snd] in Es.
  exists data, st'. split; [reflexivity|]. rewrite Es. split.
  - intros k bk E. rewrite own_bucket_lookup.
    destruct (decide (userKey = k)) as [->|_].
    + eexists. split; [reflexivity|].
      destruct (bucket_of_stored k st bk E) as (? & ? & ? & ? & ? & ? & ? & ?).
      unfold same_content. tauto.
    + exists bk. split; [exact E | apply same_content_refl].
  - intros E. rewrite own_bucket_lookup.
    destruct (decide (userKey = userKey)); [|congruence].
    unfold bucket_of, own_bucket. rewrite E. simpl.
    destruct (String.eqb (getPublicId userKey) EmptyString); reflexivity.
Qed.

(** When a query of the database read raises, the answer and the stores
    are those of the server without a database. *)
Theorem stats_fallback_is_memory raises cfg now userKey periodSec o st d :
  USE_DB cfg = true ->
  raises (SelectSamples userKey (of_Z (now - periodSec))) = true
  \/ raises (SelectUser userKey) = true ->
  sendStatsResponse raises cfg now userKey periodSec o st d
  = sendStatsResponse raises
      {| env_API_KEY := env_API_KEY cfg; env_CLIENT_KEY := env_CLIENT_KEY cfg;
         USE_DB := false |}
      now userKey periodSec o st d.
Proof.
  intros Hdb Hr. unfold sendStatsResponse. rewrite Hdb. simpl.
  unfold collectDbStats.
  destruct (raises (SelectSamples userKey (of_Z (now - periodSec)))) eqn:R1;
    [reflexivity|].
  destruct Hr as [Hr|Hr]; [discriminate|]. now rewrite Hr.
Qed.

Lemma cache_lookup publicId userKey name st pid :
  present publicId = Some pid -> userKey <> EmptyString ->
  publicIdToUserKey (cachePublicMapping publicId userKey name st)
  = <[pid := (userKey, present name)]> (publicIdToUserKey st).
Proof.
  intros Ep Hu. unfold cachePublicMapping. rewrite Ep.
  unfold nonempty. apply String.eqb_neq in Hu. now rewrite Hu.
Qed.

Lemma cache_keeps publicId userKey name st pid x :
  publicIdToUserKey st !! pid = Some (userKey, x) ->
  exists y,
    publicIdToUserKey (cachePublicMapping publicId userKey name st) !! pid
    = Some (userKey, y).
Proof.
  intros E. unfold cachePublicMapping.
  destruct (present publicId) as [p|]; [|eauto].
  destruct (nonempty userKey); [|eauto]. simpl.
  rewrite lookup_insert. destruct (decide (p = pid)); eauto.
Qed.

Lemma present_nonempty (s : string) : s <> EmptyString -> present (Some s) = Some s.
Proof.
  intros Hne. simpl. unfold nonempty. apply String.eqb_neq in Hne.
  now rewrite Hne.
Qed.

Lemma bucket_of_publicId userKey st :
  getPublicId userKey <> EmptyString ->
  publicId (bucket_of userKey st) <> EmptyString.
Proof.
  intros Hp. unfold bucket_of, own_bucket. simpl.
  destruct (String.eqb (publicId (default (new_bucket userKey)
                                     (samples st !! userKey))) EmptyString)
    eqn:E; simpl; [exact Hp | now apply String.eqb_neq].
Qed.

Lemma own_bucket_cached userKey st :
  userKey <> EmptyString -> getPublicId userKey <> EmptyString ->
  exists x,
    publicIdToUserKey (snd (own_bucket userKey st))
      !! publicId (bucket_of userKey st)
    = Some (userKey, x).
Proof.
  intros Hu Hp. pose proof (bucket_of_publicId userKey st Hp) as Hb.
  unfold bucket_of in *. unfold own_bucket in *. cbn [fst snd] in *.
  erewrite cache_lookup; [|now apply present_nonempty|exact Hu].
  rewrite lookup_insert_eq. eauto.
Qed.

Lemma recordMemorySession_keeps userKey pid name seen honey st id x :
  publicIdToUserKey st !! id = Some (userKey, x) ->
  exists y,
    publicIdToUserKey (recordMemorySession userKey pid name seen honey st) !! id
    = Some (userKey, y).
Proof.
  intros E. unfold recordMemorySession.
  destruct (String.eqb userKey EmptyString || negb (JsNum.truthy pid)); [eauto|].
  eapply cache_keeps.
  destruct (lookup (memorySessions st) userKey); simpl; exact E.
Qed.

(** The public id of a user whose key is no inherited property name
    is cached with the key by every read from memory and by every
    write to memory: afterwards [publicIdToUserKey] holds the key under
    the id the answer of the read shows, and under the public id of
    the bucket the write leaves. *)
Theorem public_id_resolves userKey st :
  inherited userKey = false ->
  userKey <> EmptyString ->
  getPublicId userKey <> EmptyString ->
  (forall cutoff, exists data st' x,
      collectMemoryStats userKey cutoff st = Some (data, st')
      /\ publicIdToUserKey st' !! player_id data = Some (userKey, x))
  /\ (forall now b, exists st' bk x,
         writeMemory now userKey b st = Some st'
         /\ samples st' !! userKey = Some bk
         /\ publicIdToUserKey st' !! publicId bk = Some (userKey, x)).
Proof.
  intros Hk Hu Hp.
  destruct (own_bucket_cached userKey st Hu Hp) as [x Ex]. split.
  - intros cutoff. rewrite (collectMemoryStats_plain _ _ _ Hk).
    unfold read_own. unfold bucket_of in *.
    destruct (own_bucket userKey st) as [bucket st1]. cbn [fst snd] in *.
    destruct (cache_keeps (Some (publicId bucket)) userKey (username bucket)
                st1 _ _ Ex) as [y Ey].
    eexists _, _, y. split; [reflexivity | exact Ey].
  - intros now b. rewrite (writeMemory_plain _ _ _ _ Hk).
    exists (write_own now userKey b st),
      (written_bucket now b (bucket_of userKey st)).
    destruct (written_scalars now b (bucket_of userKey st))
      as (_ & _ & _ & _ & Wid).
    rewrite Wid.
    assert (G : exists y,
               publicIdToUserKey (write_own now userKey b st)
                 !! publicId (bucket_of userKey st) = Some (userKey, y)).
    { unfold write_own. unfold bucket_of in *.
      destruct (own_bucket userKey st) as [bucket st1]. cbn [fst snd] in *.
      destruct (cache_keeps (Some (publicId bucket)) userKey
                  (username (written_bucket now b bucket)) st1 _ _ Ex)
        as [y Ey].
      set (st2 := cachePublicMapping _ _ _ st1) in *.
      assert (Ey' : publicIdToUserKey
                      (with_samples
                         (<[userKey := written_bucket now b bucket]> (samples st2))
                         st2) !! publicId bucket = Some (userKey, y))
        by exact Ey.
      destruct (normalizePlayerId (body_playerId b)) as [pid|];
        [destruct (JsNum.truthy pid)|]; eauto.
      eapply recordMemorySession_keeps. exact Ey'. }
    destruct G as [y Ey]. exists y.
    split; [reflexivity|]. split; [apply write_own_bucket | exact Ey].
Qed.

(** A write to memory for a key that is no inherited property name
    records a session for a player id that normalises to a number
    other than 0: under the id's string, with the event time as
    [lastSeen] and the derived public id, next to the sessions the key
    had.  Without such an id the sessions stay as they are. *)
Theorem sessions_follow_player_id now userKey b st :
  inherited userKey = false ->
  userKey <> EmptyString ->
  exists st',
    writeMemory now userKey b st = Some st'
    /\ (forall pid,
          normalizePlayerId (body_playerId b) = Some pid ->
          JsNum.truthy pid = true ->
          exists mine s,
            memorySessions st' !! userKey = Some mine
            /\ mine !! number_to_string pid = Some s
            /\ playerId s = pid
            /\ session_lastSeen s = event_time now b
            /\ session_publicId s = getSessionPublicId userKey pid
            /\ forall other, other <> number_to_string pid ->
                 mine !! other
                 = default ∅ (memorySessions st !! userKey) !! other)
    /\ (normalizePlayerId (body_playerId b) = None
        \/ normalizePlayerId (body_playerId b) = Some (of_Z 0) ->
        memorySessions st' = memorySessions st).
Proof.
  intros Hk Hu. rewrite (writeMemory_plain _ _ _ _ Hk).
  exists (write_own now userKey b st). split; [reflexivity|].
  assert (Sg : memorySessions (snd (own_bucket userKey st)) = memorySessions st).
  { unfold own_bucket. simpl. unfold cachePublicMapping.
    destruct (present _), (nonempty userKey); reflexivity. }
  assert (Sc : forall p k n s0,
             memorySessions (cachePublicMapping p k n s0) = memorySessions s0).
  { intros. unfold cachePublicMapping.
    destruct (present p), (nonempty k); reflexivity. }
  split.
  - intros pid Epid Ht. unfold write_own.
    destruct (own_bucket userKey st) as [bucket st1]. cbn [snd] in Sg.
    rewrite Epid, Ht. unfold recordMemorySession.
    apply String.eqb_neq in Hu. rewrite Hu, Ht. simpl orb. cbv iota.
    rewrite Sc. cbn [memorySessions with_sessions with_samples].
    rewrite (lookup_plain _ _ Hk).
    cbn [memorySessions with_sessions with_samples]. rewrite Sc, Sg.
    destruct (memorySessions st !! userKey) as [mine|];
      cbn [memorySessions with_sessions with_samples default];
      rewrite lookup_insert_eq;
      (eexists _, _; split; [reflexivity|];
       split; [apply lookup_insert_eq|];
       split; [reflexivity|]; split; [reflexivity|]; split; [reflexivity|];
       intros other Hne; now rewrite lookup_insert_ne by congruence).
  - intros E. unfold write_own.
    destruct (own_bucket userKey st) as [bucket st1]. cbn [snd] in Sg.
    destruct E as [E|E]; rewrite E.
    + cbn [memorySessions with_samples]. now rewrite Sc.
    + change (JsNum.truthy (of_Z 0)) with false. cbv iota.
      cbn [memorySessions with_samples]. now rewrite Sc.
Qed.

End WithPlatform.

Import Examples.

Lemma normalizePlayerId_natural_witness : natural (of_Z 0).
Proof.
  apply (@normalizePlayerId_natural plain_platform (JNum (Fin (-7 # 2)))
           (of_Z 0)).
  reflexivity.
Defined.

Lemma stats_fallback_is_memory_witness :
  @sendStatsResponse plain_platform always mysql_cfg 20 "u" 3600 None
    stored_at_100 empty_database
  = @sendStatsResponse plain_platform always
      {| env_API_KEY := env_API_KEY mysql_cfg;
         env_CLIENT_KEY := env_CLIENT_KEY mysql_cfg; USE_DB := false |}
      20 "u" 3600 None stored_at_100 empty_database.
Proof.
  apply (@stats_fallback_is_memory plain_platform always mysql_cfg 20 "u" 3600
           None stored_at_100 empty_database);
    [reflexivity | left; reflexivity].
Defined.

Lemma memory_read_keeps_buckets_witness :
  exists data st' bk',
    @collectMemoryStats plain_platform "w" (of_Z 0) stored_at_100
    = Some (data, st')
    /\ samples st' !! "u" = Some bk'
    /\ honey bk' = [Sample (of_Z 100) (of_Z 7)]
    /\ samples st' !! "w" = Some (@new_bucket plain_platform "w").
Proof.
  destruct (@memory_read_keeps_buckets plain_platform "w" (of_Z 0)
              stored_at_100 eq_refl)
    as (data & st' & E & K & N).
  destruct (K "u" _ eq_refl) as (bk' & L & C).
  exists data, st', bk'. split; [exact E|]. split; [exact L|].
  split; [exact (proj1 C) | exact (N eq_refl)].
Defined.

Lemma public_id_resolves_witness :
  exists data st' x,
    @collectMemoryStats plain_platform "u" (of_Z 0) initial = Some (data, st')
    /\ publicIdToUserKey st' !! player_id data = Some ("u", x).
Proof.
  apply (proj1 (@public_id_resolves plain_platform "u" initial eq_refl
                  ltac:(discriminate) ltac:(discriminate)) (of_Z 0)).
Defined.

Lemma sessions_follow_player_id_witness :
  exists st' mine s,
    @writeMemory plain_platform 5 "u" (honey_of_player 1 5 42) initial
    = Some st'
    /\ memorySessions st' !! "u" = Some mine
    /\ mine !! @number_to_string plain_platform (of_Z 42) = Some s
    /\ playerId s = of_Z 42
    /\ session_lastSeen s = of_Z 5.
Proof.
  destruct (@sessions_follow_player_id plain_platform 5 "u"
              (honey_of_player 1 5 42) initial eq_refl ltac:(discriminate))
    as (st' & W & S & _).
  destruct (S (of_Z 42) eq_refl eq_refl) as (mine & s & M & L & P & T & _).
  exists st', mine, s. split; [exact W|]. split; [exact M|].
  split; [exact L|]. split; [exact P | exact T].
Defined.

End ReadFacts.

(** ** The durable store *)

Module DurableFacts.
Import Server Observe Survey NumFacts StoreFacts IngestFacts IngestAnswers.

Lemma substring_all (s : string) : String.substring 0 (String.length s) s = s.
Proof. induction s as [|c s IH]; simpl; [reflexivity | now rewrite IH]. Qed.

Lemma prefix_split (p s : string) :
  String.prefix p s = true ->
  s = String.append p
        (String.substring (String.length p)
           (String.length s - String.length p) s).
Proof.
  revert s. induction p as [|a p IH]; intros s E.
  - simpl. rewrite Nat.sub_0_r. symmetry. apply substring_all.
  - destruct s as [|c s]; [discriminate|]. simpl in E.
    destruct (ascii_dec a c) as [->|]; [|discriminate].
    simpl. unfold String.append. fold String.append.
    f_equal. now apply IH.
Qed.

Lemma nectarTypeFromMetric_inv (metric : string) (ty : nectar_type) :
  nectarTypeFromMetric metric = Some ty -> metric = nectarMetricForType ty.
Proof.
  unfold nectarTypeFromMetric, nectarMetricForType.
  destruct (String.eqb metric EmptyString) eqn:E0; [discriminate|].
  destruct (String.prefix "nectar_" metric) eqn:Ep; [|discriminate].
  cbn [orb negb]. intros Hf. apply List.find_some in Hf.
  destruct Hf as [_ Hs]. apply String.eqb_eq in Hs. rewrite Hs.
  exact (prefix_split "nectar_" metric Ep).
Qed.

Lemma nectarTypeFromMetric_name (ty : nectar_type) :
  nectarTypeFromMetric (nectarMetricForType ty) = Some ty.
Proof. destruct ty; reflexivity. Qed.

(** What a row adds to the array of a metric. *)
Lemma collect_row_series (m : metric) (acc : row_series) (r : sample_row) :
  row_series_of m (collect_row acc r)
  = row_series_of m acc
    ++ (if String.eqb (row_metric r) (metric_name m)
        then [Sample (row_t r) (row_v r)] else []).
Proof.
  unfold collect_row.
  destruct (String.eqb (row_metric r) "honey") eqn:E1.
  { apply String.eqb_eq in E1. rewrite E1.
    destruct m as [| | |ty]; try (now rewrite ?app_nil_r);
      destruct ty; now rewrite app_nil_r. }
  destruct (String.eqb (row_metric r) "pollen") eqn:E2.
  { apply String.eqb_eq in E2. rewrite E2.
    destruct m as [| | |ty]; try (now rewrite ?app_nil_r);
      destruct ty; now rewrite app_nil_r. }
  destruct (String.eqb (row_metric r) "backpack") eqn:E3.
  { apply String.eqb_eq in E3. rewrite E3.
    destruct m as [| | |ty]; try (now rewrite ?app_nil_r);
      destruct ty; now rewrite app_nil_r. }
  destruct (String.eqb (row_metric r) "backpack_capacity") eqn:E4.
  { apply String.eqb_eq in E4. rewrite E4.
    destruct m as [| | |ty]; try (now rewrite ?app_nil_r);
      destruct ty; now rewrite app_nil_r. }
  destruct (nectarTypeFromMetric (row_metric r)) as [ty'|] eqn:En.
  - apply nectarTypeFromMetric_inv in En.
    destruct m as [| | |ty]; cbn [row_series_of metric_name rows_honey
                                   rows_pollen backpackRaw rows_nectar].
    + now rewrite E1, app_nil_r.
    + now rewrite E2, app_nil_r.
    + now rewrite E3, app_nil_r.
    + rewrite nectar_get_set, En.
      destruct (decide (ty = ty')) as [->|Hne].
      * now rewrite String.eqb_refl.
      * destruct ty, ty'; try congruence; now rewrite app_nil_r.
  - destruct m as [| | |ty]; cbn [row_series_of metric_name].
    + now rewrite E1, app_nil_r.
    + now rewrite E2, app_nil_r.
    + now rewrite E3, app_nil_r.
    + destruct (String.eqb (row_metric r) (nectarMetricForType ty)) eqn:E;
        [|now rewrite app_nil_r].
      apply String.eqb_eq in E. rewrite E, nectarTypeFromMetric_name in En.
      discriminate.
Qed.

Lemma collect_rows_series (m : metric) (rows : list sample_row) :
  row_series_of m (collect_rows rows)
  = map (fun r => Sample (row_t r) (row_v r))
      (List.filter (fun r => String.eqb (row_metric r) (metric_name m)) rows).
Proof.
  unfold collect_rows.
  assert (G : forall acc,
             row_series_of m (fold_left collect_row rows acc)
             = row_series_of m acc
               ++ map (fun r => Sample (row_t r) (row_v r))
                    (List.filter
                       (fun r => String.eqb (row_metric r) (metric_name m))
                       rows)).
  { induction rows as [|r rest IH]; simpl; intros acc.
    - now rewrite app_nil_r.
    - rewrite IH, collect_row_series, <- app_assoc.
      now destruct (String.eqb (row_metric r) (metric_name m)). }
  rewrite G. destruct m as [| | |ty]; try reflexivity. now destruct ty.
Qed.

Lemma insert_by_t_perm (x : sample_row) (sorted : list sample_row) :
  Permutation (insert_by_t x sorted) (x :: sorted).
Proof.
  induction sorted as [|y rest IH]; simpl; [reflexivity|].
  destruct (ltb (row_t x) (row_t y)); [reflexivity|].
  rewrite IH. apply perm_swap.
Qed.

Lemma order_by_t_perm (rows : list sample_row) :
  Permutation (order_by_t rows) rows.
Proof.
  unfold order_by_t.
  assert (G : forall acc,
             Permutation (fold_left (fun sorted r => insert_by_t r sorted)
                            rows acc) (acc ++ rows)).
  { induction rows as [|r rest IH]; simpl; intros acc.
    - now rewrite app_nil_r.
    - rewrite IH, insert_by_t_perm. apply Permutation_middle. }
  apply (G []).
Qed.

(** The rows a read selects: those of the user at or after the cutoff. *)
Lemma in_select_samples userKey cutoff d r :
  In r (select_samples userKey cutoff d)
  <-> In r (samples_table d) /\ row_user r = userKey
      /\ geb (row_t r) cutoff = true.
Proof.
  unfold select_samples. split.
  - intros Hin.
    apply (Permutation_in _ (order_by_t_perm _)) in Hin.
    apply List.filter_In in Hin. destruct Hin as [Hin E].
    apply andb_true_iff in E. destruct E as [Eu Et].
    apply String.eqb_eq in Eu. auto.
  - intros (Hin & Eu & Et).
    apply (Permutation_in _ (Permutation_sym (order_by_t_perm _))).
    apply List.filter_In. split; [exact Hin|].
    apply andb_true_iff. split; [now apply String.eqb_eq | exact Et].
Qed.

Lemma in_row_series userKey cutoff d m t v :
  In (Sample t v)
    (row_series_of m (collect_rows (select_samples userKey cutoff d)))
  <-> exists r, In r (samples_table d) /\ row_of userKey cutoff m r
                /\ row_t r = t /\ row_v r = v.
Proof.
  rewrite collect_rows_series, List.in_map_iff. unfold row_of. split.
  - intros (r & Er & Hin). apply List.filter_In in Hin.
    destruct Hin as [Hin Em]. apply in_select_samples in Hin.
    apply String.eqb_eq in Em. exists r.
    destruct Hin as (? & ? & ?). injection Er as <- <-. tauto.
  - intros (r & Hin & (Eu & Et & Em) & <- & <-). exists r.
    split; [reflexivity|]. apply List.filter_In.
    split; [now apply in_select_samples | now apply String.eqb_eq].
Qed.

Lemma in_merge_from lastCap caps raw t v :
  (exists pct, In (BpPoint t v pct) (merge_from lastCap caps raw))
  <-> In (Sample t v) raw.
Proof.
  revert lastCap. induction raw as [|e rest IH]; intros lastCap;
    cbn [merge_from In].
  - split; [intros [_ []] | intros []].
  - split.
    + intros [pct [E|Hin]].
      * left. destruct e. simpl in E. congruence.
      * right. refine (proj1 (IH _) _). exists pct. exact Hin.
    + intros [->|Hin].
      * eexists. left. reflexivity.
      * pose proof (fun c => proj2 (IH c) Hin) as G.
        match goal with
        | |- context [merge_from ?c caps rest] =>
            destruct (G c) as [pct Hp]
        end.
        exists pct. now right.
Qed.

Section WithPlatform.

Context `{Platform}.

(** A read of the durable store holds a pair in the series of a
    metric exactly when the samples table holds a row of the user for
    the metric with that time and value, at or after the cutoff. *)
Lemma db_series_has raises userKey cutoff st d data st' m t v :
  collectDbStats raises userKey cutoff st d = (Some data, st') ->
  series_has data m t v
  <-> exists r, In r (samples_table d) /\ row_of userKey cutoff m r
                /\ row_t r = t /\ row_v r = v.
Proof.
  unfold collectDbStats.
  destruct (raises (SelectSamples userKey cutoff)); [discriminate|].
  destruct (raises (SelectUser userKey)); [discriminate|].
  intros [= <- _]. rewrite <- in_row_series.
  destruct m as [| | |ty]; cbn [series_has row_series_of stats_honey
                                 stats_pollen stats_backpack stats_nectar];
    try reflexivity.
  unfold mergeBackpackSeries. apply in_merge_from.
Qed.

Lemma db_read_answers raises userKey cutoff st d :
  raises (SelectSamples userKey cutoff) = false ->
  raises (SelectUser userKey) = false ->
  exists data st', collectDbStats raises userKey cutoff st d = (Some data, st').
Proof.
  intros R1 R2. unfold collectDbStats. rewrite R1, R2. eauto.
Qed.

Lemma recordDbSession_table raises userKey pid name seen honey st d :
  samples_table (snd (recordDbSession raises userKey pid name seen honey st d))
  = samples_table d
  /\ users (snd (recordDbSession raises userKey pid name seen honey st d))
     = users d.
Proof.
  unfold recordDbSession.
  destruct (getSessionPublicId userKey pid); [|split; reflexivity].
  destruct (raises _); split; reflexivity.
Qed.

(** The samples table after the [try] block: the rows from before,
    followed by the rows of the request when the block got past their
    insertion. *)
Lemma ingest_durable_table raises now userKey b st d :
  let '(ok, _, d1) := ingest_durable raises now userKey b st d in
  (ok = true ->
   samples_table d1
   = samples_table d ++ inserts userKey (event_time now b) b)
  /\ exists rows, samples_table d1 = samples_table d ++ rows.
Proof.
  unfold ingest_durable.
  set (t := event_time now b).
  set (rows := inserts userKey t b).
  destruct (raises (InsertUser userKey (getPublicId userKey))).
  { split; [discriminate|]. exists []. now rewrite app_nil_r. }
  destruct (Nat.eqb (length rows) 0) eqn:R0; simpl negb; cbn [andb].
  - apply rows_empty in R0. rewrite R0.
    destruct (raises (UpdateUser _ t _ userKey)).
    { split; [discriminate|]. exists []. simpl. now rewrite app_nil_r. }
    destruct (normalizePlayerId (body_playerId b)) as [pid|];
      [destruct (JsNum.truthy pid)|].
    + match goal with
      | |- context [recordDbSession ?r ?u ?p ?n ?s ?h ?st0 ?d0] =>
          pose proof (recordDbSession_table r u p n s h st0 d0) as [E _];
          destruct (recordDbSession r u p n s h st0 d0) as [st2 d2]
      end.
      simpl in E. rewrite E. simpl.
      split; [intros _ | exists []]; now rewrite app_nil_r.
    + simpl. split; [intros _ | exists []]; now rewrite app_nil_r.
    + simpl. split; [intros _ | exists []]; now rewrite app_nil_r.
  - destruct (raises (InsertSamples rows)).
    { split; [discriminate|]. exists []. simpl. now rewrite app_nil_r. }
    destruct (raises (UpdateUser _ t _ userKey)).
    { split; [discriminate|]. exists rows. reflexivity. }
    destruct (normalizePlayerId (body_playerId b)) as [pid|];
      [destruct (JsNum.truthy pid)|].
    + match goal with
      | |- context [recordDbSession ?r ?u ?p ?n ?s ?h ?st0 ?d0] =>
          pose proof (recordDbSession_table r u p n s h st0 d0) as [E _];
          destruct (recordDbSession r u p n s h st0 d0) as [st2 d2]
      end.
      simpl in E. rewrite E. simpl.
      split; [reflexivity|]. exists rows. reflexivity.
    + simpl. split; [reflexivity|]. exists rows. reflexivity.
    + simpl. split; [reflexivity|]. exists rows. reflexivity.
Qed.

Lemma in_sample_rows userKey metric t x v :
  finite_number x = Some v ->
  In {| row_user := userKey; row_metric := metric; row_t := t; row_v := v |}
    (sample_rows userKey metric t x).
Proof. intros E. unfold sample_rows. rewrite E. now left. Qed.

(** The rows of a request hold one row for every metric it carries. *)
Lemma in_inserts userKey t b m v :
  carries b m v ->
  In {| row_user := userKey; row_metric := metric_name m; row_t := t;
        row_v := v |} (inserts userKey t b).
Proof.
  intros Hc. unfold inserts. destruct m as [| | |ty]; simpl in Hc.
  - apply in_or_app. left. now apply in_sample_rows.
  - apply in_or_app. right. apply in_or_app. left. now apply in_sample_rows.
  - do 2 (apply in_or_app; right). apply in_or_app. left.
    now apply in_sample_rows.
  - do 4 (apply in_or_app; right).
    rewrite (hasNectar_carries b ty v Hc). apply in_flat_map.
    exists ty. split; [destruct ty; simpl; tauto|].
    now apply in_sample_rows.
Qed.

(** With the durable store and no failing statement, what an ingest
    carries is read back whatever its age: the answer is mode mysql,
    no bucket in memory changes, and every later read of the store
    whose cutoff is at most the event time holds the pair [(t, v)] in
    the series of the metric. *)
Theorem durable_roundtrip raises cfg now userKey b st d m v :
  USE_DB cfg = true ->
  ~ durable_raises raises now userKey b ->
  carries b m v ->
  exists st' d',
    ingest raises cfg now userKey b st d
    = (Sent (json (IngestOk "mysql"), st'), d')
    /\ samples st' = samples st
    /\ forall reads cutoff st0,
        reads (SelectSamples userKey cutoff) = false ->
        reads (SelectUser userKey) = false ->
        geb (event_time now b) cutoff = true ->
        exists data st1,
          collectDbStats reads userKey cutoff st0 d' = (Some data, st1)
          /\ series_has data m (event_time now b) v.
Proof.
  intros Hdb Hnr Hc.
  pose proof (carries_has_metric b m v Hc) as Hm.
  apply no_metrics_false_iff in Hm.
  unfold ingest. rewrite Hm, Hdb. simpl negb. cbv iota.
  pose proof (ingest_durable_outcome raises now userKey b st d) as O.
  pose proof (ingest_durable_table raises now userKey b st d) as T.
  destruct (ingest_durable raises now userKey b st d) as [[ok st1] d1].
  destruct O as [Ok Es]. destruct T as [Tok _].
  destruct ok; [|exfalso; apply Hnr; now apply Ok].
  exists st1, d1. split; [reflexivity|]. split; [exact Es|].
  intros reads cutoff st0 R1 R2 Hcut.
  destruct (db_read_answers reads userKey cutoff st0 d1 R1 R2)
    as (data & st2 & E).
  exists data, st2. split; [exact E|].
  apply (db_series_has reads userKey cutoff st0 d1 data st2 m _ _ E).
  eexists. split.
  - rewrite (Tok eq_refl). apply in_or_app. right.
    apply (in_inserts userKey (event_time now b) b m v Hc).
  - unfold row_of. simpl. auto.
Qed.

(** No ingest removes a sample from the durable store: whatever the
    request and whichever statements fail, every pair a read of the
    store held before is held by the same read afterwards, for every
    user. *)
Theorem durable_history_kept raises cfg now h b st d reads user cutoff st0 :
  reads (SelectSamples user cutoff) = false ->
  reads (SelectUser user) = false ->
  exists data st1 data' st1',
    collectDbStats reads user cutoff st0 d = (Some data, st1)
    /\ collectDbStats reads user cutoff st0
         (snd (post_ingest raises cfg now h b st d))
       = (Some data', st1')
    /\ forall m t v, series_has data m t v -> series_has data' m t v.
Proof.
  intros R1 R2.
  destruct (db_read_answers reads user cutoff st0 d R1 R2) as (data & st1 & E).
  exists data, st1.
  assert (T : exists rows,
             samples_table (snd (post_ingest raises cfg now h b st d))
             = samples_table d ++ rows).
  { unfold post_ingest. destruct (requireWriteKey cfg h) as [r|userKey].
    { exists []. simpl. now rewrite app_nil_r. }
    unfold ingest. destruct (no_metrics b).
    { exists []. simpl. now rewrite app_nil_r. }
    destruct (USE_DB cfg); simpl negb; cbv iota.
    - pose proof (ingest_durable_table raises now userKey b st d) as T.
      destruct (ingest_durable raises now userKey b st d) as [[ok st2] d2].
      destruct T as [_ T].
      destruct ok; [|destruct (writeMemory now userKey b st2)]; exact T.
    - destruct (writeMemory now userKey b st); exists []; simpl;
        now rewrite app_nil_r. }
  destruct T as [rows T].
  destruct (db_read_answers reads user cutoff st0
              (snd (post_ingest raises cfg now h b st d)) R1 R2)
    as (data' & st1' & E').
  exists data', st1'.
  split; [exact E|]. split; [exact E'|]. intros m t v Hs.
  apply (db_series_has _ _ _ _ _ _ _ m t v E) in Hs.
  apply (db_series_has _ _ _ _ _ _ _ m t v E').
  destruct Hs as (r & Hin & Hr). exists r. split; [|exact Hr].
  rewrite T. apply in_or_app. now left.
Qed.

End WithPlatform.

Import Examples.

Lemma durable_roundtrip_witness :
  exists st' d',
    @ingest plain_platform never mysql_cfg 2592001 "u" (honey_at 5 0) initial
      empty_database
    = (Sent (json (IngestOk "mysql"), st'), d')
    /\ samples st' = samples initial
    /\ forall reads cutoff st0,
        reads (SelectSamples "u" cutoff) = false ->
        reads (SelectUser "u") = false ->
        geb (event_time 2592001 (honey_at 5 0)) cutoff = true ->
        exists data st1,
          @collectDbStats plain_platform reads "u" cutoff st0 d'
          = (Some data, st1)
          /\ series_has data OfHoney (event_time 2592001 (honey_at 5 0))
               (of_Z 5).
Proof.
  apply (@durable_roundtrip plain_platform never mysql_cfg 2592001 "u"
           (honey_at 5 0) initial empty_database OfHoney (of_Z 5));
    [reflexivity | | reflexivity].
  unfold durable_raises. simpl. intros [E|[[_ E]|E]]; discriminate.
Defined.

Lemma durable_history_kept_witness :
  exists data st1 data' st1',
    @collectDbStats plain_platform never "u" (of_Z 0) initial
      (snd (capacity_then_backpack mysql_cfg))
    = (Some data, st1)
    /\ @collectDbStats plain_platform never "u" (of_Z 0) initial
         (snd (@post_ingest plain_platform always mysql_cfg 9 writer
                 (honey_at 2 9) initial
                 (snd (capacity_then_backpack mysql_cfg))))
       = (Some data', st1')
    /\ forall m t v, series_has data m t v -> series_has data' m t v.
Proof.
  apply (@durable_history_kept plain_platform always mysql_cfg 9 writer
           (honey_at 2 9) initial (snd (capacity_then_backpack mysql_cfg))
           never "u" (of_Z 0) initial);
    reflexivity.
Defined.

End DurableFacts.

(** ** The order of a durable read, and the honey total *)

Module ReadOrderFacts.
Import Server Observe Survey NumFacts StoreFacts IngestFacts IngestAnswers.
Import DurableFacts.

Lemma ltb_leb (a b : num) : ltb a b = true -> leb a b = true.
Proof.
  destruct a as [x|[]|], b as [y|[]|]; simpl; try congruence.
  rewrite Qltb_lt, Qle_bool_iff. apply Qlt_le_weak.
Qed.

Lemma not_ltb_leb (a b : num) :
  isFinite a = true -> isFinite b = true ->
  ltb a b = false -> leb b a = true.
Proof.
  destruct a as [x|[]|], b as [y|[]|]; simpl; try discriminate.
  intros _ _ E. unfold Qltb in E. now apply negb_false_iff in E.
Qed.

Lemma insert_by_t_sorted (x : sample_row) (sorted : list sample_row) :
  isFinite (row_t x) = true ->
  Forall (fun r => isFinite (row_t r) = true) sorted ->
  Sorted rows_ascending sorted ->
  Sorted rows_ascending (insert_by_t x sorted).
Proof.
  intros Fx Fs S. induction sorted as [|y rest IH]; simpl.
  - repeat constructor.
  - inversion Fs as [|? ? Fy Fr]; subst. inversion S as [|? ? Sr Hd]; subst.
    destruct (ltb (row_t x) (row_t y)) eqn:E.
    + constructor; [exact S|]. constructor. now apply ltb_leb.
    + constructor; [now apply IH|].
      destruct rest as [|w rest']; simpl.
      * constructor. now apply not_ltb_leb.
      * destruct (ltb (row_t x) (row_t w)); constructor.
        -- now apply not_ltb_leb.
        -- now inversion Hd.
Qed.

Lemma order_by_t_sorted (rows : list sample_row) :
  Forall (fun r => isFinite (row_t r) = true) rows ->
  StronglySorted rows_ascending (order_by_t rows).
Proof.
  intros F. apply Sorted_StronglySorted.
  { intros a b c. unfold rows_ascending. apply leb_trans. }
  unfold order_by_t.
  assert (G : forall acc,
             Forall (fun r => isFinite (row_t r) = true) acc ->
             Forall (fun r => isFinite (row_t r) = true) rows ->
             Sorted rows_ascending acc ->
             Sorted rows_ascending
               (fold_left (fun sorted r => insert_by_t r sorted) rows acc)).
  { clear F. induction rows as [|r rest IH]; simpl; intros acc Fa Fr S;
      [exact S|].
    inversion Fr; subst. apply IH; [|assumption|now apply insert_by_t_sorted].
    eapply Permutation_Forall; [symmetry; apply insert_by_t_perm|].
    now constructor. }
  apply G; [constructor | exact F | constructor].
Qed.

Lemma sorted_filter {A : Type} (R : A -> A -> Prop) (f : A -> bool)
    (l : list A) :
  StronglySorted R l -> StronglySorted R (List.filter f l).
Proof.
  induction 1 as [|a l S IH F]; simpl; [constructor|].
  destruct (f a); [|exact IH]. constructor; [exact IH|].
  apply List.Forall_forall. intros x Hin. apply List.filter_In in Hin.
  destruct Hin as [Hin _]. revert x Hin. now apply List.Forall_forall.
Qed.

Lemma sorted_map {A B : Type} (R : B -> B -> Prop) (g : A -> B) (l : list A) :
  StronglySorted (fun a b => R (g a) (g b)) l -> StronglySorted R (map g l).
Proof.
  induction 1 as [|a l S IH F]; simpl; constructor; [exact IH|].
  apply List.Forall_forall. intros y Hin. apply List.in_map_iff in Hin.
  destruct Hin as (x & <- & Hin). revert x Hin. now apply List.Forall_forall.
Qed.

Lemma merge_from_times lastCap caps raw :
  map p_t (merge_from lastCap caps raw) = map s_t raw.
Proof.
  revert lastCap. induction raw as [|e rest IH]; intros lastCap;
    cbn [merge_from map]; [reflexivity|].
  cbn [p_t]. f_equal. apply IH.
Qed.

Lemma sorted_by_time {A B : Type} (ta : A -> num) (tb : B -> num)
    (la : list A) (lb : list B) :
  map ta la = map tb lb ->
  StronglySorted (fun a b => leb (ta a) (ta b) = true) la ->
  StronglySorted (fun a b => leb (tb a) (tb b) = true) lb.
Proof.
  intros E S. revert lb E.
  induction S as [|a l S IH F]; intros [|b lb] E; try discriminate;
    [constructor|].
  simpl in E. injection E as Ea El. constructor; [now apply IH|].
  apply List.Forall_forall. intros y Hin.
  assert (Hy : In (tb y) (map ta l)) by (rewrite El; now apply in_map).
  apply List.in_map_iff in Hy. destruct Hy as (x & Ex & Hx).
  rewrite <- Ea, <- Ex. clear Ex. revert x Hx. now apply List.Forall_forall.
Qed.

Lemma merge_from_sorted lastCap caps raw :
  StronglySorted ascending raw ->
  StronglySorted bp_ascending (merge_from lastCap caps raw).
Proof.
  intros S.
  apply (sorted_by_time s_t p_t raw (merge_from lastCap caps raw));
    [symmetry; apply merge_from_times | exact S].
Qed.

Lemma select_samples_sorted userKey cutoff d :
  timed d -> StronglySorted rows_ascending (select_samples userKey cutoff d).
Proof.
  intros T. unfold select_samples. apply order_by_t_sorted.
  apply List.Forall_forall. intros r Hin. apply List.filter_In in Hin.
  destruct Hin as [Hin _]. revert r Hin. now apply List.Forall_forall.
Qed.

Lemma row_series_sorted userKey cutoff d m :
  timed d ->
  StronglySorted ascending
    (row_series_of m (collect_rows (select_samples userKey cutoff d))).
Proof.
  intros T. rewrite collect_rows_series.
  apply sorted_map. apply sorted_filter.
  exact (select_samples_sorted userKey cutoff d T).
Qed.

Lemma find_updated (f : user_row -> user_row) (userKey : string)
    (l : list user_row) :
  (forall u, user_key (f u) = user_key u) ->
  existsb (fun u => String.eqb (user_key u) userKey) l = true ->
  exists u,
    List.find (fun u => String.eqb (user_key u) userKey) l = Some u
    /\ List.find (fun u => String.eqb (user_key u) userKey) (map f l)
       = Some (f u).
Proof.
  intros K. induction l as [|x rest IH]; simpl; [discriminate|].
  rewrite K. destruct (String.eqb (user_key x) userKey); simpl; eauto.
Qed.

Lemma has_user_inserted userKey publicId d :
  has_user userKey (run (InsertUser userKey publicId) d) = true.
Proof.
  unfold has_user at 1. cbn [run users].
  destruct (has_user userKey d) eqn:E; unfold has_user in E.
  - apply List.existsb_exists. apply List.existsb_exists in E.
    destruct E as (u & Hin & Eu).
    exists (if String.eqb (user_key u) userKey
            then {| user_key := user_key u;
                    public_id := coalesce (public_id u) (Some publicId);
                    current_honey := current_honey u;
                    last_activity := last_activity u;
                    user_username := user_username u |}
            else u).
    split.
    + apply List.in_map_iff. exists u. split; [reflexivity | exact Hin].
    + rewrite Eu. exact Eu.
  - rewrite List.existsb_app. simpl. rewrite String.eqb_refl.
    now rewrite orb_true_r.
Qed.

Lemma find_user_updated userKey n t name d :
  has_user userKey d = true ->
  exists u,
    List.find (fun u => String.eqb (user_key u) userKey)
      (users (run (UpdateUser (Some n) t name userKey) d))
    = Some u
    /\ current_honey u = n.
Proof.
  intros Hu. cbn [run users].
  destruct (find_updated
              (fun u =>
                 if String.eqb (user_key u) userKey
                 then {| user_key := user_key u;
                         public_id := public_id u;
                         current_honey := default (current_honey u) (Some n);
                         last_activity := t;
                         user_username := coalesce name (user_username u) |}
                 else u)
              userKey (users d))
    as (u & Eu & Ef).
  - intros u. now destruct (String.eqb (user_key u) userKey).
  - exact Hu.
  - eexists. split; [exact Ef|].
    apply List.find_some in Eu. destruct Eu as [_ Eu]. now rewrite Eu.
Qed.

Section WithPlatform.

Context `{Platform}.

(** With finite times in the samples table, every series of a read
    of the durable store ascends in time, however the rows arrived. *)
Theorem durable_read_ascending raises cfg now h period st d userKey :
  USE_DB cfg = true ->
  requireReadKey cfg h = Next userKey ->
  (forall cutoff, raises (SelectSamples userKey cutoff) = false) ->
  raises (SelectUser userKey) = false ->
  timed d ->
  exists data st',
    get_stats raises cfg now h period st d = Sent (json (StatsBody data), st')
    /\ all_ascending data.
Proof.
  intros Hdb Hauth R1 R2 T. unfold get_stats. rewrite Hauth.
  unfold sendStatsResponse. rewrite Hdb. simpl negb. cbv iota.
  unfold collectDbStats. rewrite R1, R2. cbn [apply_overrides].
  eexists _, _. split; [reflexivity|].
  unfold all_ascending. cbn [stats_honey stats_pollen stats_backpack
                              stats_nectar].
  split; [exact (row_series_sorted userKey _ d OfHoney T)|].
  split; [exact (row_series_sorted userKey _ d OfPollen T)|].
  split.
  - unfold mergeBackpackSeries. apply merge_from_sorted.
    exact (row_series_sorted userKey _ d OfBackpack T).
  - intros ty. exact (row_series_sorted userKey _ d (OfNectar ty) T).
Qed.

Lemma ingest_durable_users raises now userKey b st d :
  let '(ok, _, d1) := ingest_durable raises now userKey b st d in
  ok = true ->
  users d1
  = users (run (UpdateUser (number_or_null (body_currentHoney b))
                  (event_time now b) (sanitizeUsername (body_username b))
                  userKey)
             (run (InsertUser userKey (getPublicId userKey)) d)).
Proof.
  unfold ingest_durable.
  destruct (raises (InsertUser userKey (getPublicId userKey)));
    [discriminate|].
  destruct (Nat.eqb (length (inserts userKey (event_time now b) b)) 0);
    simpl negb; cbn [andb].
  - destruct (raises (UpdateUser _ _ _ userKey)); [discriminate|].
    destruct (normalizePlayerId (body_playerId b)) as [pid|];
      [destruct (JsNum.truthy pid)|]; try reflexivity.
    match goal with
    | |- context [recordDbSession ?r ?u ?p ?n ?s ?h ?st0 ?d0] =>
        pose proof (recordDbSession_table r u p n s h st0 d0) as [_ E];
        destruct (recordDbSession r u p n s h st0 d0) as [st2 d2]
    end.
    intros _. exact E.
  - destruct (raises (InsertSamples _)); [discriminate|].
    destruct (raises (UpdateUser _ _ _ userKey)); [discriminate|].
    destruct (normalizePlayerId (body_playerId b)) as [pid|];
      [destruct (JsNum.truthy pid)|]; try reflexivity.
    match goal with
    | |- context [recordDbSession ?r ?u ?p ?n ?s ?h ?st0 ?d0] =>
        pose proof (recordDbSession_table r u p n s h st0 d0) as [_ E];
        destruct (recordDbSession r u p n s h st0 d0) as [st2 d2]
    end.
    intros _. exact E.
Qed.

(** The honey total a request reports, a whole number of at most
    2^53 in magnitude (which the [BIGINT] column [current_honey] and
    the driver carry as it is), is the one the next read answers: from
    memory without a database, for a key that is no inherited property
    name, and from the users table when the durable write went through
    and the read queries do not fail.  A total of 0 reads as 0. *)
Theorem current_honey_roundtrip raises cfg now userKey b st d z reads now'
    periodSec o :
  body_currentHoney b = JNum (of_Z z) ->
  Z.abs z <= 2 ^ 53 ->
  (USE_DB cfg = false -> inherited userKey = false) ->
  (USE_DB cfg = true -> ~ durable_raises raises now userKey b) ->
  (forall cutoff, reads (SelectSamples userKey cutoff) = false) ->
  reads (SelectUser userKey) = false ->
  exists r st' d' data st'',
    ingest raises cfg now userKey b st d = (Sent (r, st'), d')
    /\ status r = 200
    /\ sendStatsResponse reads cfg now' userKey periodSec o st' d'
       = Sent (json (StatsBody data), st'')
    /\ stats_currentHoney data = or_zero (of_Z z).
Proof.
  intros Hb _ Hk Hnr R1 R2. set (n := of_Z z) in *.
  assert (Hm : no_metrics b = false).
  { unfold no_metrics. rewrite Hb. simpl.
    now rewrite !andb_false_r. }
  assert (Ho : forall data,
             stats_currentHoney (apply_overrides o data)
             = stats_currentHoney data).
  { intros data. now destruct o. }
  unfold ingest. rewrite Hm.
  destruct (USE_DB cfg) eqn:Hdb; simpl negb; cbv iota.
  - pose proof (ingest_durable_outcome raises now userKey b st d) as O.
    pose proof (ingest_durable_users raises now userKey b st d) as U.
    destruct (ingest_durable raises now userKey b st d) as [[ok st1] d1].
    destruct O as [Ok _].
    destruct ok; [|exfalso; apply (Hnr eq_refl); now apply Ok].
    specialize (U eq_refl). rewrite Hb in U. cbn [number_or_null] in U.
    assert (Su : exists u, select_user userKey d1 = Some u
                           /\ current_honey u = n).
    { unfold select_user. rewrite U. apply find_user_updated.
      apply has_user_inserted. }
    destruct Su as (u & Eu & En).
    exists (json (IngestOk "mysql")), st1, d1.
    unfold sendStatsResponse. rewrite Hdb. simpl negb. cbv iota.
    unfold collectDbStats. rewrite R1, R2, Eu.
    eexists _, _.
    split; [reflexivity|]. split; [reflexivity|]. split; [reflexivity|].
    rewrite Ho. cbn [stats_currentHoney]. now rewrite En.
  - specialize (Hk eq_refl). rewrite (writeMemory_plain _ _ _ _ Hk).
    exists (json (IngestOk "memory")), (write_own now userKey b st), d.
    unfold sendStatsResponse. rewrite Hdb. simpl negb. cbv iota.
    unfold answer_from_memory.
    rewrite (collectMemoryStats_plain _ _ _ Hk).
    pose proof (write_own_bucket now userKey b st) as W.
    pose proof (read_own_stored userKey (of_Z (now' - periodSec))
                  (write_own now userKey b st) _ W) as S.
    destruct (read_own userKey (of_Z (now' - periodSec))
                (write_own now userKey b st)) as [data st2].
    cbn [fst] in S. destruct S as (_ & _ & _ & _ & Sc).
    eexists _, st2.
    split; [reflexivity|]. split; [reflexivity|]. split; [reflexivity|].
    rewrite Ho, Sc.
    destruct (written_scalars now b (bucket_of userKey st))
      as (_ & _ & Wc & _).
    now rewrite Wc, Hb.
Qed.

End WithPlatform.

Import Examples.

Lemma durable_read_ascending_witness :
  exists data st',
    @get_stats plain_platform never mysql_cfg 20 reader (Some "1h")
      (fst (backpack_twice mysql_cfg)) (snd (backpack_twice mysql_cfg))
    = Sent (json (StatsBody data), st')
    /\ all_ascending data.
Proof.
  apply (@durable_read_ascending plain_platform never mysql_cfg 20 reader
           (Some "1h") (fst (backpack_twice mysql_cfg))
           (snd (backpack_twice mysql_cfg)) "u");
    try reflexivity.
  vm_compute. repeat constructor.
Defined.

Lemma current_honey_roundtrip_witness :
  exists r st' d' data st'',
    @ingest plain_platform never mysql_cfg 9 "u"
      {| body_honey := JUndefined; body_pollen := JUndefined;
         body_backpack := JUndefined; body_backpackCapacity := JUndefined;
         body_nectar := JUndefined; body_at := JUndefined;
         body_currentHoney := int 41; body_username := JUndefined;
         body_playerId := JUndefined |}
      initial empty_database
    = (Sent (r, st'), d')
    /\ status r = 200
    /\ @sendStatsResponse plain_platform never mysql_cfg 10 "u" 3600 None
         st' d'
       = Sent (json (StatsBody data), st'')
    /\ stats_currentHoney data = or_zero (of_Z 41).
Proof.
  apply (@current_honey_roundtrip plain_platform never mysql_cfg 9 "u"
           {| body_honey := JUndefined; body_pollen := JUndefined;
              body_backpack := JUndefined; body_backpackCapacity := JUndefined;
              body_nectar := JUndefined; body_at := JUndefined;
              body_currentHoney := int 41; body_username := JUndefined;
              body_playerId := JUndefined |}
           initial empty_database 41 never 10 3600 None eq_refl
           ltac:(vm_compute; discriminate) ltac:(discriminate));
    try reflexivity.
  intros _. unfold durable_raises. simpl.
  intros [E|[[_ E]|E]]; discriminate.
Defined.

End ReadOrderFacts.

(** ** Keys, the control state and the command mailbox *)

Module ControlFacts.
Import Server Observe Survey Sharing AuthFacts LookupFacts MailboxFacts.

Lemma present_inv (h : option string) (k : string) :
  present h = Some k -> h = Some k /\ k <> EmptyString.
Proof.
  destruct h as [s|]; [|discriminate]. simpl. unfold nonempty.
  destruct (String.eqb s EmptyString) eqn:E; [discriminate|].
  intros [= <-]. split; [reflexivity | now apply String.eqb_neq].
Qed.

Lemma requireWriteKey_nonempty cfg h userKey :
  requireWriteKey cfg h = Next userKey -> userKey <> EmptyString.
Proof.
  unfold requireWriteKey.
  destruct (present (x_user_key h)) as [k|] eqn:P; [|discriminate].
  apply present_inv in P. destruct P as [_ Hne].
  destruct (header_is (x_api_key h) (API_KEY cfg)); [|discriminate].
  now intros [= <-].
Qed.

(** A write is admitted exactly when the request names a user key and
    carries the API key; the key that stands in when none is configured
    has to be sent like a configured one.  Every other request is
    answered 400 without a user key and 401 otherwise. *)
Theorem write_key_policy (cfg : config) (h : headers) :
  (forall userKey,
      requireWriteKey cfg h = Next userKey
      <-> x_user_key h = Some userKey /\ userKey <> EmptyString
          /\ x_api_key h = Some (API_KEY cfg))
  /\ (forall r,
         requireWriteKey cfg h = Reject r ->
         (r = fail 400 "x-user-key required"
          /\ present (x_user_key h) = None)
         \/ (r = fail 401 "unauthorized"
             /\ x_api_key h <> Some (API_KEY cfg)))
  /\ (env_API_KEY cfg = None -> API_KEY cfg = "replace-this-api-key").
Proof.
  unfold requireWriteKey. split; [|split].
  - intros userKey.
    destruct (present (x_user_key h)) as [k|] eqn:P.
    + apply present_inv in P. destruct P as [Ek Hne].
      destruct (header_is (x_api_key h) (API_KEY cfg)) eqn:A.
      * apply header_is_iff in A. split.
        -- intros [= <-]. auto.
        -- intros (E & _ & _). congruence.
      * split; [discriminate|]. intros (_ & _ & E).
        apply header_is_iff in E. congruence.
    + split; [discriminate|]. intros (E & Hne & _).
      rewrite E in P. simpl in P. unfold nonempty in P.
      apply String.eqb_neq in Hne. rewrite Hne in P. discriminate.
  - intros r. destruct (present (x_user_key h)) as [k|] eqn:P.
    + destruct (header_is (x_api_key h) (API_KEY cfg)) eqn:A; [discriminate|].
      intros [= <-]. right. split; [reflexivity|]. intros E.
      apply header_is_iff in E. congruence.
    + intros [= <-]. now left.
  - intros E. unfold API_KEY, or_default. now rewrite E.
Qed.

Lemma assoc_set_prop_same (key : string) (x : jsval)
    (props : list (string * jsval)) :
  assoc key (set_prop key x props) = x.
Proof.
  induction props as [|[k y] rest IH]; simpl.
  - now rewrite String.eqb_refl.
  - destruct (String.eqb k key) eqn:E; simpl; now rewrite E.
Qed.

Lemma assoc_set_prop_other (key other : string) (x : jsval)
    (props : list (string * jsval)) :
  other <> key -> assoc other (set_prop key x props) = assoc other props.
Proof.
  intros Hne. induction props as [|[k y] rest IH]; simpl.
  - apply String.eqb_neq in Hne. rewrite String.eqb_sym in Hne.
    now rewrite Hne.
  - destruct (String.eqb k key) eqn:E; simpl.
    + apply String.eqb_eq in E. subst k.
      apply String.eqb_neq in Hne. rewrite String.eqb_sym in Hne.
      now rewrite Hne.
    + destruct (String.eqb k other); [reflexivity | exact IH].
Qed.

(** A queued command carries the server's time under [at], whatever
    [at] the client sent, and every other field of the command as it
    was sent. *)
Theorem stamp_overrides_at (now : Z) :
  (forall c, Js.get (stamp now c) "at" = JNum (of_Z now))
  /\ (forall props key,
         key <> "at" ->
         Js.get (stamp now (JObj props)) key = Js.get (JObj props) key).
Proof.
  split.
  - intros c. unfold stamp. simpl. apply assoc_set_prop_same.
  - intros props key Hne. unfold stamp. simpl.
    now apply assoc_set_prop_other.
Qed.

Lemma queued_others now userKey own cmds st other :
  other <> userKey ->
  lookup (controlCommands (snd (queued now userKey own cmds st))) other
  = lookup (controlCommands st) other.
Proof.
  intros Hne. rewrite queued_queue. simpl. now apply lookup_insert_other.
Qed.

Lemma queued_stores now userKey own cmds st :
  samples (snd (queued now userKey own cmds st)) = samples st
  /\ memorySessions (snd (queued now userKey own cmds st)) = memorySessions st
  /\ publicIdToUserKey (snd (queued now userKey own cmds st))
     = publicIdToUserKey st.
Proof. rewrite queued_queue. simpl. auto. Qed.

(** A request to the mailbox that is admitted neither for [other] nor
    for [__proto__] is served to its end, leaves what [other] finds in
    the mailbox as it is and touches no other store. *)
Lemma mail_step_others cfg st ev other :
  acts_for cfg ev <> Some other ->
  acts_for cfg ev <> Some "__proto__" ->
  exists st',
    mail_step cfg st ev = Sent st'
    /\ lookup (controlCommands st') other = lookup (controlCommands st) other
    /\ samples st' = samples st
    /\ memorySessions st' = memorySessions st
    /\ publicIdToUserKey st' = publicIdToUserKey st.
Proof.
  destruct ev as [now h commands|h]; simpl.
  - intros Hne _. eexists. split; [reflexivity|]. unfold post_commands.
    destruct (requireReadKey cfg h) as [r|userKey]; [auto|].
    destruct commands as [| | | | |[|c cs]|]; auto.
    assert (Ho : other <> userKey) by congruence.
    destruct (lookup (controlCommands st) userKey); auto;
      (split; [now apply queued_others | apply queued_stores]).
  - intros Hne Hp. unfold get_commands.
    destruct (requireWriteKey cfg h) as [r|userKey]; [eauto 6|].
    assert (Ho : other <> userKey) by congruence.
    assert (E : String.eqb userKey "__proto__" = false)
      by (apply String.eqb_neq; congruence).
    rewrite E.
    destruct (lookup (controlCommands st) userKey);
      (eexists; split; [reflexivity|]; simpl;
       split; [now apply lookup_insert_other | auto]).
Qed.

(** While no request is admitted for the key [__proto__], the requests
    to the mailbox are served to their end, what a user finds in the
    mailbox changes only through requests admitted for that user's
    key, and no request to the mailbox touches the samples, the
    sessions or the public ids. *)
Theorem mailbox_isolated cfg evs st other :
  Forall (fun ev => acts_for cfg ev <> Some other
                    /\ acts_for cfg ev <> Some "__proto__") evs ->
  exists st',
    mail_run cfg evs st = Sent st'
    /\ lookup (controlCommands st') other = lookup (controlCommands st) other
    /\ samples st' = samples st
    /\ memorySessions st' = memorySessions st
    /\ publicIdToUserKey st' = publicIdToUserKey st.
Proof.
  unfold mail_run. revert st.
  induction evs as [|ev rest IH]; intros st F; simpl; [eauto 6|].
  inversion F as [|? ? [Hev Hp] Hrest]; subst.
  destruct (mail_step_others cfg st ev other Hev Hp)
    as (st1 & E & Q' & S' & M' & P').
  rewrite E.
  destruct (IH st1 Hrest) as (st' & R & Q & S & M & P).
  exists st'. split; [exact R|].
  rewrite Q, S, M, P. auto.
Qed.

(** A control state that was posted is the one read, with the time the
    client gave when that is a number other than 0 and the server's
    time otherwise, for every user key but [__proto__]; what other
    users find among the states, and the shared configurations, stay
    as they are.  A falsy state is answered 400 and stores nothing. *)
Theorem control_state_roundtrip cfg now now' hw hr state at_ s userKey :
  requireWriteKey cfg hw = Next userKey ->
  requireReadKey cfg hr = Next userKey ->
  userKey <> "__proto__" ->
  (Js.truthy state = true ->
   exists s',
     post_state cfg now hw state at_ s = Sent (ok Done, s')
     /\ get_state cfg now' hr s'
        = ok (StateIs state
                (let held := match at_ with JNum n => n | _ => of_Z now end in
                 if JsNum.truthy held then held else of_Z now'))
     /\ (forall other, other <> userKey ->
           lookup (Sharing.controlStates s') other
           = lookup (Sharing.controlStates s) other)
     /\ configs s' = configs s)
  /\ (Js.truthy state = false ->
      post_state cfg now hw state at_ s
      = Sent (error 400 "state required", s)).
Proof.
  intros Hw Hr Hp. unfold post_state, get_state. rewrite Hw, Hr.
  apply String.eqb_neq in Hp. rewrite Hp. apply String.eqb_neq in Hp. split.
  - intros T. rewrite T. simpl negb. cbv iota.
    eexists. split; [reflexivity|]. cbn [Sharing.controlStates].
    erewrite (proj2 (lookup_own _ userKey _));
      [|split; [exact Hp | apply lookup_insert_eq]].
    cbn [held_state held_at].
    split; [reflexivity|]. split; [|reflexivity].
    intros other Hne. now apply lookup_insert_other.
  - intros T. now rewrite T.
Qed.

Import Examples.

Lemma mailbox_isolated_witness :
  let stop := JObj [("command", JStr "stop")] in
  let st := snd (post_commands memory_cfg 3 other_reader (JArr [stop]) initial) in
  exists st',
    mail_run memory_cfg
      [PostCommands 7 reader (JArr [stop]); GetCommands writer] st
    = Sent st'
    /\ lookup (controlCommands st') "v" = Own [stamp 3 stop].
Proof.
  cbv zeta.
  destruct (mailbox_isolated memory_cfg
              [PostCommands 7 reader (JArr [JObj [("command", JStr "stop")]]);
               GetCommands writer]
              (snd (post_commands memory_cfg 3 other_reader
                      (JArr [JObj [("command", JStr "stop")]]) initial))
              "v")
    as (st' & R & Q & _).
  - repeat constructor; discriminate.
  - exists st'. split; [exact R|]. rewrite Q. reflexivity.
Defined.

Lemma control_state_roundtrip_witness :
  exists s',
    post_state memory_cfg 7 writer (JStr "farming") JUndefined no_stores
    = Sent (ok Done, s')
    /\ get_state memory_cfg 9 reader s'
       = ok (StateIs (JStr "farming") (of_Z 7)).
Proof.
  destruct (proj1 (control_state_roundtrip memory_cfg 7 9 writer reader
                     (JStr "farming") JUndefined no_stores "u" eq_refl eq_refl
                     ltac:(discriminate)) eq_refl)
    as (s' & P & G & _).
  exists s'. split; [exact P | exact G].
Defined.

End ControlFacts.

(** ** Shared configurations *)

Module SharingFacts.
Import Server Survey Sharing LookupFacts ControlFacts.

Lemma chars_append (a b : string) :
  list_ascii_of_string (String.append a b)
  = list_ascii_of_string a ++ list_ascii_of_string b.
Proof.
  induction a as [|c a IH]; [reflexivity|].
  unfold String.append. fold String.append. simpl. now rewrite IH.
Qed.

Lemma length_append (a b : string) :
  String.length (String.append a b) = (String.length a + String.length b)%nat.
Proof.
  induction a as [|c a IH]; [reflexivity|].
  unfold String.append. fold String.append. simpl. now rewrite IH.
Qed.

Lemma alphabet_at_char (idx : nat) :
  (idx < 38)%nat ->
  exists c, alphabet_at idx = String c EmptyString /\ key_char c = true.
Proof.
  intros L.
  do 38 (destruct idx as [|idx]; [eexists; split; reflexivity|]).
  lia.
Qed.

Lemma alphabet_at_nonempty (idx : nat) :
  (1 <= String.length (alphabet_at idx))%nat.
Proof.
  unfold alphabet_at. destruct (String.get idx KEY_ALPHABET); simpl; lia.
Qed.

Lemma generate_from_length (random : nat -> nat) (len i : nat) (out : string) :
  (String.length out + len
   <= String.length (generate_from random i len out))%nat.
Proof.
  revert i out. induction len as [|len IH]; intros i out; simpl; [lia|].
  specialize (IH (S i) (String.append out (alphabet_at (random i)))).
  rewrite length_append in IH.
  pose proof (alphabet_at_nonempty (random i)). lia.
Qed.

Lemma generate_from_chars (random : nat -> nat) (len i : nat) (out : string) :
  (forall j, (random j < 38)%nat) ->
  forallb key_char (list_ascii_of_string out) = true ->
  forallb key_char (list_ascii_of_string (generate_from random i len out))
  = true
  /\ String.length (generate_from random i len out)
     = (String.length out + len)%nat.
Proof.
  intros R. revert i out. induction len as [|len IH]; intros i out Ho; simpl.
  - split; [exact Ho | lia].
  - destruct (alphabet_at_char (random i) (R i)) as (c & Ec & Kc).
    destruct (IH (S i) (String.append out (alphabet_at (random i)))) as [F L].
    + rewrite chars_append, forallb_app, Ho, Ec. simpl. now rewrite Kc.
    + split; [exact F|]. rewrite L, length_append, Ec. simpl. lia.
Qed.

Lemma valid_key_nonempty (k : string) :
  configKeyRegex_test k = true -> k <> EmptyString.
Proof.
  intros E ->. vm_compute in E. discriminate.
Qed.

Lemma generated_key_nonempty (random : nat -> nat) :
  generateConfigKey random <> EmptyString.
Proof.
  unfold generateConfigKey. intros E.
  pose proof (generate_from_length random 20 0 EmptyString) as L.
  rewrite E in L. simpl in L. lia.
Qed.

Lemma valid_key_not_proto (k : string) :
  configKeyRegex_test k = true -> k <> "__proto__".
Proof.
  intros E ->. vm_compute in E. discriminate.
Qed.

Lemma generated_key_not_proto (random : nat -> nat) :
  generateConfigKey random <> "__proto__".
Proof.
  unfold generateConfigKey. intros E.
  pose proof (generate_from_length random 20 0 EmptyString) as L.
  rewrite E in L. simpl in L. lia.
Qed.

Lemma select_replaced key userKey json at_ table :
  select_config key (replace_config key userKey json at_ table)
  = Some {| config_key := key; row_owner := userKey; payload := json;
            created_at := at_ |}.
Proof.
  unfold select_config, replace_config.
  induction table as [|r rest IH]; simpl.
  - now rewrite String.eqb_refl.
  - destruct (String.eqb (config_key r) key) eqn:E; simpl; [exact IH|].
    now rewrite E.
Qed.

Lemma select_replaced_other key other userKey json at_ table :
  other <> key ->
  select_config other (replace_config key userKey json at_ table)
  = select_config other table.
Proof.
  intros Hne. unfold select_config, replace_config.
  induction table as [|r rest IH]; simpl.
  - apply String.eqb_neq in Hne. rewrite String.eqb_sym in Hne.
    now rewrite Hne.
  - destruct (String.eqb (config_key r) key) eqn:E; simpl.
    + apply String.eqb_eq in E. rewrite E.
      apply String.eqb_neq in Hne. rewrite String.eqb_sym in Hne.
      now rewrite Hne.
    + destruct (String.eqb (config_key r) other); [reflexivity | exact IH].
Qed.

Section WithJson.

Context `{Json}.

(** The key of a stored configuration: the one the request names when
    it has the form of a key, and a generated one otherwise.  A
    generated key has 20 characters and the form of a key itself, so
    the answer's key can be sent back to replace the configuration. *)
Theorem config_key_reusable raises cfg random now h config key s table
    userKey json :
  requireWriteKey cfg h = Next userKey ->
  negb (Js.truthy config) || negb (is_object config) || is_array config
  = false ->
  stringify config = Some json ->
  json <> EmptyString ->
  (String.length json <= CONFIG_JSON_LIMIT)%nat ->
  (forall i, (random i < 38)%nat) ->
  exists k mode s' table',
    post_config raises cfg random now h config key s table
    = (ok (Saved k mode), s', table')
    /\ configKeyRegex_test k = true
    /\ (forall k0, key = JStr k0 -> configKeyRegex_test k0 = true -> k = k0)
    /\ ((forall k0, key = JStr k0 -> configKeyRegex_test k0 = false) ->
        k = generateConfigKey random /\ String.length k = 20%nat)
    /\ forall random' now2 config2 json2,
        negb (Js.truthy config2) || negb (is_object config2)
        || is_array config2 = false ->
        stringify config2 = Some json2 ->
        json2 <> EmptyString ->
        (String.length json2 <= CONFIG_JSON_LIMIT)%nat ->
        exists mode2 s2 table2,
          post_config raises cfg random' now2 h config2 (JStr k) s' table'
          = (ok (Saved k mode2), s2, table2)
          /\ configs s2 !! k
             = Some {| entry_config := config2; entry_owner := userKey;
                       entry_at := of_Z now2 |}.
Proof.
  intros Hw Hc Hj Hne Hlen Hr.
  assert (G : forall random0 now0 config0 json0 key0 s0 table0,
             negb (Js.truthy config0) || negb (is_object config0)
             || is_array config0 = false ->
             stringify config0 = Some json0 ->
             json0 <> EmptyString ->
             (String.length json0 <= CONFIG_JSON_LIMIT)%nat ->
             let k := match key0 with
                      | JStr k0 => if configKeyRegex_test k0 then k0
                                   else generateConfigKey random0
                      | _ => generateConfigKey random0
                      end in
             exists mode s' table',
               post_config raises cfg random0 now0 h config0 key0 s0 table0
               = (ok (Saved k mode), s', table')
               /\ configs s' !! k
                  = Some {| entry_config := config0; entry_owner := userKey;
                            entry_at := of_Z now0 |}).
  { intros random0 now0 config0 json0 key0 s0 table0 Hc0 Hj0 Hne0 Hlen0 k.
    unfold post_config. rewrite Hw, Hc0, Hj0.
    apply String.eqb_neq in Hne0. rewrite Hne0.
    apply Nat.ltb_ge in Hlen0. rewrite Hlen0. cbn [orb]. fold k.
    destruct (USE_DB cfg); simpl negb; cbv iota.
    - destruct (raises _); eexists _, _, _;
        (split; [reflexivity | cbn [configs]; apply lookup_insert_eq]).
    - eexists _, _, _.
      split; [reflexivity | cbn [configs]; apply lookup_insert_eq]. }
  destruct (generate_from_chars random 20 0 EmptyString Hr eq_refl)
    as [Gc Gl].
  assert (Gt : configKeyRegex_test (generateConfigKey random) = true).
  { unfold configKeyRegex_test, generateConfigKey. rewrite Gc, Gl.
    reflexivity. }
  destruct (G random now config json key s table Hc Hj Hne Hlen)
    as (mode & s' & table' & E & _).
  eexists _, mode, s', table'. split; [exact E|].
  split; [|split; [|split]].
  - destruct key as [| | | |k0| |]; try exact Gt.
    destruct (configKeyRegex_test k0) eqn:T; [exact T | exact Gt].
  - intros k0 -> T. now rewrite T.
  - intros Hbad. split.
    + destruct key as [| | | |k0| |]; try reflexivity.
      now rewrite (Hbad k0 eq_refl).
    + destruct key as [| | | |k0| |]; try exact Gl.
      rewrite (Hbad k0 eq_refl). exact Gl.
  - intros random' now2 config2 json2 Hc2 Hj2 Hne2 Hlen2.
    set (k := match key with
              | JStr k0 => if configKeyRegex_test k0 then k0
                           else generateConfigKey random
              | _ => generateConfigKey random
              end) in *.
    assert (Tk : configKeyRegex_test k = true).
    { subst k. destruct key as [| | | |k0| |]; try exact Gt.
      destruct (configKeyRegex_test k0) eqn:T; [exact T | exact Gt]. }
    destruct (G random' now2 config2 json2 (JStr k) s' table' Hc2 Hj2 Hne2
                Hlen2) as (mode2 & s2 & table2 & E2 & L2).
    cbv zeta in E2, L2. rewrite Tk in E2, L2.
    exists mode2, s2, table2. split; [exact E2 | exact L2].
Qed.

(** A read of the key of a configuration that was stored answers
    with its owner and the time of the write.  Without a database the
    answer holds the configuration itself.  With one, the answer holds
    the empty object whatever was stored: the driver hands the [JSON]
    column over decoded, and [JSON.parse] of an object throws. *)
Theorem config_roundtrip raises cfg random now now' hw hr config key s table
    userKey json :
  requireWriteKey cfg hw = Next userKey ->
  requireConfigReadKey cfg hr = None ->
  negb (Js.truthy config) || negb (is_object config) || is_array config
  = false ->
  stringify config = Some json ->
  json <> EmptyString ->
  (String.length json <= CONFIG_JSON_LIMIT)%nat ->
  now <> 0 ->
  (forall q, raises q = false) ->
  exists k mode s' table',
    post_config raises cfg random now hw config key s table
    = (ok (Saved k mode), s', table')
    /\ mode = (if USE_DB cfg then "mysql" else "memory")
    /\ get_config raises cfg now' hr k s' table'
       = ok (ConfigIs (if USE_DB cfg then JObj [] else config)
               (Some userKey) (of_Z now)).
Proof.
  intros Hw Hr Hc Hj Hne Hlen Hnow Hraises.
  assert (Hu : nonempty userKey = Some userKey).
  { pose proof (requireWriteKey_nonempty cfg hw userKey Hw) as Hk.
    unfold nonempty. apply String.eqb_neq in Hk. now rewrite Hk. }
  assert (Ht : JsNum.truthy (of_Z now) = true).
  { rewrite RankingFacts.truthy_of_Z. apply negb_true_iff.
    now apply Z.eqb_neq. }
  set (k := match key with
            | JStr k0 => if configKeyRegex_test k0 then k0
                         else generateConfigKey random
            | _ => generateConfigKey random
            end).
  assert (Hk : String.eqb k EmptyString = false).
  { apply String.eqb_neq. subst k.
    destruct key as [| | | |k0| |]; try apply generated_key_nonempty.
    destruct (configKeyRegex_test k0) eqn:T;
      [now apply valid_key_nonempty | apply generated_key_nonempty]. }
  assert (Hp : k <> "__proto__").
  { subst k.
    destruct key as [| | | |k0| |]; try apply generated_key_not_proto.
    destruct (configKeyRegex_test k0) eqn:T;
      [now apply valid_key_not_proto | apply generated_key_not_proto]. }
  unfold post_config, get_config. rewrite Hw, Hr, Hc, Hj.
  apply String.eqb_neq in Hne. rewrite Hne.
  apply Nat.ltb_ge in Hlen. rewrite Hlen. cbn [orb]. fold k.
  destruct (USE_DB cfg); simpl negb; cbv iota.
  - rewrite Hraises. eexists _, _, _, _. split; [reflexivity|].
    split; [reflexivity|].
    rewrite Hraises, select_replaced. cbn [payload row_owner created_at].
    unfold respond. cbn [entry_config entry_owner entry_at].
    now rewrite Ht, Ht, Hu.
  - eexists _, _, _, _. split; [reflexivity|]. split; [reflexivity|].
    rewrite Hk. cbn [configs].
    erewrite (proj2 (lookup_own _ k _));
      [|split; [exact Hp | apply lookup_insert_eq]].
    unfold respond. cbn [entry_config entry_owner entry_at].
    now rewrite Ht, Hu.
Qed.

End WithJson.

Import Examples Fixtures.

Lemma config_key_reusable_witness :
  exists k mode s' table',
    @post_config plain_json no_failure memory_cfg (fun _ => 0%nat) 7 writer
      (JObj []) JUndefined no_stores []
    = (ok (Saved k mode), s', table')
    /\ configKeyRegex_test k = true
    /\ (forall k0, JUndefined = JStr k0 -> configKeyRegex_test k0 = true ->
                   k = k0)
    /\ ((forall k0, JUndefined = JStr k0 -> configKeyRegex_test k0 = false) ->
        k = generateConfigKey (fun _ => 0%nat) /\ String.length k = 20%nat)
    /\ forall random' now2 config2 json2,
        negb (Js.truthy config2) || negb (is_object config2)
        || is_array config2 = false ->
        @stringify plain_json config2 = Some json2 ->
        json2 <> EmptyString ->
        (String.length json2 <= CONFIG_JSON_LIMIT)%nat ->
        exists mode2 s2 table2,
          @post_config plain_json no_failure memory_cfg random' now2 writer
            config2 (JStr k) s' table'
          = (ok (Saved k mode2), s2, table2)
          /\ configs s2 !! k
             = Some {| entry_config := config2; entry_owner := "u";
                       entry_at := of_Z now2 |}.
Proof.
  apply (@config_key_reusable plain_json no_failure memory_cfg
           (fun _ => 0%nat) 7 writer (JObj []) JUndefined no_stores [] "u"
           "{}");
    try reflexivity.
  - discriminate.
  - apply Nat.leb_le. reflexivity.
  - intros _. lia.
Defined.

Lemma config_roundtrip_witness :
  (exists k s' table',
      @post_config plain_json no_failure memory_cfg (fun _ => 0%nat) 7 writer
        (JObj [("speed", int 3)]) (JStr "MY-CONFIG-KEY") no_stores []
      = (ok (Saved k "memory"), s', table')
      /\ get_config no_failure memory_cfg 9 reader k s' table'
         = ok (ConfigIs (JObj [("speed", int 3)]) (Some "u") (of_Z 7)))
  /\ (exists k s' table',
         @post_config plain_json no_failure mysql_cfg (fun _ => 0%nat) 7 writer
           (JObj [("speed", int 3)]) (JStr "MY-CONFIG-KEY") no_stores []
         = (ok (Saved k "mysql"), s', table')
         /\ get_config no_failure mysql_cfg 9 reader k s' table'
            = ok (ConfigIs (JObj []) (Some "u") (of_Z 7))).
Proof.
  assert (L : (String.length "{}" <= CONFIG_JSON_LIMIT)%nat)
    by (apply Nat.leb_le; reflexivity).
  split.
  - destruct (@config_roundtrip plain_json no_failure memory_cfg
                (fun _ => 0%nat) 7 9 writer reader (JObj [("speed", int 3)])
                (JStr "MY-CONFIG-KEY") no_stores [] "u" "{}"
                eq_refl eq_refl eq_refl eq_refl ltac:(discriminate) L
                ltac:(lia) (fun _ => eq_refl))
      as (k & mode & s' & table' & P & -> & G).
    exists k, s', table'. split; [exact P | exact G].
  - destruct (@config_roundtrip plain_json no_failure mysql_cfg
                (fun _ => 0%nat) 7 9 writer reader (JObj [("speed", int 3)])
                (JStr "MY-CONFIG-KEY") no_stores [] "u" "{}"
                eq_refl eq_refl eq_refl eq_refl ltac:(discriminate) L
                ltac:(lia) (fun _ => eq_refl))
      as (k & mode & s' & table' & P & -> & G).
    exists k, s', table'. split; [exact P | exact G].
Defined.

End SharingFacts.

(** ** The day history *)

Module HistoryFacts.
Import Ranking History Survey NumFacts.

Lemma insert_asc_perm (x : sample_row) (sorted : list sample_row) :
  Permutation (insert_asc x sorted) (x :: sorted).
Proof.
  induction sorted as [|y rest IH]; simpl; [reflexivity|].
  destruct (ltb (row_t x) (row_t y)); [reflexivity|].
  rewrite IH. apply perm_swap.
Qed.

Lemma order_asc_perm (rows : list sample_row) :
  Permutation (order_asc rows) rows.
Proof.
  unfold order_asc.
  assert (G : forall acc,
             Permutation (fold_left (fun sorted r => insert_asc r sorted)
                            rows acc) (acc ++ rows)).
  { induction rows as [|r rest IH]; simpl; intros acc.
    - now rewrite app_nil_r.
    - rewrite IH, insert_asc_perm. apply Permutation_middle. }
  apply (G []).
Qed.

Lemma select_day_window userKey startT endT d :
  Forall (fun r => row_user r = userKey
                   /\ geb (row_t r) startT = true
                   /\ ltb (row_t r) endT = true)
    (select_day userKey startT endT d).
Proof.
  apply List.Forall_forall. intros r Hin. unfold select_day in Hin.
  apply (Permutation_in _ (order_asc_perm _)) in Hin.
  apply List.filter_In in Hin. destruct Hin as [_ E].
  apply andb_true_iff in E. destruct E as [E Et].
  apply andb_true_iff in E. destruct E as [Eu Es].
  apply String.eqb_eq in Eu. auto.
Qed.

Lemma total_of_snoc (points : list point) (p : point) :
  total_of (points ++ [p]) = add (total_of points) (point_v p).
Proof. unfold total_of. now rewrite fold_left_app. Qed.

(** The loop keeps the running total equal to the sum of the honey
    values it has pushed, and pushes only points of the rows it saw. *)
Lemma add_rows_total (P : point -> Prop) (rows : list sample_row)
    (honey pollen : list point) (total : num) :
  total = total_of honey ->
  Forall P (honey ++ pollen) ->
  Forall (fun r => P (Point (row_t r) (row_v r))) rows ->
  let '(honey', pollen', total') :=
    fold_left add_row rows (honey, pollen, total) in
  total' = total_of honey' /\ Forall P (honey' ++ pollen').
Proof.
  revert honey pollen total.
  induction rows as [|r rest IH]; intros honey pollen total Ht Hp Hr; simpl.
  - auto.
  - inversion Hr as [|? ? Pr Prest]; subst.
    apply List.Forall_app in Hp. destruct Hp as [Hh Hpo].
    destruct (String.eqb (row_metric r) "honey").
    + apply IH; [now rewrite total_of_snoc | | exact Prest].
      apply List.Forall_app. split; [|exact Hpo].
      apply List.Forall_app. split; [exact Hh | now constructor].
    + destruct (String.eqb (row_metric r) "pollen").
      * apply IH; [reflexivity | | exact Prest].
        apply List.Forall_app. split; [exact Hh|].
        apply List.Forall_app. split; [exact Hpo | now constructor].
      * apply IH; [reflexivity | | exact Prest].
        apply List.Forall_app. now split.
Qed.

Lemma in_select_day userKey startT endT d r :
  In r (select_day userKey startT endT d)
  <-> In r (samples_table d) /\ row_user r = userKey
      /\ geb (row_t r) startT = true /\ ltb (row_t r) endT = true.
Proof.
  unfold select_day. split.
  - intros Hin. apply (Permutation_in _ (order_asc_perm _)) in Hin.
    apply List.filter_In in Hin. destruct Hin as [Hin E].
    apply andb_true_iff in E. destruct E as [E Et].
    apply andb_true_iff in E. destruct E as [Eu Es].
    apply String.eqb_eq in Eu. auto.
  - intros (Hin & Eu & Es & Et).
    apply (Permutation_in _ (Permutation_sym (order_asc_perm _))).
    apply List.filter_In. split; [exact Hin|].
    rewrite Es, Et. rewrite (proj2 (String.eqb_eq _ _) Eu). reflexivity.
Qed.

(** The loop lists the honey rows under [honey] and the pollen rows
    under [pollen], and nothing else. *)
Lemma add_rows_points (rows : list sample_row) :
  forall honey pollen total,
    let '(honey', pollen', _) :=
      fold_left add_row rows (honey, pollen, total) in
    (forall p,
        In p honey'
        <-> In p honey
            \/ exists r, In r rows /\ row_metric r = "honey"
                         /\ p = Point (row_t r) (row_v r))
    /\ (forall p,
           In p pollen'
           <-> In p pollen
               \/ exists r, In r rows /\ row_metric r = "pollen"
                            /\ p = Point (row_t r) (row_v r)).
Proof.
  induction rows as [|r rest IH]; intros honey pollen total; simpl.
  - split; intros p; split; auto; intros [?|(r & [] & _)]; auto.
  - destruct (String.eqb (row_metric r) "honey") eqn:Eh.
    + apply String.eqb_eq in Eh.
      specialize (IH (honey ++ [Point (row_t r) (row_v r)]) pollen
                    (add total (row_v r))).
      destruct (fold_left add_row rest _) as [[h' p'] t'].
      destruct IH as [Ih Ip]. split; intros p.
      * rewrite Ih, in_app_iff. simpl. split.
        -- intros [[Hin|[<-|[]]]|(r0 & Hr & Hm & Hp)]; eauto 7.
        -- intros [Hin|(r0 & [<-|Hr] & Hm & Hp)]; eauto 7.
      * rewrite Ip. split.
        -- intros [Hin|(r0 & Hr & Hm & Hp)]; eauto 7.
        -- intros [Hin|(r0 & [<-|Hr] & Hm & Hp)]; eauto 7.
           rewrite Eh in Hm. discriminate.
    + apply String.eqb_neq in Eh.
      destruct (String.eqb (row_metric r) "pollen") eqn:Ep.
      * apply String.eqb_eq in Ep.
        specialize (IH honey (pollen ++ [Point (row_t r) (row_v r)]) total).
        destruct (fold_left add_row rest _) as [[h' p'] t'].
        destruct IH as [Ih Ip]. split; intros p.
        -- rewrite Ih. split.
           ++ intros [Hin|(r0 & Hr & Hm & Hp)]; eauto 7.
           ++ intros [Hin|(r0 & [<-|Hr] & Hm & Hp)]; eauto 7. congruence.
        -- rewrite Ip, in_app_iff. simpl. split.
           ++ intros [[Hin|[<-|[]]]|(r0 & Hr & Hm & Hp)]; eauto 7.
           ++ intros [Hin|(r0 & [<-|Hr] & Hm & Hp)]; eauto 7.
      * apply String.eqb_neq in Ep.
        specialize (IH honey pollen total).
        destruct (fold_left add_row rest _) as [[h' p'] t'].
        destruct IH as [Ih Ip]. split; intros p.
        -- rewrite Ih. split.
           ++ intros [Hin|(r0 & Hr & Hm & Hp)]; eauto 7.
           ++ intros [Hin|(r0 & [<-|Hr] & Hm & Hp)]; eauto 7. congruence.
        -- rewrite Ip. split.
           ++ intros [Hin|(r0 & Hr & Hm & Hp)]; eauto 7.
           ++ intros [Hin|(r0 & [<-|Hr] & Hm & Hp)]; eauto 7. congruence.
Qed.

(** The history of a day: with the database, a valid date and a query
    that does not fail, the answer lists under [honey] and [pollen]
    the samples of the user with that metric whose time lies in the
    day, and no other point; its total is the sum of the honey values
    it lists, and the average rate is that total per hour of a day of
    86400 seconds.  Without the database the answer is 501, an invalid
    date is answered 400 and a failing query 500. *)
Theorem history_of_a_day day_start raises cfg req date d userKey :
  requireReadKey cfg req = Next userKey ->
  (USE_DB cfg = false ->
   get_history day_start raises cfg req date d
   = Failed 501 "Database required for history.")
  /\ (USE_DB cfg = true -> day_start date = None ->
      get_history day_start raises cfg req date d
      = Failed 400 "Invalid date format. Use YYYY-MM-DD.")
  /\ (USE_DB cfg = true -> day_start date <> None -> raises = true ->
      get_history day_start raises cfg req date d
      = Failed 500 "Database error fetching history.")
  /\ (forall startT,
         USE_DB cfg = true -> day_start date = Some startT ->
         raises = false ->
         exists data,
           get_history day_start raises cfg req date d = Answered data
           /\ (forall metric series,
                 (metric = "honey" /\ series = day_honey data)
                 \/ (metric = "pollen" /\ series = day_pollen data) ->
                 forall t v,
                   In (Point t v) series
                   <-> (exists r,
                           In r (samples_table d)
                           /\ row_user r = userKey
                           /\ row_metric r = metric
                           /\ row_t r = t /\ row_v r = v)
                       /\ geb t (of_Z startT) = true
                       /\ ltb t (of_Z (startT + 86400)) = true)
           /\ summary_total_honey data = total_of (day_honey data)
           /\ summary_avg_honey_rate data
              = mul (div (total_of (day_honey data)) (of_Z 86400)) (of_Z 3600)
           /\ Forall (in_day startT) (day_honey data ++ day_pollen data)).
Proof.
  intros Hauth. unfold get_history. rewrite Hauth.
  split; [|split; [|split]].
  - intros E. now rewrite E.
  - intros E D. now rewrite E, D.
  - intros E D R. rewrite E. simpl negb. cbv iota.
    destruct (day_start date); [|congruence]. now rewrite R.
  - intros startT E D R. rewrite E, D, R. simpl negb. cbv iota.
    set (rows := select_day userKey (of_Z startT) (of_Z (startT + 86400)) d).
    pose proof (add_rows_total (in_day startT) rows
                  [] [] (of_Z 0) eq_refl (List.Forall_nil _)) as G.
    pose proof (add_rows_points rows [] [] (of_Z 0)) as P.
    destruct (fold_left add_row rows ([], [], of_Z 0))
      as [[honey pollen] total].
    destruct G as [Gt Gp].
    { eapply List.Forall_impl; [|apply select_day_window].
      intros r (_ & Hs & He). split; assumption. }
    destruct P as [Ph Pp].
    assert (M : forall metric series,
               (forall p,
                   In p series
                   <-> In p []
                       \/ exists r, In r rows /\ row_metric r = metric
                                    /\ p = Point (row_t r) (row_v r)) ->
               forall t v,
                 In (Point t v) series
                 <-> (exists r,
                         In r (samples_table d)
                         /\ row_user r = userKey
                         /\ row_metric r = metric
                         /\ row_t r = t /\ row_v r = v)
                     /\ geb t (of_Z startT) = true
                     /\ ltb t (of_Z (startT + 86400)) = true).
    { intros metric series S t v. rewrite S. split.
      - intros [[]|(r & Hr & Hm & [= -> ->])].
        apply in_select_day in Hr. destruct Hr as (Hin & Hu & Hs & He).
        split; [exists r|]; auto.
      - intros [(r & Hin & Hu & Hm & <- & <-) [Hs He]]. right.
        exists r. split; [|auto]. apply in_select_day. auto. }
    eexists. split; [reflexivity|]. cbn [summary_total_honey day_honey
                                         day_pollen summary_avg_honey_rate].
    split.
    { intros metric series [[-> ->]|[-> ->]]; now apply M. }
    split; [exact Gt|]. split; [|exact Gp].
    rewrite Gt. now replace (startT + 86400 - startT) with 86400 by lia.
Qed.

Import Examples Fixtures.

Lemma history_of_a_day_witness :
  exists data,
    get_history day_of false ranking_cfg request_of_a (Some "day0") two_users
    = Answered data
    /\ day_honey data = [Point (of_Z 900) (of_Z 24)]
    /\ summary_total_honey data = total_of (day_honey data)
    /\ (In (Point (of_Z 900) (of_Z 24)) (day_honey data)
        <-> (exists r,
                In r (Ranking.samples_table two_users)
                /\ row_user r = "a" /\ row_metric r = "honey"
                /\ row_t r = of_Z 900 /\ row_v r = of_Z 24)
            /\ geb (of_Z 900) (of_Z 0) = true
            /\ ltb (of_Z 900) (of_Z (0 + 86400)) = true).
Proof.
  destruct (history_of_a_day day_of false ranking_cfg request_of_a
              (Some "day0") two_users "a" eq_refl)
    as (_ & _ & _ & A).
  destruct (A 0 eq_refl eq_refl eq_refl) as (data & E & M & T & _).
  exists data. split; [exact E|]. split; [|split; [exact T|]].
  - vm_compute in E. now injection E as <-.
  - apply (M "honey" (day_honey data)). now left.
Defined.

End HistoryFacts.

(** ** The bounds of the time window *)

Module WindowFacts.
Import Period PeriodFacts.

Lemma digit_value_nonneg (c : ascii) : is_digit c = true -> 0 <= digit_value c.
Proof.
  unfold is_digit, digit_value. intros E.
  apply andb_true_iff in E. destruct E as [E _].
  apply Nat.leb_le in E. lia.
Qed.

Lemma decimal_from_nonneg (s : string) (acc : Z) :
  Forall (fun c => is_digit c = true) (list_ascii_of_string s) ->
  0 <= acc -> 0 <= decimal_from acc s.
Proof.
  unfold decimal_from. revert acc.
  induction (list_ascii_of_string s) as [|c rest IH]; intros acc F Ha; simpl;
    [exact Ha|].
  inversion F as [|? ? Fc Fr]; subst. apply IH; [exact Fr|].
  pose proof (digit_value_nonneg c Fc). lia.
Qed.

(** The window a read looks back over is never negative and never
    longer than the 30 days the store keeps, whatever the period says;
    a period of zero units gives the window of no length. *)
Theorem toSeconds_bounds :
  (forall p : option string, 0 <= toSeconds p <= 2592000)
  /\ (forall (digits : string) (u : ascii) (k : Z),
         digits <> EmptyString ->
         Forall (fun c => c = "0"%char) (list_ascii_of_string digits) ->
         unit_seconds u = Some k ->
         toSeconds (Some (digits +:+ String u EmptyString)) = 0).
Proof.
  split.
  - intros p. split; [|apply toSeconds_le_max].
    destruct p as [s|]; [|cbn; lia].
    destruct (exec_period s) as [[digits u]|] eqn:E.
    + destruct (exec_period_inv _ _ _ E) as [k [Hu _]].
      rewrite (toSeconds_of_exec _ _ _ _ E Hu).
      assert (Hd : 0 <= decimal digits).
      { unfold exec_period in E.
        destruct (span_digits s) as [ds rest] eqn:Es.
        destruct (span_digits_split _ _ _ Es) as [_ F].
        destruct ds as [|d ds]; [discriminate|].
        destruct rest as [|u' [|? ?]]; try discriminate.
        destruct (unit_seconds u'); [|discriminate].
        injection E as <- <-. apply decimal_from_nonneg; [exact F | lia]. }
      destruct (unit_cases u k Hu) as [[_ ->]|[[_ ->]|[[_ ->]|[_ ->]]]]; lia.
    + unfold toSeconds. destruct s; [lia|]. rewrite E. lia.
  - intros digits u k Hne Hz Hu.
    assert (Hd : Forall (fun c => is_digit c = true)
                   (list_ascii_of_string digits)).
    { eapply List.Forall_impl; [|exact Hz]. now intros c ->. }
    rewrite (toSeconds_of_exec _ digits u k);
      [|now apply (exec_period_form digits u k) | exact Hu].
    assert (Z0 : decimal digits = 0).
    { unfold decimal, decimal_from. clear Hne Hd.
      induction (list_ascii_of_string digits) as [|c rest IH]; [reflexivity|].
      inversion Hz as [|? ? -> Hr]; subst. simpl. now apply IH. }
    rewrite Z0. lia.
Qed.

End WindowFacts.

(** ** The viewer's read of a player *)

Module ViewerFacts.
Import Server Survey Viewer LookupFacts StoreFacts AuthFacts.

Section WithPlatform.

Context `{Platform}.

Variable entries : forall A : Type, gmap string A -> list (string * A).

(** [Object.entries] lists own properties only. *)
Hypothesis entries_own :
  forall (A : Type) (m : gmap string A) (k : string) (x : A),
    In (k, x) (entries A m) -> m !! k = Some x.

Lemma answer_from_memory_overrides userKey cutoff o st r st' :
  answer_from_memory userKey cutoff None st = Sent (r, st') ->
  exists data,
    r = json (StatsBody data)
    /\ answer_from_memory userKey cutoff o st
       = Sent (json (StatsBody (apply_overrides o data)), st').
Proof.
  unfold answer_from_memory.
  destruct (collectMemoryStats userKey cutoff st) as [[data st1]|];
    [|discriminate].
  intros [= <- <-]. eauto.
Qed.

(** The overrides change nothing but the player of an answer. *)
Lemma sendStatsResponse_overrides raises cfg now userKey periodSec o st d r
    st' :
  sendStatsResponse raises cfg now userKey periodSec None st d = Sent (r, st') ->
  exists data,
    r = json (StatsBody data)
    /\ sendStatsResponse raises cfg now userKey periodSec o st d
       = Sent (json (StatsBody (apply_overrides o data)), st').
Proof.
  unfold sendStatsResponse.
  destruct (USE_DB cfg); simpl negb; cbv iota.
  - destruct (collectDbStats raises userKey (of_Z (now - periodSec)) st d)
      as [[data|] st1].
    + intros [= <- <-]. eauto.
    + apply answer_from_memory_overrides.
  - apply answer_from_memory_overrides.
Qed.

(** A viewer who asks for a player by a public id the server has
    cached is answered with the figures the player's own read gets for
    the same period, whenever that read is answered: the same series
    and the same honey total, under the public id in place of the
    user key's.  The read of a player whose key is no inherited
    property name is answered. *)
Theorem viewer_sees_owner_figures raises lookup_raises cfg now hv hr publicId
    period st d userKey name :
  requireViewerKey cfg hv = None ->
  requireReadKey cfg hr = Next userKey ->
  publicId <> EmptyString ->
  Js.lookup (publicIdToUserKey st) publicId = Own (userKey, name) ->
  (forall r st',
      get_stats raises cfg now hr period st d = Sent (r, st') ->
      exists data data',
        r = {| status := 200; payload := StatsBody data |}
        /\ get_player_stats entries raises lookup_raises cfg now hv publicId
             period st d
           = Sent ({| status := 200; payload := StatsBody data' |}, st')
        /\ same_figures data' data
        /\ player_id data' = publicId)
  /\ (inherited userKey = false ->
      exists r st', get_stats raises cfg now hr period st d = Sent (r, st')).
Proof.
  intros Hv Hr Hne Hc. unfold get_stats, get_player_stats.
  rewrite Hv, Hr. unfold resolveUserKeyFromPublicId.
  apply String.eqb_neq in Hne. rewrite Hne, Hc.
  cbn [resolved_userKey resolved_username resolved_publicId].
  set (o := Some {| override_username := _; override_publicId := _ |}).
  split; [|apply StatsFacts.sendStatsResponse_plain].
  intros r st' E0.
  destruct (sendStatsResponse_overrides raises cfg now userKey
              (Period.toSeconds (Some (default "24h" (present period))))
              o st d r st' E0) as (data & -> & E1).
  exists data, (apply_overrides o data).
  split; [reflexivity|]. split; [exact E1|].
  subst o. unfold nonempty. rewrite Hne.
  cbn [apply_overrides with_player override_publicId default present id].
  unfold nonempty. rewrite Hne. cbn [default player_id with_player id].
  split; [|reflexivity]. unfold same_figures. cbn. tauto.
Qed.

Lemma find_none_in {A : Type} (f : A -> bool) (l : list A) :
  (forall x, In x l -> f x = false) -> List.find f l = None.
Proof.
  intros F. induction l as [|a l IH]; simpl; [reflexivity|].
  rewrite (F a (or_introl eq_refl)). apply IH. intros x Hin.
  apply F. now right.
Qed.

(** The viewer's read is closed while no client key is configured, and
    asks for the client key once one is; without a database, a public
    id that is no inherited property name and that no cache entry, no
    bucket and no session carries is answered 404 and leaves the
    stores as they are. *)
Theorem viewer_refused_or_not_found raises lookup_raises cfg now h publicId
    period st d :
  (CLIENT_KEY cfg = EmptyString \/ CLIENT_KEY cfg = CLIENT_KEY_PLACEHOLDER ->
   get_player_stats entries raises lookup_raises cfg now h publicId period
     st d
   = Sent (fail 400 "viewer disabled", st))
  /\ (CLIENT_KEY cfg <> EmptyString ->
      CLIENT_KEY cfg <> CLIENT_KEY_PLACEHOLDER ->
      x_client_key h <> Some (CLIENT_KEY cfg) ->
      get_player_stats entries raises lookup_raises cfg now h publicId period
        st d
      = Sent (fail 401 "unauthorized", st))
  /\ (requireViewerKey cfg h = None -> USE_DB cfg = false ->
      unknown_id publicId st ->
      get_player_stats entries raises lookup_raises cfg now h publicId period
        st d
      = Sent (fail 404 "not found", st)).
Proof using entries_own.
  unfold get_player_stats. split; [|split].
  - intros E. unfold requireViewerKey.
    destruct E as [E|E]; rewrite E; [reflexivity|].
    now rewrite String.eqb_refl, orb_true_r.
  - intros E1 E2 Hk. unfold requireViewerKey.
    apply String.eqb_neq in E1, E2. rewrite E1, E2. cbn [orb].
    destruct (header_is (x_client_key h) (CLIENT_KEY cfg)) eqn:A;
      [|reflexivity].
    apply header_is_iff in A. congruence.
  - intros Hv Hdb (Hc & Hb & Hs). rewrite Hv.
    unfold resolveUserKeyFromPublicId.
    destruct (String.eqb publicId EmptyString); [reflexivity|].
    rewrite Hc, Hdb. simpl negb. cbv iota.
    unfold find_bucket. rewrite find_none_in.
    + unfold find_session. rewrite find_none_in; [reflexivity|].
      intros [k x] Hin. apply in_flat_map in Hin.
      destruct Hin as ([k' xs] & Hin & Hx). cbn [fst snd] in Hx.
      apply List.in_map_iff in Hx. destruct Hx as (x' & [= <- <-] & Hx).
      apply List.in_map_iff in Hin.
      destruct Hin as ([k0 mine] & [= <- <-] & Hin). cbn [fst snd] in *.
      apply List.in_map_iff in Hx. destruct Hx as ([p x0] & <- & Hx).
      apply entries_own in Hin, Hx. cbn [snd].
      pose proof (Hs _ _ _ _ Hin Hx) as N.
      destruct (session_publicId x0) as [q|]; [|reflexivity].
      apply String.eqb_neq. congruence.
    + intros [k bk] Hin. apply entries_own in Hin. cbn [snd].
      apply String.eqb_neq. exact (Hb _ _ Hin).
Qed.

End WithPlatform.

Import Examples.

Lemma viewer_sees_owner_figures_witness :
  exists data data' st',
    @get_stats plain_platform never
      {| env_API_KEY := Some "k"; env_CLIENT_KEY := Some "c"; USE_DB := false |}
      200
      {| x_user_key := Some "u"; x_api_key := None; x_client_key := Some "c" |}
      (Some "1h") stored_at_100 empty_database
    = Sent ({| status := 200; payload := StatsBody data |}, st')
    /\ @get_player_stats plain_platform (fun A => map_to_list) never
         (fun _ => false)
         {| env_API_KEY := Some "k"; env_CLIENT_KEY := Some "c";
            USE_DB := false |}
         200
         {| x_user_key := None; x_api_key := None; x_client_key := Some "c" |}
         "u" (Some "1h") stored_at_100 empty_database
       = Sent ({| status := 200; payload := StatsBody data' |}, st')
    /\ stats_honey data' = [Sample (of_Z 100) (of_Z 7)]
    /\ same_figures data' data
    /\ player_id data' = "u".
Proof.
  destruct (@viewer_sees_owner_figures plain_platform (fun A => map_to_list)
              never (fun _ => false)
              {| env_API_KEY := Some "k"; env_CLIENT_KEY := Some "c";
                 USE_DB := false |}
              200
              {| x_user_key := None; x_api_key := None;
                 x_client_key := Some "c" |}
              {| x_user_key := Some "u"; x_api_key := None;
                 x_client_key := Some "c" |}
              "u" (Some "1h") stored_at_100 empty_database "u" None
              eq_refl eq_refl ltac:(discriminate) eq_refl)
    as [R S].
  destruct (S eq_refl) as (r & st' & E).
  destruct (R r st' E) as (data & data' & -> & G & F & I).
  exists data, data', st'. split; [exact E|]. split; [exact G|].
  split; [|split; [exact F | exact I]].
  vm_compute in G. now injection G as <-.
Defined.

Lemma viewer_refused_or_not_found_witness :
  requireViewerKey
    {| env_API_KEY := Some "k"; env_CLIENT_KEY := Some "c"; USE_DB := false |}
    {| x_user_key := None; x_api_key := None; x_client_key := Some "c" |}
  = None
  /\ unknown_id "nobody" stored_at_100
  /\ @get_player_stats plain_platform (fun A => map_to_list) never
       (fun _ => false)
       {| env_API_KEY := Some "k"; env_CLIENT_KEY := Some "c";
          USE_DB := false |}
       200
       {| x_user_key := None; x_api_key := None; x_client_key := Some "c" |}
       "nobody" (Some "1h") stored_at_100 empty_database
     = Sent (fail 404 "not found", stored_at_100).
Proof.
  assert (U : unknown_id "nobody" stored_at_100).
  { unfold unknown_id. split; [reflexivity|]. split.
    - intros k bk E. apply elem_of_map_to_list in E.
      remember (map_to_list (samples stored_at_100)) as l eqn:L.
      vm_compute in L. subst l. apply list_elem_of_In in E.
      destruct E as [[= <- <-]|[]]. discriminate.
    - intros k mine p x E. vm_compute in E. discriminate. }
  split; [reflexivity|]. split; [exact U|].
  apply (proj2 (proj2
           (@viewer_refused_or_not_found plain_platform
              (fun A => map_to_list)
              (fun A m k x Hin => proj1 (elem_of_map_to_list m k x)
                                    (proj2 (list_elem_of_In _ _) Hin))
              never (fun _ => false)
              {| env_API_KEY := Some "k"; env_CLIENT_KEY := Some "c";
                 USE_DB := false |}
              200
              {| x_user_key := None; x_api_key := None;
                 x_client_key := Some "c" |}
              "nobody" (Some "1h") stored_at_100 empty_database)));
    [reflexivity | reflexivity | exact U].
Defined.

End ViewerFacts.

(** ** The list of online players *)

Module PlayersFacts.
Import Server Viewer Players NumFacts.

Lemma seen_lately_since (now : Z) (lastSeen : num) :
  seen_lately now lastSeen = true ->
  geb lastSeen (of_Z (now - 120)) = true.
Proof.
  unfold seen_lately, ONLINE_TIMEOUT, geb, gtb, sub.
  destruct lastSeen as [q|[]|]; simpl; try (intros; congruence).
  - intros E.
    destruct (Qle_bool (inject_Z now + - q) (inject_Z 120)) eqn:L.
    + apply Qle_bool_iff in L. apply Qle_bool_iff.
      unfold Z.sub. rewrite inject_Z_plus.
      change (inject_Z (- (120))) with (- (120 # 1))%Q.
      change (inject_Z 120) with (120 # 1) in L.
      revert L. generalize (inject_Z now). intros n L. lra.
    + exfalso. unfold Qltb in E. rewrite L in E. simpl in E.
      rewrite andb_false_r in E. discriminate.
Qed.

Lemma or_now_since (now : Z) (t : num) :
  geb t (of_Z (now - ONLINE_TIMEOUT)) = true ->
  geb (if JsNum.truthy t then t else of_Z now) (of_Z (now - 120)) = true.
Proof.
  intros E. destruct (JsNum.truthy t); [exact E|].
  unfold geb. apply leb_of_Z. lia.
Qed.

Lemma shown_name_nonempty (name : option string) :
  default "Player" (name ≫= nonempty) <> EmptyString.
Proof.
  destruct name as [s|]; simpl; [|discriminate].
  unfold nonempty. destruct (String.eqb s EmptyString) eqn:E; simpl;
    [discriminate | now apply String.eqb_neq].
Qed.

Lemma Forall_push {A : Type} (P : A -> Prop) (l : list A) (x : A) :
  Forall P l -> P x -> Forall P (l ++ [x]).
Proof.
  intros Hl Hx. apply List.Forall_app. split; [exact Hl | now constructor].
Qed.

Lemma list_session_online now userKey acc x :
  Forall (online now) (fst acc) ->
  Forall (online now) (fst (list_session now userKey acc x)).
Proof.
  destruct acc as [list seenKeys]. unfold list_session. intros F.
  destruct (seen_lately now (session_lastSeen x)) eqn:E; [|exact F].
  cbn [fst] in *. apply Forall_push; [exact F|]. split; cbn.
  - now apply seen_lately_since.
  - apply (shown_name_nonempty (Some (session_username x))).
Qed.

Lemma list_bucket_online now acc e :
  Forall (online now) (fst acc) ->
  Forall (online now) (fst (list_bucket now acc e)).
Proof.
  destruct acc as [list seenKeys]. unfold list_bucket. intros F.
  destruct (bool_decide (fst e ∈ seenKeys)); [exact F|].
  destruct (seen_lately now (lastSeen (snd e))) eqn:E; [|exact F].
  cbn [fst] in *. apply Forall_push; [exact F|]. split; cbn.
  - now apply seen_lately_since.
  - apply (shown_name_nonempty (username (snd e))).
Qed.

Lemma list_session_row_online now acc r :
  geb (last_seen r) (of_Z (now - ONLINE_TIMEOUT)) = true ->
  Forall (online now) (fst (fst acc)) ->
  Forall (online now) (fst (fst (list_session_row now acc r))).
Proof.
  destruct acc as [[list seenKeys] st]. unfold list_session_row.
  intros E F. cbn [fst] in *. apply Forall_push; [exact F|]. split; cbn.
  - now apply or_now_since.
  - apply (shown_name_nonempty (row_username r)).
Qed.

Lemma list_user_row_online now acc u :
  geb (last_activity u) (of_Z (now - ONLINE_TIMEOUT)) = true ->
  Forall (online now) (fst (fst acc)) ->
  Forall (online now) (fst (fst (list_user_row now acc u))).
Proof.
  destruct acc as [[list seenKeys] st]. unfold list_user_row.
  intros E F. destruct (present (public_id u)) as [pid|]; [|exact F].
  destruct (bool_decide (user_key u ∈ seenKeys)); [exact F|].
  cbn [fst] in *. apply Forall_push; [exact F|]. split; cbn.
  - now apply or_now_since.
  - apply (shown_name_nonempty (user_username u)).
Qed.

Lemma fold_online {A B : Type} (now : Z) (list_of : B -> list player)
    (step : B -> A -> B) (ok : A -> Prop) (l : list A) (acc : B) :
  (forall acc x, ok x -> Forall (online now) (list_of acc) ->
                 Forall (online now) (list_of (step acc x))) ->
  Forall ok l ->
  Forall (online now) (list_of acc) ->
  Forall (online now) (list_of (fold_left step l acc)).
Proof.
  intros S. revert acc.
  induction l as [|x rest IH]; intros acc Hl F; simpl; [exact F|].
  inversion Hl; subst. apply IH; [assumption|]. now apply S.
Qed.

Section Handlers.

Variable entries : forall A : Type, gmap string A -> list (string * A).
Variable sort_by_name : list player -> list player.
Variable by_username : list user_row -> list user_row.
Variable raises : query -> bool.

(** Sorting and ordering list what they were given. *)
Hypothesis sort_by_name_in :
  forall l p, In p (sort_by_name l) -> In p l.
Hypothesis by_username_in :
  forall l u, In u (by_username l) -> In u l.

Lemma sorted_online now list :
  Forall (online now) list -> Forall (online now) (sort_by_name list).
Proof using sort_by_name_in.
  intros F. apply List.Forall_forall. intros p Hin.
  apply sort_by_name_in in Hin. revert p Hin. now apply List.Forall_forall.
Qed.

(** Every player [GET /api/players] lists was seen in the last 120
    seconds and carries a name, from memory and from the database;
    a request without the viewer's key gets the refusal of
    [requireViewerKey].  Without a database the stores stay as they
    are, and with one a failing query is answered by the empty
    list. *)
Theorem listed_players_are_online cfg now h st d :
  match fst (get_players entries sort_by_name by_username raises cfg now h
               st d) with
  | Refused r => requireViewerKey cfg h = Some r
  | Players players => Forall (online now) players
  end
  /\ (USE_DB cfg = false ->
      snd (get_players entries sort_by_name by_username raises cfg now h st d)
      = st)
  /\ (requireViewerKey cfg h = None -> USE_DB cfg = true ->
      raises (OnlineSessions (of_Z (now - 120))) = true
      \/ raises (OnlineUsers (of_Z (now - 120))) = true ->
      fst (get_players entries sort_by_name by_username raises cfg now h st d)
      = Players []).
Proof using sort_by_name_in by_username_in.
  unfold get_players.
  destruct (requireViewerKey cfg h) as [r|] eqn:V.
  { split; [reflexivity|]. split; [reflexivity | discriminate]. }
  destruct (USE_DB cfg); simpl negb; cbv iota.
  - change (now - ONLINE_TIMEOUT) with (now - 120).
    destruct (raises (OnlineSessions (of_Z (now - 120)))) eqn:R1.
    { split; [constructor|]. split; [discriminate | reflexivity]. }
    pose proof (fold_online now (fun acc => fst (fst acc))
                  (list_session_row now)
                  (fun r => geb (last_seen r) (of_Z (now - ONLINE_TIMEOUT))
                            = true)
                  (List.filter (fun r => geb (last_seen r) (of_Z (now - 120)))
                     (player_sessions d))
                  ([], ∅, st)) as F1.
    destruct (fold_left (list_session_row now) _ ([], ∅, st))
      as [[list seenKeys] st1].
    destruct (raises (OnlineUsers (of_Z (now - 120)))) eqn:R2.
    { split; [constructor|]. split; [discriminate | reflexivity]. }
    pose proof (fold_online now (fun acc => fst (fst acc))
                  (list_user_row now)
                  (fun u => geb (last_activity u) (of_Z (now - ONLINE_TIMEOUT))
                            = true)
                  (by_username
                     (List.filter
                        (fun u => geb (last_activity u) (of_Z (now - 120)))
                        (users d)))
                  (list, seenKeys, st1)) as F2.
    destruct (fold_left (list_user_row now) _ (list, seenKeys, st1))
      as [[list2 seenKeys2] st2].
    split; [|split; [discriminate | intros _ _ [E|E]; discriminate]].
    cbn [fst]. apply sorted_online. apply F2.
    + intros acc u. apply list_user_row_online.
    + apply List.Forall_forall. intros u Hin. apply by_username_in in Hin.
      apply List.filter_In in Hin. tauto.
    + apply F1.
      * intros acc r. apply list_session_row_online.
      * apply List.Forall_forall. intros r Hin.
        apply List.filter_In in Hin. tauto.
      * constructor.
  - pose proof (fold_online now fst
                  (fun acc (e : string * gmap string session) =>
                     fold_left (list_session now (fst e))
                       (map snd (entries _ (snd e))) acc)
                  (fun _ => True)
                  (entries _ (memorySessions st)) ([], ∅)) as F1.
    set (acc1 := fold_left _ (entries _ (memorySessions st)) ([], ∅)) in *.
    pose proof (fold_online now fst (list_bucket now) (fun _ => True)
                  (entries _ (samples st)) acc1) as F2.
    destruct (fold_left (list_bucket now) (entries _ (samples st)) acc1)
      as [list seenKeys].
    split; [|split; [reflexivity | discriminate]].
    cbn [fst]. apply sorted_online. apply F2.
    + intros acc e _. apply list_bucket_online.
    + apply List.Forall_forall. auto.
    + apply F1.
      * intros acc e _ F.
        apply (fold_online now fst (list_session now (fst e))
                 (fun _ => True)).
        -- intros acc' x _. apply list_session_online.
        -- apply List.Forall_forall. auto.
        -- exact F.
      * apply List.Forall_forall. auto.
      * constructor.
Qed.

End Handlers.

Import Examples.

Lemma listed_players_are_online_witness :
  match
    fst (get_players (fun A => map_to_list) (fun l => l) (fun l => l)
           (fun _ => false)
           {| env_API_KEY := Some "k"; env_CLIENT_KEY := Some "c";
              USE_DB := false |}
           150
           {| x_user_key := None; x_api_key := None;
              x_client_key := Some "c" |}
           stored_at_100 empty_database)
  with
  | Refused r =>
      requireViewerKey
        {| env_API_KEY := Some "k"; env_CLIENT_KEY := Some "c";
           USE_DB := false |}
        {| x_user_key := None; x_api_key := None; x_client_key := Some "c" |}
      = Some r
  | Players players => Forall (online 150) players /\ length players = 1%nat
  end.
Proof.
  pose proof (listed_players_are_online (fun A => map_to_list) (fun l => l)
                (fun l => l) (fun _ => false) (fun l p Hin => Hin)
                (fun l u Hin => Hin)
                {| env_API_KEY := Some "k"; env_CLIENT_KEY := Some "c";
                   USE_DB := false |}
                150
                {| x_user_key := None; x_api_key := None;
                   x_client_key := Some "c" |}
                stored_at_100 empty_database) as [G _].
  revert G.
  destruct (fst (get_players _ _ _ _ _ _ _ _ _)) as [r|players] eqn:E;
    intros G; [exact G|].
  split; [exact G|]. vm_compute in E. injection E as <-. reflexivity.
Defined.

End PlayersFacts.
